(** * Retro Pixel Painter: a shallow embedding of [src/App.tsx]

    The editor keeps a 32x32 RGBA canvas, a list of full-canvas snapshots
    with a current index, and a handful of pieces of React state.  Every
    function below is a transcription of the function of the same name in
    [App.tsx]; React state becomes one record that is passed through the
    handlers, and the browser's canvas API is a small model of its own. *)

From Stdlib Require Import ZArith List String Ascii Bool Lia.
From stdpp Require Import base list.

Local Open Scope Z_scope.

(** ** JavaScript helpers *)

Module Js.

(** A call either returns or throws.  The only exception the modelled
    code can raise is the [TypeError] of reading a property of
    [undefined]. *)
Inductive JsError : Type := TypeError.

Inductive completion (A : Type) : Type :=
| Returned (a : A)
| Threw (e : JsError).
Arguments Returned {A} a.
Arguments Threw {A} e.

(** [Array.prototype.slice(start, end)]: negative positions count from
    the end, everything is clamped to [0, length]. *)
Definition rel_index (len i : Z) : Z :=
  if i <? 0 then Z.max (len + i) 0 else Z.min i len.

Definition slice {A : Type} (l : list A) (start stop : Z) : list A :=
  let len := Z.of_nat (length l) in
  let k := rel_index len start in
  let f := rel_index len stop in
  take (Z.to_nat (f - k)) (drop (Z.to_nat k) l).

(** [slice(start)] with the end left out. *)
Definition slice_from {A : Type} (l : list A) (start : Z) : list A :=
  slice l start (Z.of_nat (length l)).

(** [arr[i]]: [undefined] (here [None]) outside the array. *)
Definition elem {A : Type} (l : list A) (i : Z) : option A :=
  if i <? 0 then None else l !! Z.to_nat i.

(** A store into a [Uint8ClampedArray]: the value is clamped to a byte
    and a store outside the array is dropped. *)
Definition clamp8 (v : Z) : Z := Z.max 0 (Z.min 255 v).

Definition store8 (l : list Z) (i v : Z) : list Z :=
  if i <? 0 then l else <[Z.to_nat i := clamp8 v]> l.

(** [a === v] for a possibly [undefined] array element [a]. *)
Definition strict_eq (a : option Z) (v : Z) : bool :=
  match a with
  | Some u => u =? v
  | None => false
  end.

End Js.

Import Js.

(** ** Data model *)

Inductive Tool : Type :=
| pencil | eraser | fill | line | rectangle | circle | eyedropper | select.

Record Point : Type := mkPoint { px : Z; py : Z }.

Record RGB : Type := mkRGB { red : Z; green : Z; blue : Z }.

(** [ImageData]: [width * height] RGBA pixels, row-major, four bytes each. *)
Record ImageData : Type := mkImageData {
  width : Z;
  height : Z;
  data : list Z
}.

Record HistoryEntry : Type := mkHistoryEntry {
  imageData : ImageData;
  timestamp : Z
}.

(** ** Colours as the code has them: strings *)

Section Colours.

(** One character of the class [[a-f\d]] under the [i] flag. *)
Definition hexDigit (c : ascii) : option Z :=
  let n := Z.of_N (N_of_ascii c) in
  if (48 <=? n) && (n <=? 57) then Some (n - 48)
  else if (97 <=? n) && (n <=? 102) then Some (n - 87)
  else if (65 <=? n) && (n <=? 70) then Some (n - 55)
  else None.

(** [parseInt(s, 16)] on a two-character match. *)
Definition parseHex2 (c1 c2 : ascii) : option Z :=
  match hexDigit c1, hexDigit c2 with
  | Some h, Some l => Some (16 * h + l)
  | _, _ => None
  end.

(** Exactly three groups of two hexadecimal digits. *)
Definition hexGroups (body : string) : option RGB :=
  match body with
  | String r1 (String r2 (String g1 (String g2 (String b1 (String b2 EmptyString))))) =>
      match parseHex2 r1 r2, parseHex2 g1 g2, parseHex2 b1 b2 with
      | Some r, Some g, Some b => Some (mkRGB r g b)
      | _, _, _ => None
      end
  | _ => None
  end.

(** [/^#?([a-f\d]{2})([a-f\d]{2})([a-f\d]{2})$/i.exec(hex)], with
    [parseInt(_, 16)] on the three groups.  A leading [#] is not a
    hexadecimal digit, so it can only be matched by the optional [#]. *)
Definition hexToRgb (hex : string) : option RGB :=
  match hex with
  | String a rest => if Ascii.eqb a "#" then hexGroups rest else hexGroups hex
  | EmptyString => None
  end.

(** [v.toString(16).padStart(2, '0')] for a byte [v]. *)
Definition hexChar (d : Z) : ascii :=
  if d <? 10 then ascii_of_N (Z.to_N (48 + d)) else ascii_of_N (Z.to_N (87 + d)).

Definition toHex2 (v : Z) : string :=
  String (hexChar (v / 16)) (String (hexChar (v mod 16)) EmptyString).

End Colours.

(** ** The canvas

    The 2D context of the browser is not part of the repository.  The
    model keeps what the code observes of it: the backing store of RGBA
    bytes, the dimensions and the current fill style. *)

Record Canvas : Type := mkCanvas {
  canvas_width : Z;
  canvas_height : Z;
  canvas_data : list Z;
  fillStyle : RGB
}.

Definition inCanvas (c : Canvas) (x y : Z) : bool :=
  (0 <=? x) && (x <? canvas_width c) && (0 <=? y) && (y <? canvas_height c).

Definition set_canvas_data (c : Canvas) (d : list Z) : Canvas :=
  mkCanvas (canvas_width c) (canvas_height c) d (fillStyle c).

(** [ctx.fillStyle = color].  The editor only ever assigns [#rrggbb]
    strings (palette entries, colour inputs and [getPixelColor] results);
    the browser ignores an assignment it cannot parse. *)
Definition cssColor (color : string) : option RGB :=
  match color with
  | String a _ => if Ascii.eqb a "#" then hexToRgb color else None
  | EmptyString => None
  end.

Definition set_fillStyle (c : Canvas) (color : string) : Canvas :=
  match cssColor color with
  | Some rgb => mkCanvas (canvas_width c) (canvas_height c) (canvas_data c) rgb
  | None => c
  end.

(** Byte offset of pixel [(x, y)] in a row-major RGBA array of width [w]. *)
Definition offset (w x y : Z) : Z := (y * w + x) * 4.

(** The red, green and blue bytes at offset [i] compared with, and
    overwritten by, a colour. *)
Definition matchesRGB (d : list Z) (i : Z) (c : RGB) : bool :=
  strict_eq (elem d i) (red c) && strict_eq (elem d (i + 1)) (green c)
  && strict_eq (elem d (i + 2)) (blue c).

Definition writeRGB (d : list Z) (i : Z) (c : RGB) : list Z :=
  store8 (store8 (store8 d i (red c)) (i + 1) (green c)) (i + 2) (blue c).

(** [ctx.fillRect(x, y, 1, 1)] with an opaque fill style: one pixel, and
    nothing at all outside the canvas. *)
Definition fillRect1 (c : Canvas) (x y : Z) : Canvas :=
  if inCanvas c x y then
    let i := offset (canvas_width c) x y in
    let s := fillStyle c in
    set_canvas_data c (store8 (writeRGB (canvas_data c) i s) (i + 3) 255)
  else c.

(** [ctx.fillRect(0, 0, canvas.width, canvas.height)] *)
Definition fillAll (c : Canvas) : Canvas :=
  let s := fillStyle c in
  set_canvas_data c
    (imap (fun n _ => match Z.of_nat n mod 4 with
                      | 0 => red s | 1 => green s | 2 => blue s | _ => 255
                      end) (canvas_data c)).

(** [ctx.getImageData(sx, sy, sw, sh)]: a fresh array; pixels outside the
    canvas read as transparent black. *)
Definition getImageData (c : Canvas) (sx sy sw sh : Z) : ImageData :=
  mkImageData sw sh
    (map (fun n =>
            let i := Z.of_nat n in
            let k := i / 4 in
            let x := sx + k mod sw in
            let y := sy + k / sw in
            if inCanvas c x y
            then default 0 (elem (canvas_data c) (offset (canvas_width c) x y + i mod 4))
            else 0)
         (seq 0 (Z.to_nat (sw * sh * 4)))).

(** [ctx.putImageData(img, dx, dy)]: every pixel of [img] that lands on
    the canvas replaces the pixel there, all four channels; the part of
    [img] that falls outside is dropped. *)
Definition putImageData (c : Canvas) (img : ImageData) (dx dy : Z) : Canvas :=
  set_canvas_data c
    (imap (fun n old =>
             let i := Z.of_nat n in
             let k := i / 4 in
             let x := k mod canvas_width c in
             let y := k / canvas_width c in
             let u := x - dx in
             let v := y - dy in
             if (0 <=? u) && (u <? width img) && (0 <=? v) && (v <? height img)
             then default old (elem (data img) (offset (width img) u v + i mod 4))
             else old)
          (canvas_data c)).

(** A canvas whose backing store has the size its dimensions announce. *)
Definition wf_canvas (c : Canvas) : Prop :=
  0 < canvas_width c /\ 0 < canvas_height c /\
  Z.of_nat (length (canvas_data c)) = canvas_width c * canvas_height c * 4.

(** The pixel at [(x, y)] as the four bytes stored for it. *)
Definition pixelAt (w : Z) (d : list Z) (x y : Z) : list (option Z) :=
  let i := offset w x y in
  [elem d i; elem d (i + 1); elem d (i + 2); elem d (i + 3)].

Definition canvasPixel (c : Canvas) (x y : Z) : list (option Z) :=
  pixelAt (canvas_width c) (canvas_data c) x y.

(** ** Drawing primitives of [App.tsx] *)

(** [canvasSize]: React state without a setter, so a constant. *)
Record Size : Type := mkSize { size_width : Z; size_height : Z }.

Definition canvasSize : Size := mkSize 32 32.

(** [for (let i = lo; i <= hi; i++) body] *)
Definition zrange (lo hi : Z) : list Z :=
  map (fun n => lo + Z.of_nat n) (seq 0 (Z.to_nat (hi - lo + 1))).

Definition for_range {St : Type} (lo hi : Z) (body : Z -> St -> St) (s : St) : St :=
  fold_left (fun acc i => body i acc) (zrange lo hi) s.

Definition drawPixel (c : Canvas) (x y : Z) (color : string) : Canvas :=
  fillRect1 (set_fillStyle c color) x y.

Definition getPixelColor (c : Canvas) (x y : Z) : string :=
  let d := data (getImageData c x y 1 1) in
  let byte i := default 0 (elem d i) in
  String "#"%char (toHex2 (byte 0) ++ toHex2 (byte 1) ++ toHex2 (byte 2))%string.

(** *** Flood fill

    The stack is a list whose head is the top.  [None] means that the
    loop was still running when the fuel ran out. *)

Fixpoint floodFill_loop (fuel : nat) (w h : Z) (targetRGB fillRGB : RGB)
    (d : list Z) (stack : list Point) {struct fuel} : option (list Z) :=
  match stack with
  | [] => Some d
  | p :: stack' =>
      match fuel with
      | O => None
      | S fuel' =>
          let x := px p in
          let y := py p in
          if (x <? 0) || (x >=? w) || (y <? 0) || (y >=? h)
          then floodFill_loop fuel' w h targetRGB fillRGB d stack'
          else
            let index := (y * w + x) * 4 in
            if matchesRGB d index targetRGB then
              floodFill_loop fuel' w h targetRGB fillRGB (writeRGB d index fillRGB)
                (mkPoint x (y - 1) :: mkPoint x (y + 1)
                 :: mkPoint (x - 1) y :: mkPoint (x + 1) y :: stack')
            else floodFill_loop fuel' w h targetRGB fillRGB d stack'
      end
  end.

Definition floodFill (fuel : nat) (c : Canvas) (startX startY : Z)
    (targetColor fillColor : string) : option Canvas :=
  if String.eqb targetColor fillColor then Some c
  else
    let w := canvas_width c in
    let h := canvas_height c in
    let img := getImageData c 0 0 w h in
    match hexToRgb targetColor, hexToRgb fillColor with
    | Some targetRGB, Some fillRGB =>
        match floodFill_loop fuel w h targetRGB fillRGB (data img)
                [mkPoint startX startY] with
        | Some d => Some (putImageData c (mkImageData (width img) (height img) d) 0 0)
        | None => None
        end
    | _, _ => Some c
    end.

(** *** Lines

    The loop is written once over any [drawPixel]: [plot x y] is the
    effect of one call.  Taking the canvas for [St] gives [drawLine];
    taking a list of points gives the path the line visits. *)

Section Line.

Context {St : Type} (plot : Z -> Z -> St -> St).

Fixpoint drawLine_loop (fuel : nat) (x1 y1 dx dy sx sy x y err : Z) (s : St)
    {struct fuel} : option St :=
  match fuel with
  | O => None
  | S fuel' =>
      let s := plot x y s in
      if (x =? x1) && (y =? y1) then Some s
      else
        let e2 := 2 * err in
        let '(err, x) := if e2 >? - dy then (err - dy, x + sx) else (err, x) in
        let '(err, y) := if e2 <? dx then (err + dx, y + sy) else (err, y) in
        drawLine_loop fuel' x1 y1 dx dy sx sy x y err s
  end.

Definition drawLine_with (fuel : nat) (x0 y0 x1 y1 : Z) (s : St) : option St :=
  let dx := Z.abs (x1 - x0) in
  let dy := Z.abs (y1 - y0) in
  let sx := if x0 <? x1 then 1 else -1 in
  let sy := if y0 <? y1 then 1 else -1 in
  let err := dx - dy in
  drawLine_loop fuel x1 y1 dx dy sx sy x0 y0 err s.

End Line.

Definition drawLine (fuel : nat) (c : Canvas) (x0 y0 x1 y1 : Z) (color : string)
    : option Canvas :=
  drawLine_with (fun x y c => drawPixel c x y color) fuel x0 y0 x1 y1 c.

(** The pixels a line visits, in the order of the calls to [drawPixel]. *)
Definition linePath (fuel : nat) (x0 y0 x1 y1 : Z) : option (list Point) :=
  drawLine_with (fun x y acc => acc ++ [mkPoint x y]) fuel x0 y0 x1 y1 [].

(** *** Rectangles *)

Definition drawRect (c : Canvas) (x0 y0 x1 y1 : Z) (color : string) (filled : bool)
    : Canvas :=
  let left := Z.min x0 x1 in
  let right := Z.max x0 x1 in
  let top := Z.min y0 y1 in
  let bottom := Z.max y0 y1 in
  if filled then
    for_range top bottom (fun y c =>
      for_range left right (fun x c => drawPixel c x y color) c) c
  else
    let c := for_range left right (fun x c =>
               drawPixel (drawPixel c x top color) x bottom color) c in
    for_range top bottom (fun y c =>
      drawPixel (drawPixel c left y color) right y color) c.

(** *** Circles *)

Definition plotPoints (color : string) (cx cy x y : Z) (c : Canvas) : Canvas :=
  let points :=
    [ mkPoint (cx + x) (cy + y); mkPoint (cx - x) (cy + y);
      mkPoint (cx + x) (cy - y); mkPoint (cx - x) (cy - y);
      mkPoint (cx + y) (cy + x); mkPoint (cx - y) (cy + x);
      mkPoint (cx + y) (cy - x); mkPoint (cx - y) (cy - x) ] in
  fold_left (fun c point =>
    if (px point >=? 0) && (px point <? size_width canvasSize)
       && (py point >=? 0) && (py point <? size_height canvasSize)
    then drawPixel c (px point) (py point) color
    else c) points c.

Fixpoint drawCircle_loop (fuel : nat) (color : string) (centerX centerY x y d : Z)
    (c : Canvas) {struct fuel} : option Canvas :=
  if y >=? x then
    match fuel with
    | O => None
    | S fuel' =>
        let x := x + 1 in
        let '(y, d) := if d >? 0 then (y - 1, d + 4 * (x - (y - 1)) + 10)
                       else (y, d + 4 * x + 6) in
        drawCircle_loop fuel' color centerX centerY x y d
          (plotPoints color centerX centerY x y c)
    end
  else Some c.

Definition drawCircle (fuel : nat) (c : Canvas) (centerX centerY radius : Z)
    (color : string) (filled : bool) : option Canvas :=
  if filled then
    Some (for_range (- radius) radius (fun y c =>
            for_range (- radius) radius (fun x c =>
              if x * x + y * y <=? radius * radius then
                let pixelX := centerX + x in
                let pixelY := centerY + y in
                if (pixelX >=? 0) && (pixelX <? size_width canvasSize)
                   && (pixelY >=? 0) && (pixelY <? size_height canvasSize)
                then drawPixel c pixelX pixelY color
                else c
              else c) c) c)
  else
    let x := 0 in
    let y := radius in
    let d := 3 - 2 * radius in
    drawCircle_loop fuel color centerX centerY x y d
      (plotPoints color centerX centerY x y c).

(** ** Editor state

    The pieces of React state of [App] that the drawing, history and
    pointer handlers read or write.  The overlay canvas only shows
    previews and is left out; [canvasData] is the persisted copy of the
    canvas ([toDataURL] is lossless, so the copy is kept as pixels, and
    the empty string is [None]); [saveTimeout] records whether a debounce
    timer is pending. *)

Record State : Type := mkState {
  canvas : Canvas;
  zoom : Z;
  activeTool : Tool;
  foregroundColor : string;
  backgroundColor : string;
  isDrawing : bool;
  startPoint : Point;
  currentPoint : Point;
  mousePos : Point;
  history : list HistoryEntry;
  historyIndex : Z;
  selection : option (Point * Point);
  clipboard : option ImageData;
  canvasData : option ImageData;
  saveTimeout : bool
}.

Definition set_canvas (s : State) (c : Canvas) : State :=
  mkState c (zoom s) (activeTool s) (foregroundColor s) (backgroundColor s)
    (isDrawing s) (startPoint s) (currentPoint s) (mousePos s) (history s)
    (historyIndex s) (selection s) (clipboard s) (canvasData s) (saveTimeout s).

Definition setActiveTool (s : State) (t : Tool) : State :=
  mkState (canvas s) (zoom s) t (foregroundColor s) (backgroundColor s)
    (isDrawing s) (startPoint s) (currentPoint s) (mousePos s) (history s)
    (historyIndex s) (selection s) (clipboard s) (canvasData s) (saveTimeout s).

Definition setForegroundColor (s : State) (color : string) : State :=
  mkState (canvas s) (zoom s) (activeTool s) color (backgroundColor s)
    (isDrawing s) (startPoint s) (currentPoint s) (mousePos s) (history s)
    (historyIndex s) (selection s) (clipboard s) (canvasData s) (saveTimeout s).

Definition setIsDrawing (s : State) (b : bool) : State :=
  mkState (canvas s) (zoom s) (activeTool s) (foregroundColor s) (backgroundColor s)
    b (startPoint s) (currentPoint s) (mousePos s) (history s)
    (historyIndex s) (selection s) (clipboard s) (canvasData s) (saveTimeout s).

Definition setStartPoint (s : State) (p : Point) : State :=
  mkState (canvas s) (zoom s) (activeTool s) (foregroundColor s) (backgroundColor s)
    (isDrawing s) p (currentPoint s) (mousePos s) (history s)
    (historyIndex s) (selection s) (clipboard s) (canvasData s) (saveTimeout s).

Definition setCurrentPoint (s : State) (p : Point) : State :=
  mkState (canvas s) (zoom s) (activeTool s) (foregroundColor s) (backgroundColor s)
    (isDrawing s) (startPoint s) p (mousePos s) (history s)
    (historyIndex s) (selection s) (clipboard s) (canvasData s) (saveTimeout s).

Definition setMousePos (s : State) (p : Point) : State :=
  mkState (canvas s) (zoom s) (activeTool s) (foregroundColor s) (backgroundColor s)
    (isDrawing s) (startPoint s) (currentPoint s) p (history s)
    (historyIndex s) (selection s) (clipboard s) (canvasData s) (saveTimeout s).

Definition setHistory (s : State) (h : list HistoryEntry) : State :=
  mkState (canvas s) (zoom s) (activeTool s) (foregroundColor s) (backgroundColor s)
    (isDrawing s) (startPoint s) (currentPoint s) (mousePos s) h
    (historyIndex s) (selection s) (clipboard s) (canvasData s) (saveTimeout s).

Definition setHistoryIndex (s : State) (i : Z) : State :=
  mkState (canvas s) (zoom s) (activeTool s) (foregroundColor s) (backgroundColor s)
    (isDrawing s) (startPoint s) (currentPoint s) (mousePos s) (history s)
    i (selection s) (clipboard s) (canvasData s) (saveTimeout s).

Definition setSelection (s : State) (sel : option (Point * Point)) : State :=
  mkState (canvas s) (zoom s) (activeTool s) (foregroundColor s) (backgroundColor s)
    (isDrawing s) (startPoint s) (currentPoint s) (mousePos s) (history s)
    (historyIndex s) sel (clipboard s) (canvasData s) (saveTimeout s).

Definition setClipboard (s : State) (cb : option ImageData) : State :=
  mkState (canvas s) (zoom s) (activeTool s) (foregroundColor s) (backgroundColor s)
    (isDrawing s) (startPoint s) (currentPoint s) (mousePos s) (history s)
    (historyIndex s) (selection s) cb (canvasData s) (saveTimeout s).

Definition setCanvasData (s : State) (d : option ImageData) : State :=
  mkState (canvas s) (zoom s) (activeTool s) (foregroundColor s) (backgroundColor s)
    (isDrawing s) (startPoint s) (currentPoint s) (mousePos s) (history s)
    (historyIndex s) (selection s) (clipboard s) d (saveTimeout s).

Definition setSaveTimeout (s : State) (b : bool) : State :=
  mkState (canvas s) (zoom s) (activeTool s) (foregroundColor s) (backgroundColor s)
    (isDrawing s) (startPoint s) (currentPoint s) (mousePos s) (history s)
    (historyIndex s) (selection s) (clipboard s) (canvasData s) b.

(** ** History *)

(** [ctx.getImageData(0, 0, canvas.width, canvas.height)] *)
Definition snapshot (c : Canvas) : ImageData :=
  getImageData c 0 0 (canvas_width c) (canvas_height c).

(** [saveToHistory].  [now] is the value of [Date.now()].  The updater of
    [setHistory] reads [historyIndex] from the closure of the render in
    which the handler was created; every handler calls [saveToHistory] at
    most once, before any other write to the index, so that value is the
    one in [s]. *)
Definition saveToHistory (now : Z) (s : State) : State :=
  let imageData := snapshot (canvas s) in
  let newEntry := mkHistoryEntry imageData now in
  let newHistory := slice (history s) 0 (historyIndex s + 1) ++ [newEntry] in
  setHistoryIndex (setHistory s (slice_from newHistory (-50))) (historyIndex s + 1).

Definition saveCanvas (s : State) : State :=
  setCanvasData s (Some (snapshot (canvas s))).

Definition undo (s : State) : completion State :=
  if historyIndex s <=? 0 then Returned s
  else
    match elem (history s) (historyIndex s - 1) with
    | None => Threw TypeError
    | Some prevEntry =>
        let s := set_canvas s (putImageData (canvas s) (imageData prevEntry) 0 0) in
        Returned (saveCanvas (setHistoryIndex s (historyIndex s - 1)))
    end.

Definition redo (s : State) : completion State :=
  if historyIndex s >=? Z.of_nat (length (history s)) - 1 then Returned s
  else
    match elem (history s) (historyIndex s + 1) with
    | None => Threw TypeError
    | Some nextEntry =>
        let s := set_canvas s (putImageData (canvas s) (imageData nextEntry) 0 0) in
        Returned (saveCanvas (setHistoryIndex s (historyIndex s + 1)))
    end.

Definition clearCanvas (now : Z) (s : State) : State :=
  let c := fillAll (set_fillStyle (canvas s) (backgroundColor s)) in
  saveCanvas (saveToHistory now (set_canvas s c)).

(** ** Pointer handlers *)

(** A mouse event together with the bounding rectangle of the canvas at
    the time it is handled. *)
Record MouseEvent : Type := mkMouseEvent {
  clientX : Z;
  clientY : Z;
  rect_left : Z;
  rect_top : Z
}.

Definition getPixelCoords (s : State) (event : MouseEvent) : Point :=
  let x := (clientX event - rect_left event) / zoom s in
  let y := (clientY event - rect_top event) / zoom s in
  mkPoint (Z.max 0 (Z.min (size_width canvasSize - 1) x))
          (Z.max 0 (Z.min (size_height canvasSize - 1) y)).

Definition handleMouseDown (fuel : nat) (now : Z) (s : State) (event : MouseEvent)
    : option State :=
  let point := getPixelCoords s event in
  let s := setStartPoint s point in
  let s := setCurrentPoint s point in
  let s := setIsDrawing s true in
  match activeTool s with
  | eyedropper =>
      let color := getPixelColor (canvas s) (px point) (py point) in
      Some (setForegroundColor s color)
  | fill =>
      let targetColor := getPixelColor (canvas s) (px point) (py point) in
      match floodFill fuel (canvas s) (px point) (py point) targetColor
              (foregroundColor s) with
      | Some c => Some (saveCanvas (saveToHistory now (set_canvas s c)))
      | None => None
      end
  | pencil =>
      Some (set_canvas s (drawPixel (canvas s) (px point) (py point) (foregroundColor s)))
  | eraser =>
      Some (set_canvas s (drawPixel (canvas s) (px point) (py point) (backgroundColor s)))
  | _ => Some s
  end.

(** [debouncedSave]: (re)arm the timer. *)
Definition debouncedSave (s : State) : State := setSaveTimeout s true.

(** The timer of [debouncedSave] going off. *)
Definition saveTimeoutFired (s : State) : State :=
  if saveTimeout s then saveCanvas (setSaveTimeout s false) else s.

Definition handleMouseMove (s : State) (event : MouseEvent) : State :=
  let point := getPixelCoords s event in
  let s := setMousePos s point in
  if negb (isDrawing s) then s
  else
    let s := setCurrentPoint s point in
    match activeTool s with
    | pencil =>
        debouncedSave
          (set_canvas s (drawPixel (canvas s) (px point) (py point) (foregroundColor s)))
    | eraser =>
        debouncedSave
          (set_canvas s (drawPixel (canvas s) (px point) (py point) (backgroundColor s)))
    | _ => s
    end.

Definition handleMouseUp (fuel : nat) (now : Z) (s : State) (event : MouseEvent)
    : option State :=
  if negb (isDrawing s) then Some s
  else
    let point := getPixelCoords s event in
    let start := startPoint s in
    let drawn :=
      match activeTool s with
      | line =>
          drawLine fuel (canvas s) (px start) (py start) (px point) (py point)
            (foregroundColor s)
      | rectangle =>
          Some (drawRect (canvas s) (px start) (py start) (px point) (py point)
                  (foregroundColor s) false)
      | circle =>
          let radius :=
            Z.sqrt ((px point - px start) ^ 2 + (py point - py start) ^ 2) in
          drawCircle fuel (canvas s) (px start) (py start) radius
            (foregroundColor s) false
      | _ => Some (canvas s)
      end in
    match drawn with
    | Some c => Some (saveCanvas (saveToHistory now (setIsDrawing (set_canvas s c) false)))
    | None => None
    end.

(** [onMouseLeave={handleMouseUp}]: leaving the canvas is a release. *)
Definition handleMouseLeave := handleMouseUp.

(** ** Start of a session *)

(** A fresh 32x32 canvas element: transparent black, black fill style. *)
Definition freshCanvas : Canvas :=
  mkCanvas (size_width canvasSize) (size_height canvasSize)
    (repeat 0 (Z.to_nat (size_width canvasSize * size_height canvasSize * 4)))
    (mkRGB 0 0 0).

(** The state of the first render. *)
Definition initialState : State :=
  mkState freshCanvas 8 pencil "#000000" "#FFFFFF" false
    (mkPoint 0 0) (mkPoint 0 0) (mkPoint 0 0) [] (-1) None None None false.

(** The mount effect: white background, then the first snapshot. *)
Definition mount (now : Z) (s : State) : State :=
  saveToHistory now (set_canvas s (fillAll (set_fillStyle (canvas s) "#FFFFFF"))).

(** ** Clipboard *)

(** Modelled from the spec: the two error kinds of the clipboard
    operations, which [App.tsx] does not implement. *)
Inductive ClipboardError : Type := EmptySelection | EmptyClipboard.

(** Modelled from the spec: the outcome of a clipboard operation, a new
    state or one of the errors above. *)
Inductive result (A : Type) : Type :=
| Ok (a : A)
| Err (e : ClipboardError).
Arguments Ok {A} a.
Arguments Err {A} e.

(** Modelled from the spec: [App.tsx] never builds a selection.  "An
    axis-aligned rectangle (two corner Points, normalized to
    top-left/bottom-right)". *)
Definition normalize (a b : Point) : Point * Point :=
  (mkPoint (Z.min (px a) (px b)) (Z.min (py a) (py b)),
   mkPoint (Z.max (px a) (px b)) (Z.max (py a) (py b))).

(** Modelled from the spec: [App.tsx] declares the [selection] and
    [clipboard] state but contains no copy function.  Following the
    specification: "extracts a dense pixel block for the normalized
    selection rectangle; fails with EmptySelection if no selection is
    active". *)
Definition copy (s : State) : result State :=
  match selection s with
  | None => Err EmptySelection
  | Some (a, b) =>
      let '(tl, br) := normalize a b in
      let block := getImageData (canvas s) (px tl) (py tl)
                     (px br - px tl + 1) (py br - py tl + 1) in
      Ok (setClipboard s (Some block))
  end.

(** Modelled from the spec: [App.tsx] contains no paste function.
    Following the specification: "writes the clipboard block into the
    buffer with its top-left at destinationPoint, clipping any portion
    that falls outside buffer bounds; triggers a history capture; fails
    with EmptyClipboard if nothing has been copied". *)
Definition paste (now : Z) (s : State) (destinationPoint : Point) : result State :=
  match clipboard s with
  | None => Err EmptyClipboard
  | Some block =>
      let c := putImageData (canvas s) block (px destinationPoint) (py destinationPoint) in
      Ok (saveToHistory now (set_canvas s c))
  end.


(** * Vocabulary of the properties *)

(** The last [k] elements of a list. *)
Definition lastn {A : Type} (k : nat) (l : list A) : list A :=
  drop (length l - k) l.

(** One capture: the canvas as it is at that moment, and the clock. *)
Definition capture (s : State) (cap : Canvas * Z) : State :=
  saveToHistory (snd cap) (set_canvas s (fst cap)).

Definition entryOf (cap : Canvas * Z) : HistoryEntry :=
  mkHistoryEntry (snapshot (fst cap)) (snd cap).

(** A colour whose three channels are bytes. *)
Definition byteRGB (c : RGB) : Prop :=
  0 <= red c <= 255 /\ 0 <= green c <= 255 /\ 0 <= blue c <= 255.

(** An opaque pixel of colour [c], as four stored bytes. *)
Definition opaque (c : RGB) : list (option Z) :=
  [Some (red c); Some (green c); Some (blue c); Some 255].

(** Points of a [w] by [h] grid, and the four neighbours of a point. *)
Definition inside (w h : Z) (p : Point) : Prop :=
  0 <= px p < w /\ 0 <= py p < h.

Definition adjacent (p q : Point) : Prop :=
  (px q = px p /\ (py q = py p + 1 \/ py q = py p - 1)) \/
  (py q = py p /\ (px q = px p + 1 \/ px q = px p - 1)).

(** The pixel at [p] of the array [d] has the colour [c]. *)
Definition hasRGB (w : Z) (d : list Z) (c : RGB) (p : Point) : Prop :=
  matchesRGB d (offset w (px p) (py p)) c = true.

(** The 4-connected region of pixels of colour [t] that contains [seed]:
    empty when the seed is outside the grid or of another colour. *)
Inductive region (w h : Z) (d : list Z) (t : RGB) (seed : Point) : Point -> Prop :=
| region_seed :
    inside w h seed -> hasRGB w d t seed -> region w h d t seed seed
| region_step p q :
    region w h d t seed p -> adjacent p q -> inside w h q -> hasRGB w d t q ->
    region w h d t seed q.

(** How many indices of a list satisfy a test. *)
Fixpoint countb (P : nat -> bool) (l : list nat) : nat :=
  match l with
  | [] => 0%nat
  | k :: l' => ((if P k then 1 else 0) + countb P l')%nat
  end.

(** The pixels of a [w] by [h] array that still have the colour [t]. *)
Definition remaining (w h : Z) (t : RGB) (d : list Z) : nat :=
  countb (fun k => matchesRGB d (Z.of_nat k * 4) t) (seq 0 (Z.to_nat (w * h))).

(** A stack from which the loop cannot get away when the fill colour is
    the target colour: it holds a pixel of that colour with a neighbour of
    that colour. *)
Definition knot (w h : Z) (t : RGB) (d : list Z) (stack : list Point) : Prop :=
  exists p q, In p stack /\ inside w h p /\ hasRGB w d t p /\
              adjacent p q /\ inside w h q /\ hasRGB w d t q.

(** The points pushed after a pixel has been filled, top of stack first. *)
Definition neighbours (p : Point) : list Point :=
  [mkPoint (px p) (py p - 1); mkPoint (px p) (py p + 1);
   mkPoint (px p - 1) (py p); mkPoint (px p + 1) (py p)].

(** What the loop of [floodFill] maintains, relative to the array [d0] it
    started from: outside the region of the seed the array still reads as
    [d0], and every stacked point of the target colour of [d0] is in the
    region. *)
Definition frame_inv (w h : Z) (t : RGB) (d0 : list Z) (seed : Point)
    (d : list Z) : Prop :=
  length d = length d0 /\
  forall p, inside w h p ->
    region w h d0 t seed p \/
    forall k, 0 <= k < 4 ->
      elem d (offset w (px p) (py p) + k) = elem d0 (offset w (px p) (py p) + k).

Definition stack_inv (w h : Z) (t : RGB) (d0 : list Z) (seed : Point)
    (stack : list Point) : Prop :=
  forall p, In p stack -> inside w h p -> hasRGB w d0 t p ->
            region w h d0 t seed p.

(** The region of [floodFill] on a canvas, for a target given as the
    string the code receives. *)
Definition fillRegion (c : Canvas) (targetColor : string) (seed p : Point) : Prop :=
  exists t, hexToRgb targetColor = Some t /\
            region (canvas_width c) (canvas_height c) (canvas_data c) t seed p.

(** The canvas after the mount effect: 32x32, white, opaque. *)
Definition whiteCanvas : Canvas := fillAll (set_fillStyle freshCanvas "#FFFFFF").

(** The white canvas with the pixels (0,0) and (1,0) drawn with the red
    of the default palette. *)
Definition twoRedPixels : Canvas :=
  drawPixel (drawPixel whiteCanvas 0 0 "#FF0000") 1 0 "#FF0000".

(** A press or release over the pixel [(x, y)] at the initial zoom of 8,
    with the canvas at the origin of the viewport. *)
Definition eventAt (x y : Z) : MouseEvent := mkMouseEvent (8 * x + 3) (8 * y + 3) 0 0.

(** A press followed by a release over the same pixel. *)
Definition click (fuel : nat) (now : Z) (s : State) (x y : Z) : option State :=
  match handleMouseDown fuel now s (eventAt x y) with
  | Some s1 => handleMouseUp fuel (now + 1) s1 (eventAt x y)
  | None => None
  end.

(** A session: the editor is mounted, the red swatch of the default
    palette is clicked, and the pencil is clicked on (0,0) and on (1,0). *)
Definition redStroke : option State :=
  let s := setForegroundColor (mount 0 initialState) "#FF0000" in
  match click 0 1 s 0 0 with
  | Some s1 => click 0 3 s1 1 0
  | None => None
  end.

(** The decisions of the line loop, counted in steps rather than in
    coordinates: [a] steps taken along x and [b] along y so far.  The loop
    of [drawLine] between any two end points visits the images of these
    pairs. *)
Fixpoint lineSteps (fuel : nat) (dx dy a b err : Z) {struct fuel}
    : option (list (Z * Z)) :=
  match fuel with
  | O => None
  | S fuel' =>
      if (a =? dx) && (b =? dy) then Some [(a, b)]
      else
        let e2 := 2 * err in
        let '(err', a') := if e2 >? - dy then (err - dy, a + 1) else (err, a) in
        let '(err'', b') := if e2 <? dx then (err' + dx, b + 1) else (err', b) in
        option_map (cons (a, b)) (lineSteps fuel' dx dy a' b' err'')
  end.

(** What the loop keeps true of its error term. *)
Definition line_inv (dx dy a b err : Z) : Prop :=
  0 <= a <= dx /\ 0 <= b <= dy /\ err = dx - dy - a * dy + b * dx.

(** The point reached after [a] steps along x and [b] along y. *)
Definition stepPoint (x0 y0 sx sy : Z) (ab : Z * Z) : Point :=
  mkPoint (x0 + sx * fst ab) (y0 + sy * snd ab).

(** The point symmetric to [p] about the middle of the segment from
    [(x0, y0)] to [(x1, y1)]. *)
Definition reflect (x0 y0 x1 y1 : Z) (p : Point) : Point :=
  mkPoint (x0 + x1 - px p) (y0 + y1 - py p).

(** One [drawPixel] per point of a list, in order. *)
Definition paint (color : string) (ps : list Point) (c : Canvas) : Canvas :=
  fold_left (fun c p => drawPixel c (px p) (py p) color) ps c.

(** Whether one of the points of [ps] is the pixel [(u, v)] of the canvas. *)
Definition covers (c : Canvas) (ps : list Point) (u v : Z) : bool :=
  existsb (fun p => inCanvas c (px p) (py p) && (u =? px p) && (v =? py p)) ps.

(** The test a pair of offsets has to pass in the filled branch of
    [drawCircle]: inside the disk, and on the canvas. *)
Definition inDisk (centerX centerY radius y x : Z) : bool :=
  (x * x + y * y <=? radius * radius)
  && ((centerX + x >=? 0) && (centerX + x <? size_width canvasSize)
      && (centerY + y >=? 0) && (centerY + y <? size_height canvasSize)).

(** The pixels the filled branch draws, in the order of the two loops. *)
Definition diskPoints (centerX centerY radius : Z) : list Point :=
  flat_map (fun y =>
              map (fun x => mkPoint (centerX + x) (centerY + y))
                (List.filter (inDisk centerX centerY radius y)
                   (zrange (- radius) radius)))
           (zrange (- radius) radius).

(** * The rest of the component *)

Definition setZoom (s : State) (z : Z) : State :=
  mkState (canvas s) z (activeTool s) (foregroundColor s) (backgroundColor s)
    (isDrawing s) (startPoint s) (currentPoint s) (mousePos s) (history s)
    (historyIndex s) (selection s) (clipboard s) (canvasData s) (saveTimeout s).



(** The two zoom buttons of the toolbar. *)
Definition zoomOutButton (s : State) : State := setZoom s (Z.max 1 (zoom s - 1)).

Definition zoomInButton (s : State) : State := setZoom s (Z.min 16 (zoom s + 1)).

(** The state of [App] outside the editor proper: the grid switch and
    the draggable window. *)
Record Ui : Type := mkUi {
  editor : State;
  showGrid : bool;
  windowPos : Point;
  isDragging : bool;
  dragStart : Point
}.

Definition setEditor (ui : Ui) (s : State) : Ui :=
  mkUi s (showGrid ui) (windowPos ui) (isDragging ui) (dragStart ui).

Record KeyboardEvent : Type := mkKeyboardEvent {
  key : string;
  ctrlKey : bool;
  metaKey : bool;
  shiftKey : bool
}.

(** [undo()] and [redo()] are started without [await]: an exception ends
    up in the rejected promise, and since it is raised before anything is
    written, the state is the one before the call. *)
Definition settle (r : completion State) (s : State) : State :=
  match r with
  | Returned s' => s'
  | Threw _ => s
  end.

(** [handleKeyDown] of the keyboard effect. *)
Definition handleKeyDown (ui : Ui) (event : KeyboardEvent) : Ui :=
  let s := editor ui in
  let k := key event in
  if ctrlKey event || metaKey event then
    if String.eqb k "z" then
      if shiftKey event then setEditor ui (settle (redo s) s)
      else setEditor ui (settle (undo s) s)
    else if String.eqb k "y" then setEditor ui (settle (redo s) s)
    else ui
  else if String.eqb k "1" then setEditor ui (setActiveTool s pencil)
  else if String.eqb k "2" then setEditor ui (setActiveTool s eraser)
  else if String.eqb k "3" then setEditor ui (setActiveTool s fill)
  else if String.eqb k "4" then setEditor ui (setActiveTool s line)
  else if String.eqb k "5" then setEditor ui (setActiveTool s rectangle)
  else if String.eqb k "6" then setEditor ui (setActiveTool s circle)
  else if String.eqb k "7" then setEditor ui (setActiveTool s eyedropper)
  else if String.eqb k "8" then setEditor ui (setActiveTool s select)
  else if String.eqb k "+" || String.eqb k "=" then
    setEditor ui (setZoom s (Z.min 16 (zoom s + 1)))
  else if String.eqb k "-" then
    setEditor ui (setZoom s (Z.max 1 (zoom s - 1)))
  else if String.eqb k "g" then
    mkUi s (negb (showGrid ui)) (windowPos ui) (isDragging ui) (dragStart ui)
  else ui.

(** The title bar: a press records where the window was grabbed, the
    document-level handlers move the window while it is held. *)
Definition handleTitleBarMouseDown (ui : Ui) (event : MouseEvent) : Ui :=
  mkUi (editor ui) (showGrid ui) (windowPos ui) true
    (mkPoint (clientX event - px (windowPos ui)) (clientY event - py (windowPos ui))).

Definition windowMouseMove (ui : Ui) (event : MouseEvent) : Ui :=
  if isDragging ui then
    mkUi (editor ui) (showGrid ui)
      (mkPoint (clientX event - px (dragStart ui)) (clientY event - py (dragStart ui)))
      (isDragging ui) (dragStart ui)
  else ui.

Definition windowMouseUp (ui : Ui) : Ui :=
  mkUi (editor ui) (showGrid ui) (windowPos ui) false (dragStart ui).

(** * More vocabulary *)

(** A gesture: a press, the moves while the button is held, a release. *)
Definition gesture (fuel : nat) (t1 t2 : Z) (s : State)
    (press : MouseEvent) (moves : list MouseEvent) (release : MouseEvent)
    : option State :=
  match handleMouseDown fuel t1 s press with
  | Some s1 => handleMouseUp fuel t2 (fold_left handleMouseMove moves s1) release
  | None => None
  end.

(** Two pixels that touch, by a side or by a corner. *)
Definition touching (p q : Point) : Prop :=
  Z.abs (px q - px p) <= 1 /\ Z.abs (py q - py p) <= 1 /\ p <> q.

(** Every element of a list is related to the next one. *)
Inductive chain {A : Type} (R : A -> A -> Prop) : list A -> Prop :=
| chain_nil : chain R []
| chain_one a : chain R [a]
| chain_cons a b l : R a b -> chain R (b :: l) -> chain R (a :: b :: l).

(** The test of [plotPoints] and of the filled circle. *)
Definition onCanvasSize (p : Point) : bool :=
  (px p >=? 0) && (px p <? size_width canvasSize)
  && (py p >=? 0) && (py p <? size_height canvasSize).

(** The eight points of [plotPoints], in its order. *)
Definition octants (cx cy x y : Z) : list Point :=
  [ mkPoint (cx + x) (cy + y); mkPoint (cx - x) (cy + y);
    mkPoint (cx + x) (cy - y); mkPoint (cx - x) (cy - y);
    mkPoint (cx + y) (cy + x); mkPoint (cx - y) (cy + x);
    mkPoint (cx + y) (cy - x); mkPoint (cx - y) (cy - x) ].

(** The pairs [(x, y)] handed to [plotPoints] by the loop of the outline
    circle, from the state [(x, y, d)] on. *)
Fixpoint circleSteps (fuel : nat) (x y d : Z) {struct fuel} : option (list (Z * Z)) :=
  if y >=? x then
    match fuel with
    | O => None
    | S fuel' =>
        let x' := x + 1 in
        let y' := if d >? 0 then y - 1 else y in
        let d' := if d >? 0 then d + 4 * (x' - (y - 1)) + 10 else d + 4 * x' + 6 in
        option_map (cons (x', y')) (circleSteps fuel' x' y' d')
    end
  else Some [].

(** The pixels of the outline of a rectangle, in the order of the two
    loops of [drawRect], and those of a filled rectangle. *)
Definition outlinePoints (left right top bottom : Z) : list Point :=
  flat_map (fun x => [mkPoint x top; mkPoint x bottom]) (zrange left right)
  ++ flat_map (fun y => [mkPoint left y; mkPoint right y]) (zrange top bottom).

Definition filledPoints (left right top bottom : Z) : list Point :=
  flat_map (fun y => map (fun x => mkPoint x y) (zrange left right)) (zrange top bottom).

(** A canvas whose stored values are bytes, as those of a
    [Uint8ClampedArray] are. *)
Definition byteCanvas (c : Canvas) : Prop :=
  forall i b, elem (canvas_data c) i = Some b -> 0 <= b <= 255.

(** What the loop of [floodFill] maintains on top of [frame_inv], for a
    fill colour [f] other than the target [t]: a pixel is as in [d0] or
    has been given the colour [f] with its alpha left alone, and the
    filled pixels of the region have their neighbours in the region either
    filled or on the stack. *)
Definition fill_inv (w h : Z) (t f : RGB) (d0 : list Z) (seed : Point)
    (d : list Z) (stack : list Point) : Prop :=
  length d = length d0 /\
  (forall p, inside w h p ->
     (forall k, 0 <= k < 4 ->
        elem d (offset w (px p) (py p) + k) = elem d0 (offset w (px p) (py p) + k))
     \/ (hasRGB w d f p /\
         elem d (offset w (px p) (py p) + 3) = elem d0 (offset w (px p) (py p) + 3))) /\
  (inside w h seed -> hasRGB w d0 t seed -> hasRGB w d f seed \/ In seed stack) /\
  (forall p q, region w h d0 t seed p -> hasRGB w d f p -> adjacent p q ->
     inside w h q -> hasRGB w d0 t q -> hasRGB w d f q \/ In q stack).

(** A history entry whose image has the size of the canvas. *)
Definition fits (c : Canvas) (e : HistoryEntry) : Prop :=
  width (imageData e) = canvas_width c /\
  height (imageData e) = canvas_height c /\
  length (data (imageData e)) = length (canvas_data c).

(** The string [getPixelColor] builds from the three colour bytes of a
    pixel. *)
Definition hexColor (c : RGB) : string :=
  String "#"%char (toHex2 (red c) ++ toHex2 (green c) ++ toHex2 (blue c))%string.

(** One iteration of the line loop, in steps: one more step along x, or
    along y, or both. *)
Definition lineStep (ab ab' : Z * Z) : Prop :=
  (fst ab' = fst ab \/ fst ab' = fst ab + 1) /\
  (snd ab' = snd ab \/ snd ab' = snd ab + 1) /\
  ab' <> ab.

(** What a pointer move leaves alone. *)
Definition sameSetup (s s' : State) : Prop :=
  zoom s' = zoom s /\ activeTool s' = activeTool s /\
  foregroundColor s' = foregroundColor s /\
  backgroundColor s' = backgroundColor s /\
  isDrawing s' = isDrawing s /\ startPoint s' = startPoint s /\
  history s' = history s /\ historyIndex s' = historyIndex s /\
  canvasData s' = canvasData s.

(** The colour of a stroke: the foreground colour for the pencil, the
    background colour for the eraser. *)
Definition strokeColor (s : State) : option string :=
  match activeTool s with
  | pencil => Some (foregroundColor s)
  | eraser => Some (backgroundColor s)
  | _ => None
  end.
(** * Properties *)

(** Boolean tests of the code, turned into the facts they decide. *)
Ltac zbool :=
  repeat match goal with
  | H : (_ >? _) = _ |- _ => rewrite Z.gtb_ltb in H
  | H : (_ >=? _) = _ |- _ => rewrite Z.geb_leb in H
  | H : (_ && _) = true |- _ => apply andb_prop in H; destruct H
  | H : (_ || _) = false |- _ => apply orb_false_elim in H; destruct H
  | H : negb _ = true |- _ => apply negb_true_iff in H
  | H : negb _ = false |- _ => apply negb_false_iff in H
  | H : (_ <? _) = true |- _ => apply Z.ltb_lt in H
  | H : (_ <? _) = false |- _ => apply Z.ltb_ge in H
  | H : (_ <=? _) = true |- _ => apply Z.leb_le in H
  | H : (_ <=? _) = false |- _ => apply Z.leb_gt in H
  | H : (_ =? _) = true |- _ => apply Z.eqb_eq in H
  | H : (_ =? _) = false |- _ => apply Z.eqb_neq in H
  end.

(** ** Arrays *)

Section Arrays.

Context {A : Type}.
Implicit Types l : list A.

Lemma slice_prefix_all l (i : Z) :
  Z.of_nat (length l) <= i -> slice l 0 i = l.
Proof.
  intros Hi. unfold slice, rel_index.
  change (0 <? 0) with false. cbv iota.
  destruct (i <? 0) eqn:Ei; zbool; [lia|].
  rewrite (Z.min_l 0) by lia. rewrite (Z.min_r i) by lia.
  simpl. rewrite drop_0. apply take_ge. lia.
Qed.

Lemma slice_prefix_empty l : slice l 0 0 = [].
Proof.
  unfold slice, rel_index. simpl. rewrite Z.min_l by lia. reflexivity.
Qed.

Lemma slice_from_neg l (k : Z) :
  0 < k -> slice_from l (- k) = drop (length l - Z.to_nat k) l.
Proof.
  intros Hk. unfold slice_from, slice, rel_index.
  destruct (- k <? 0) eqn:E1; zbool; [|lia].
  destruct (Z.of_nat (length l) <? 0) eqn:E2; zbool; [lia|].
  rewrite Z.min_id.
  replace (Z.to_nat (Z.max (Z.of_nat (length l) + - k) 0))
    with (length l - Z.to_nat k)%nat by lia.
  apply take_ge. rewrite length_drop. lia.
Qed.

Lemma elem_ge l (i : Z) : Z.of_nat (length l) <= i -> elem l i = None.
Proof.
  intros Hi. unfold elem. destruct (i <? 0); [reflexivity|].
  apply lookup_ge_None. lia.
Qed.

Lemma lastn_length k l : length (lastn k l) = Nat.min k (length l).
Proof. unfold lastn. rewrite length_drop. lia. Qed.

Lemma lastn_snoc k l x :
  (0 < k)%nat -> lastn k (lastn k l ++ [x]) = lastn k (l ++ [x]).
Proof.
  intros Hk. unfold lastn. rewrite !length_app, length_drop. simpl.
  destruct (decide (length l <= k)%nat) as [Hle|Hgt].
  - replace (length l - k)%nat with 0%nat by lia. rewrite drop_0.
    f_equal. lia.
  - rewrite (drop_app_le l [x]) by lia.
    rewrite (drop_app_le (drop _ l) [x]) by (rewrite length_drop; lia).
    rewrite drop_drop. f_equal. f_equal. lia.
Qed.

End Arrays.

(** ** History *)

Section History.

Lemma historyIndex_saveToHistory now s :
  historyIndex (saveToHistory now s) = historyIndex s + 1.
Proof. reflexivity. Qed.

Lemma history_saveToHistory now s :
  history (saveToHistory now s)
  = slice_from (slice (history s) 0 (historyIndex s + 1)
                ++ [mkHistoryEntry (snapshot (canvas s)) now]) (-50).
Proof. reflexivity. Qed.

Lemma canvas_saveToHistory now s : canvas (saveToHistory now s) = canvas s.
Proof. reflexivity. Qed.

(** As long as the index is at or past the last entry, a capture keeps
    the last 50 entries and moves the index up by one, whatever the
    length of the list. *)
Lemma captures_run caps : forall s done,
  history s = lastn 50 (map entryOf done) ->
  historyIndex s = Z.of_nat (length done) - 1 ->
  history (fold_left capture caps s) = lastn 50 (map entryOf (done ++ caps)) /\
  historyIndex (fold_left capture caps s) = Z.of_nat (length (done ++ caps)) - 1.
Proof.
  induction caps as [|cap caps IH]; intros s done Hh Hi.
  - rewrite app_nil_r. auto.
  - simpl fold_left.
    replace (done ++ cap :: caps) with ((done ++ [cap]) ++ caps)
      by (rewrite <- app_assoc; reflexivity).
    apply IH.
    + unfold capture. rewrite history_saveToHistory. simpl.
      rewrite slice_prefix_all.
      * rewrite (slice_from_neg _ 50) by lia.
        rewrite Hh, map_app. simpl map.
        change (drop ?n ?l) with (lastn 50 (lastn 50 (map entryOf done) ++ [entryOf cap])).
        apply lastn_snoc. lia.
      * rewrite Hh, Hi, lastn_length, length_map. lia.
    + unfold capture. rewrite historyIndex_saveToHistory. simpl.
      rewrite Hi, length_app. simpl. lia.
Qed.

End History.

Section HistoryClaims.

(** The guard of [undo]: nothing happens at or below index 0. *)
Lemma undo_guard s : historyIndex s <= 0 -> undo s = Returned s.
Proof.
  intros H. unfold undo.
  destruct (historyIndex s <=? 0) eqn:E; zbool; [reflexivity | lia].
Qed.

Lemma mount_index now : historyIndex (mount now initialState) = 0.
Proof. reflexivity. Qed.

Lemma sixty_captures_history (caps : list (Canvas * Z)) :
  length caps = 60%nat ->
  history (fold_left capture caps initialState) = map entryOf (drop 10 caps) /\
  historyIndex (fold_left capture caps initialState) = 59.
Proof.
  intros Hlen.
  destruct (captures_run caps initialState []) as [Hh Hi]; [reflexivity..|].
  simpl app in Hh, Hi. split.
  - rewrite Hh. unfold lastn. rewrite length_map, Hlen.
    change (60 - 50)%nat with 10%nat. apply skipn_map.
  - rewrite Hi, Hlen. reflexivity.
Qed.

(** With the index past the end of the list, [undo] reads an entry that
    is not there. *)
Lemma undo_after_sixty_captures (caps : list (Canvas * Z)) :
  length caps = 60%nat ->
  undo (fold_left capture caps initialState) = Threw TypeError.
Proof.
  intros Hlen. destruct (sixty_captures_history caps Hlen) as [Hh Hi].
  unfold undo. rewrite Hi. change (59 <=? 0) with false. cbv iota.
  rewrite elem_ge; [reflexivity|].
  rewrite Hh, length_map, length_drop, Hlen. simpl. lia.
Qed.

End HistoryClaims.


(** ** Index arithmetic of the RGBA layout *)

Section Layout.

Variables (w : Z).
Hypothesis Hw : 0 < w.

Lemma offset_div4 x y k : 0 <= k < 4 -> (offset w x y + k) / 4 = y * w + x.
Proof.
  intros Hk. symmetry. apply (Z.div_unique_pos _ 4 _ k); [lia|].
  unfold offset. lia.
Qed.

Lemma offset_mod4 x y k : 0 <= k < 4 -> (offset w x y + k) mod 4 = k.
Proof.
  intros Hk. symmetry. apply (Z.mod_unique_pos _ 4 (y * w + x)); [lia|].
  unfold offset. lia.
Qed.

Lemma pixel_mod x y : 0 <= x < w -> (y * w + x) mod w = x.
Proof.
  intros Hx. symmetry. apply (Z.mod_unique_pos _ w y); lia.
Qed.

Lemma pixel_div x y : 0 <= x < w -> (y * w + x) / w = y.
Proof.
  intros Hx. symmetry. apply (Z.div_unique_pos _ w _ x); lia.
Qed.

(** Every byte index is the channel [i mod 4] of exactly one pixel. *)
Lemma offset_decompose i :
  0 <= i ->
  i = offset w ((i / 4) mod w) ((i / 4) / w) + i mod 4 /\
  0 <= (i / 4) mod w < w /\ 0 <= (i / 4) / w /\ 0 <= i mod 4 < 4.
Proof.
  intros Hi.
  pose proof (Z.div_mod i 4 ltac:(lia)) as H4.
  pose proof (Z.div_mod (i / 4) w ltac:(lia)) as Hd.
  pose proof (Z.mod_pos_bound i 4 ltac:(lia)).
  pose proof (Z.mod_pos_bound (i / 4) w Hw).
  assert (0 <= i / 4) by (apply Z.div_pos; lia).
  assert (0 <= i / 4 / w) by (apply Z.div_pos; lia).
  unfold offset. repeat split; lia.
Qed.

Lemma offset_range h x y k :
  0 <= x < w -> 0 <= y < h -> 0 <= k < 4 ->
  0 <= offset w x y + k < w * h * 4.
Proof. intros Hx Hy Hk. unfold offset. nia. Qed.

Lemma offset_row_bound h i :
  0 <= i < w * h * 4 -> (i / 4) / w < h.
Proof.
  intros Hi. apply Z.div_lt_upper_bound; [lia|].
  apply Z.div_lt_upper_bound; lia.
Qed.

(** Distinct pixels occupy disjoint bytes. *)
Lemma offset_inj x y k x' y' k' :
  0 <= x < w -> 0 <= x' < w -> 0 <= k < 4 -> 0 <= k' < 4 ->
  offset w x y + k = offset w x' y' + k' -> x = x' /\ y = y' /\ k = k'.
Proof.
  intros Hx Hx' Hk Hk' E.
  assert (E4 : y * w + x = y' * w + x').
  { rewrite <- (offset_div4 x y k Hk), <- (offset_div4 x' y' k' Hk'), E. reflexivity. }
  assert (Ek : k = k').
  { rewrite <- (offset_mod4 x y k Hk), <- (offset_mod4 x' y' k' Hk'), E. reflexivity. }
  assert (x = x').
  { rewrite <- (pixel_mod x y Hx), <- (pixel_mod x' y' Hx'), E4. reflexivity. }
  assert (y = y').
  { rewrite <- (pixel_div x y Hx), <- (pixel_div x' y' Hx'), E4. reflexivity. }
  auto.
Qed.

End Layout.

(** ** Reading and writing bytes *)

Section Bytes.

Implicit Types (l : list Z) (i j v : Z).

Lemma elem_lookup {A} (l : list A) i : 0 <= i -> elem l i = l !! Z.to_nat i.
Proof.
  intros Hi. unfold elem. destruct (i <? 0) eqn:E; zbool; [lia | reflexivity].
Qed.

Lemma elem_is_Some {A} (l : list A) i :
  0 <= i < Z.of_nat (length l) -> is_Some (elem l i).
Proof.
  intros Hi. rewrite elem_lookup by lia. apply lookup_lt_is_Some. lia.
Qed.

Lemma elem_Some_range {A} (l : list A) i a :
  elem l i = Some a -> 0 <= i < Z.of_nat (length l).
Proof.
  unfold elem. destruct (i <? 0) eqn:E; zbool; [discriminate|].
  intros H. apply lookup_lt_Some in H. lia.
Qed.

Lemma length_store8 l i v : length (store8 l i v) = length l.
Proof. unfold store8. destruct (i <? 0); [reflexivity | apply length_insert]. Qed.

Lemma elem_store8_eq l i v :
  0 <= i < Z.of_nat (length l) -> elem (store8 l i v) i = Some (clamp8 v).
Proof.
  intros Hi. rewrite elem_lookup by lia. unfold store8.
  destruct (i <? 0) eqn:E; zbool; [lia|].
  apply list_lookup_insert_eq. lia.
Qed.

Lemma elem_store8_ne l i j v : i <> j -> elem (store8 l i v) j = elem l j.
Proof.
  intros Hij. unfold elem, store8.
  destruct (j <? 0) eqn:Ej; [reflexivity|].
  destruct (i <? 0) eqn:Ei; [reflexivity|]. zbool.
  apply list_lookup_insert_ne. lia.
Qed.

(** Storing the byte that is already there changes nothing. *)
Lemma store8_same l i v :
  0 <= v <= 255 -> elem l i = Some v -> store8 l i v = l.
Proof.
  intros Hv H. unfold store8, elem in *.
  destruct (i <? 0); [reflexivity|].
  unfold clamp8. rewrite Z.min_r, Z.max_r by lia.
  apply list_insert_id. exact H.
Qed.

Lemma clamp8_byte v : 0 <= v <= 255 -> clamp8 v = v.
Proof. intros Hv. unfold clamp8. lia. Qed.

End Bytes.

(** ** Colours *)

Section ColourLemmas.

Lemma hexDigit_range a d : hexDigit a = Some d -> 0 <= d <= 15.
Proof.
  unfold hexDigit.
  repeat match goal with
         | |- context [if ?b then _ else _] => destruct b eqn:?
         end; intros [= <-]; zbool; lia.
Qed.

Lemma parseHex2_range a b v : parseHex2 a b = Some v -> 0 <= v <= 255.
Proof.
  unfold parseHex2.
  destruct (hexDigit a) as [h|] eqn:Ha; [|discriminate].
  destruct (hexDigit b) as [l|] eqn:Hb; [|discriminate].
  intros [= <-]. apply hexDigit_range in Ha, Hb. lia.
Qed.

Lemma hexGroups_range s c : hexGroups s = Some c -> byteRGB c.
Proof.
  unfold hexGroups.
  destruct s as [|r1 [|r2 [|g1 [|g2 [|b1 [|b2 [|? ?]]]]]]]; try discriminate.
  destruct (parseHex2 r1 r2) eqn:Hr; [|discriminate].
  destruct (parseHex2 g1 g2) eqn:Hg; [|discriminate].
  destruct (parseHex2 b1 b2) eqn:Hb; [|discriminate].
  intros [= <-]. unfold byteRGB. simpl.
  apply parseHex2_range in Hr, Hg, Hb. lia.
Qed.

Lemma hexToRgb_range s c : hexToRgb s = Some c -> byteRGB c.
Proof.
  unfold hexToRgb. destruct s as [|a rest]; [discriminate|].
  destruct (Ascii.eqb a "#"); apply hexGroups_range.
Qed.

Lemma cssColor_range s c : cssColor s = Some c -> byteRGB c.
Proof.
  unfold cssColor. destruct s as [|a rest]; [discriminate|].
  destruct (Ascii.eqb a "#"); [apply hexToRgb_range | discriminate].
Qed.

End ColourLemmas.

(** ** Pixels of a canvas *)

Section CanvasLemmas.

Lemma pixelAt_ext w d x y w' d' x' y' :
  (forall k, 0 <= k < 4 ->
             elem d (offset w x y + k) = elem d' (offset w' x' y' + k)) ->
  pixelAt w d x y = pixelAt w' d' x' y'.
Proof.
  intros H. unfold pixelAt.
  pose proof (H 0 ltac:(lia)) as H0. rewrite !Z.add_0_r in H0.
  rewrite H0, (H 1), (H 2), (H 3) by lia. reflexivity.
Qed.

Lemma elem_writeRGB d i c j :
  0 <= i -> i + 2 < Z.of_nat (length d) ->
  elem (writeRGB d i c) j =
    if j =? i then Some (clamp8 (red c))
    else if j =? i + 1 then Some (clamp8 (green c))
    else if j =? i + 2 then Some (clamp8 (blue c))
    else elem d j.
Proof.
  intros Hi Hlen. unfold writeRGB.
  destruct (j =? i) eqn:E0; zbool.
  - subst j. rewrite !elem_store8_ne by lia. apply elem_store8_eq. lia.
  - destruct (j =? i + 1) eqn:E1; zbool.
    + subst j. rewrite elem_store8_ne by lia.
      apply elem_store8_eq. rewrite length_store8. lia.
    + destruct (j =? i + 2) eqn:E2; zbool.
      * subst j. apply elem_store8_eq. rewrite !length_store8. lia.
      * rewrite !elem_store8_ne by lia. reflexivity.
Qed.

Lemma length_writeRGB d i c : length (writeRGB d i c) = length d.
Proof. unfold writeRGB. rewrite !length_store8. reflexivity. Qed.

Lemma inCanvas_spec c x y :
  inCanvas c x y = true <->
  0 <= x < canvas_width c /\ 0 <= y < canvas_height c.
Proof.
  unfold inCanvas. rewrite !andb_true_iff, !Z.leb_le, !Z.ltb_lt. lia.
Qed.

Lemma canvas_offset_range c x y k :
  wf_canvas c -> inCanvas c x y = true -> 0 <= k < 4 ->
  0 <= offset (canvas_width c) x y + k < Z.of_nat (length (canvas_data c)).
Proof.
  intros (Hw & Hh & Hlen) Hin Hk. apply inCanvas_spec in Hin.
  rewrite Hlen. apply offset_range; lia.
Qed.

(** Inside a well-formed canvas every channel of every pixel is there. *)
Lemma canvas_elem_Some c x y k :
  wf_canvas c -> inCanvas c x y = true -> 0 <= k < 4 ->
  is_Some (elem (canvas_data c) (offset (canvas_width c) x y + k)).
Proof.
  intros Hwf Hin Hk. apply elem_is_Some. apply canvas_offset_range; assumption.
Qed.

(** *** [fillRect] of one pixel *)

Lemma fillRect1_wf c x y : wf_canvas c -> wf_canvas (fillRect1 c x y).
Proof.
  intros Hwf. unfold fillRect1. destruct (inCanvas c x y); [|exact Hwf].
  unfold wf_canvas in *. simpl. rewrite length_store8, length_writeRGB. exact Hwf.
Qed.

Lemma fillRect1_dims c x y :
  canvas_width (fillRect1 c x y) = canvas_width c /\
  canvas_height (fillRect1 c x y) = canvas_height c /\
  fillStyle (fillRect1 c x y) = fillStyle c.
Proof. unfold fillRect1. destruct (inCanvas c x y); auto. Qed.

Lemma fillRect1_pixel c x y u v :
  wf_canvas c -> byteRGB (fillStyle c) -> inCanvas c u v = true ->
  canvasPixel (fillRect1 c x y) u v =
    if inCanvas c x y && (u =? x) && (v =? y) then opaque (fillStyle c)
    else canvasPixel c u v.
Proof.
  intros Hwf (Hr & Hg & Hb) Huv. unfold canvasPixel.
  destruct (fillRect1_dims c x y) as (-> & _ & _).
  unfold fillRect1.
  destruct (inCanvas c x y) eqn:Hxy; [|reflexivity]. simpl andb.
  pose proof (canvas_offset_range c x y 0 Hwf Hxy ltac:(lia)) as R0.
  pose proof (canvas_offset_range c x y 3 Hwf Hxy ltac:(lia)) as R3.
  assert (Hget : forall j,
    elem (store8 (writeRGB (canvas_data c) (offset (canvas_width c) x y) (fillStyle c))
            (offset (canvas_width c) x y + 3) 255) j =
    if j =? offset (canvas_width c) x y then Some (red (fillStyle c))
    else if j =? offset (canvas_width c) x y + 1 then Some (green (fillStyle c))
    else if j =? offset (canvas_width c) x y + 2 then Some (blue (fillStyle c))
    else if j =? offset (canvas_width c) x y + 3 then Some 255
    else elem (canvas_data c) j).
  { intros j.
    destruct (Z.eq_dec j (offset (canvas_width c) x y + 3)) as [->|Hne].
    - rewrite elem_store8_eq by (rewrite length_writeRGB; lia).
      repeat match goal with
             | |- context [?a =? ?b] => destruct (a =? b) eqn:?; zbool; try lia
             end. reflexivity.
    - rewrite elem_store8_ne by congruence.
      rewrite elem_writeRGB by lia.
      rewrite !clamp8_byte by assumption.
      repeat match goal with
             | |- context [?a =? ?b] => destruct (a =? b) eqn:?; zbool; try lia
             end; reflexivity. }
  simpl canvas_data.
  destruct ((u =? x) && (v =? y)) eqn:E.
  - zbool. subst u v. unfold pixelAt, opaque. rewrite !Hget.
    repeat match goal with
           | |- context [?a =? ?b] => destruct (a =? b) eqn:?; zbool; try lia
           end. reflexivity.
  - apply pixelAt_ext. intros k Hk. rewrite Hget.
    destruct Hwf as (Hw & _).
    apply inCanvas_spec in Hxy, Huv.
    assert (Hdiff : forall k', 0 <= k' < 4 ->
              offset (canvas_width c) u v + k <> offset (canvas_width c) x y + k').
    { intros k' Hk' Eq.
      destruct (offset_inj (canvas_width c) u v k x y k') as (Eu & Ev & _);
        [lia | lia | lia | lia | exact Eq |].
      apply andb_false_iff in E. destruct E; zbool; lia. }
    pose proof (Hdiff 0 ltac:(lia)). pose proof (Hdiff 1 ltac:(lia)).
    pose proof (Hdiff 2 ltac:(lia)). pose proof (Hdiff 3 ltac:(lia)).
    repeat match goal with
           | |- context [?a =? ?b] => destruct (a =? b) eqn:?; zbool; try lia
           end. reflexivity.
Qed.

(** *** [drawPixel] with a colour the canvas accepts *)

Lemma set_fillStyle_accepts c color rgb :
  cssColor color = Some rgb ->
  set_fillStyle c color
  = mkCanvas (canvas_width c) (canvas_height c) (canvas_data c) rgb.
Proof. intros H. unfold set_fillStyle. rewrite H. reflexivity. Qed.

Lemma drawPixel_wf c x y color : wf_canvas c -> wf_canvas (drawPixel c x y color).
Proof.
  intros Hwf. unfold drawPixel. apply fillRect1_wf.
  unfold set_fillStyle. destruct (cssColor color); exact Hwf.
Qed.

Lemma drawPixel_dims c x y color :
  canvas_width (drawPixel c x y color) = canvas_width c /\
  canvas_height (drawPixel c x y color) = canvas_height c.
Proof.
  unfold drawPixel.
  destruct (fillRect1_dims (set_fillStyle c color) x y) as (-> & -> & _).
  unfold set_fillStyle. destruct (cssColor color); auto.
Qed.

Lemma inCanvas_dims c c' x y :
  canvas_width c' = canvas_width c -> canvas_height c' = canvas_height c ->
  inCanvas c' x y = inCanvas c x y.
Proof. intros Hw Hh. unfold inCanvas. rewrite Hw, Hh. reflexivity. Qed.

Lemma drawPixel_pixel c x y color rgb u v :
  wf_canvas c -> cssColor color = Some rgb -> inCanvas c u v = true ->
  canvasPixel (drawPixel c x y color) u v =
    if inCanvas c x y && (u =? x) && (v =? y) then opaque rgb
    else canvasPixel c u v.
Proof.
  intros Hwf Hcol Huv. unfold drawPixel.
  rewrite (set_fillStyle_accepts c color rgb Hcol).
  rewrite fillRect1_pixel; [reflexivity | exact Hwf | | exact Huv].
  simpl. eapply cssColor_range. exact Hcol.
Qed.

End CanvasLemmas.

(** ** [getImageData] and [putImageData] *)

Section ImageDataLemmas.

Lemma elem_getImageData c sx sy sw sh u v k :
  0 <= u < sw -> 0 <= v < sh -> 0 <= k < 4 ->
  elem (data (getImageData c sx sy sw sh)) (offset sw u v + k) =
    Some (if inCanvas c (sx + u) (sy + v)
          then default 0 (elem (canvas_data c)
                            (offset (canvas_width c) (sx + u) (sy + v) + k))
          else 0).
Proof.
  intros Hu Hv Hk.
  pose proof (offset_range sw ltac:(lia) sh u v k Hu Hv Hk) as Hr.
  rewrite elem_lookup by lia. simpl data.
  rewrite list_lookup_fmap, lookup_seq_lt by lia. simpl.
  rewrite Z2Nat.id by lia.
  rewrite (offset_div4 sw u v k Hk), (offset_mod4 sw u v k Hk).
  rewrite (pixel_mod sw u v Hu), (pixel_div sw u v Hu). reflexivity.
Qed.

Lemma length_getImageData c sx sy sw sh :
  length (data (getImageData c sx sy sw sh)) = Z.to_nat (sw * sh * 4).
Proof. simpl. rewrite length_map, length_seq. reflexivity. Qed.

(** A snapshot of a well-formed canvas is its backing store. *)
Lemma snapshot_data c : wf_canvas c -> data (snapshot c) = canvas_data c.
Proof.
  intros (Hw & Hh & Hlen). apply list_eq. intros n.
  unfold snapshot. simpl data.
  destruct (decide (n < length (canvas_data c))%nat) as [Hn|Hn].
  - rewrite list_lookup_fmap, lookup_seq_lt by lia. simpl.
    destruct (offset_decompose (canvas_width c) Hw (Z.of_nat n) ltac:(lia))
      as (Hi & Hx & Hy & Hk).
    pose proof (offset_row_bound (canvas_width c) Hw (canvas_height c) (Z.of_nat n)
                  ltac:(lia)) as Hrow.
    rewrite !Z.add_0_l.
    replace (inCanvas c _ _) with true
      by (symmetry; apply inCanvas_spec; lia).
    rewrite <- Hi. rewrite elem_lookup by lia. rewrite Nat2Z.id.
    destruct (lookup_lt_is_Some_2 (canvas_data c) n Hn) as [b Hb].
    rewrite Hb. reflexivity.
  - rewrite (lookup_ge_None_2 (canvas_data c)) by lia.
    apply lookup_ge_None_2. rewrite length_map, length_seq. lia.
Qed.

Lemma putImageData_dims c img dx dy :
  canvas_width (putImageData c img dx dy) = canvas_width c /\
  canvas_height (putImageData c img dx dy) = canvas_height c /\
  fillStyle (putImageData c img dx dy) = fillStyle c.
Proof. auto. Qed.

Lemma putImageData_wf c img dx dy :
  wf_canvas c -> wf_canvas (putImageData c img dx dy).
Proof.
  unfold wf_canvas. simpl. rewrite length_imap. auto.
Qed.

Lemma elem_putImageData c img dx dy x y k :
  wf_canvas c -> inCanvas c x y = true -> 0 <= k < 4 ->
  elem (canvas_data (putImageData c img dx dy)) (offset (canvas_width c) x y + k) =
    (fun old =>
       if (0 <=? x - dx) && (x - dx <? width img)
          && (0 <=? y - dy) && (y - dy <? height img)
       then default old (elem (data img) (offset (width img) (x - dx) (y - dy) + k))
       else old)
    <$> elem (canvas_data c) (offset (canvas_width c) x y + k).
Proof.
  intros Hwf Hin Hk.
  pose proof (canvas_offset_range c x y k Hwf Hin Hk) as Hr.
  destruct Hwf as (Hw & Hh & Hlen). apply inCanvas_spec in Hin.
  rewrite (elem_lookup (canvas_data c)) by lia.
  rewrite elem_lookup by lia. simpl canvas_data.
  rewrite list_lookup_imap. rewrite Z2Nat.id by lia.
  rewrite (offset_div4 _ x y k Hk), (offset_mod4 _ x y k Hk).
  rewrite (pixel_mod _ x y) by lia. rewrite (pixel_div _ x y) by lia.
  reflexivity.
Qed.

(** Putting back a full-size image at the origin replaces the store. *)
Lemma putImageData_full c img :
  wf_canvas c ->
  width img = canvas_width c -> height img = canvas_height c ->
  length (data img) = length (canvas_data c) ->
  canvas_data (putImageData c img 0 0) = data img.
Proof.
  intros (Hw & Hh & Hlen) Hiw Hih Hil. apply list_eq. intros n.
  simpl canvas_data. rewrite list_lookup_imap.
  destruct (decide (n < length (canvas_data c))%nat) as [Hn|Hn].
  - destruct (lookup_lt_is_Some_2 (canvas_data c) n Hn) as [b Hb].
    destruct (lookup_lt_is_Some_2 (data img) n ltac:(lia)) as [b' Hb'].
    rewrite Hb, Hb'. simpl. f_equal.
    destruct (offset_decompose (canvas_width c) Hw (Z.of_nat n) ltac:(lia))
      as (Hi & Hx & Hy & Hk).
    pose proof (offset_row_bound (canvas_width c) Hw (canvas_height c) (Z.of_nat n)
                  ltac:(lia)) as Hrow.
    rewrite !Z.sub_0_r, Hiw, Hih.
    replace ((0 <=? _) && _ && _ && _) with true
      by (symmetry; rewrite !andb_true_iff, !Z.leb_le, !Z.ltb_lt; lia).
    rewrite <- Hi. rewrite elem_lookup by lia. rewrite Nat2Z.id, Hb'. reflexivity.
  - rewrite (lookup_ge_None_2 (canvas_data c)) by lia.
    rewrite (lookup_ge_None_2 (data img)) by lia. reflexivity.
Qed.

End ImageDataLemmas.

(** ** Flood fill: the loop *)

Section Counting.

Lemma countb_ext P P' l :
  (forall k, In k l -> P' k = P k) -> countb P' l = countb P l.
Proof.
  induction l as [|a l IH]; intros H; [reflexivity|].
  simpl. rewrite (H a) by (left; reflexivity).
  rewrite IH; [reflexivity|]. intros k Hk. apply H. right. exact Hk.
Qed.

(** Switching off one index of a range lowers the count by one. *)
Lemma countb_switch_off P P' k0 n : forall start,
  (start <= k0 < start + n)%nat ->
  P k0 = true -> P' k0 = false -> (forall k, k <> k0 -> P' k = P k) ->
  (countb P' (seq start n) + 1 = countb P (seq start n))%nat.
Proof.
  induction n as [|n IH]; intros start Hr Ht Hf Ho; [lia|].
  simpl. destruct (Nat.eq_dec start k0) as [->|Hne].
  - rewrite Ht, Hf.
    rewrite (countb_ext P P' (seq (S k0) n)); [lia|].
    intros k Hk. apply in_seq in Hk. apply Ho. lia.
  - rewrite (Ho start Hne). rewrite <- (IH (S start)); [lia | lia | assumption..].
Qed.

End Counting.

Section FloodFillLoop.

Variables (w h : Z).
Hypothesis Hw : 0 < w.

Lemma floodFill_loop_step fuel t f d p stack :
  floodFill_loop (S fuel) w h t f d (p :: stack) =
    if (px p <? 0) || (px p >=? w) || (py p <? 0) || (py p >=? h)
    then floodFill_loop fuel w h t f d stack
    else if matchesRGB d (offset w (px p) (py p)) t
         then floodFill_loop fuel w h t f
                (writeRGB d (offset w (px p) (py p)) f) (neighbours p ++ stack)
         else floodFill_loop fuel w h t f d stack.
Proof. reflexivity. Qed.

Lemma guard_inside p :
  (px p <? 0) || (px p >=? w) || (py p <? 0) || (py p >=? h) = false
  <-> inside w h p.
Proof.
  unfold inside. rewrite !orb_false_iff, !Z.geb_leb, !Z.ltb_ge, !Z.leb_gt. lia.
Qed.

Lemma guard_outside p :
  (px p <? 0) || (px p >=? w) || (py p <? 0) || (py p >=? h) = true
  <-> ~ inside w h p.
Proof.
  rewrite <- guard_inside. destruct (_ || _); split; congruence.
Qed.

Lemma adjacent_sym p q : adjacent p q -> adjacent q p.
Proof. unfold adjacent. lia. Qed.

Lemma adjacent_neighbours p q : adjacent p q -> In q (neighbours p).
Proof.
  destruct p as [x y], q as [x' y']. unfold adjacent, neighbours. simpl.
  intros [[-> [->| ->]]|[-> [->| ->]]]; auto.
Qed.

Lemma neighbours_adjacent p q : In q (neighbours p) -> adjacent p q.
Proof.
  unfold neighbours, adjacent. simpl.
  intros [<-|[<-|[<-|[<-|[]]]]]; simpl; lia.
Qed.

Lemma strict_eq_true a v : strict_eq a v = true -> a = Some v.
Proof.
  destruct a as [u|]; simpl; [|discriminate]. intros H. zbool. congruence.
Qed.

Lemma matchesRGB_elems d i c :
  matchesRGB d i c = true ->
  elem d i = Some (red c) /\ elem d (i + 1) = Some (green c)
  /\ elem d (i + 2) = Some (blue c).
Proof.
  unfold matchesRGB. intros H. zbool. auto using strict_eq_true.
Qed.

Lemma matchesRGB_ext d d' i c :
  (forall k, 0 <= k < 3 -> elem d' (i + k) = elem d (i + k)) ->
  matchesRGB d' i c = matchesRGB d i c.
Proof.
  intros H. unfold matchesRGB.
  pose proof (H 0 ltac:(lia)) as H0. rewrite !Z.add_0_r in H0.
  rewrite H0, (H 1), (H 2) by lia. reflexivity.
Qed.

(** Writing the colour a pixel already has leaves the array as it is. *)
Lemma writeRGB_same d i c :
  byteRGB c -> matchesRGB d i c = true -> writeRGB d i c = d.
Proof.
  intros (Hr & Hg & Hb) H. apply matchesRGB_elems in H as (H0 & H1 & H2).
  unfold writeRGB. rewrite (store8_same d i) by assumption.
  rewrite (store8_same d (i + 1)) by assumption.
  apply store8_same; assumption.
Qed.

(** After a different colour has been written the pixel no longer
    matches. *)
Lemma matchesRGB_written d i t f :
  0 <= i -> i + 2 < Z.of_nat (length d) -> byteRGB f -> t <> f ->
  matchesRGB (writeRGB d i f) i t = false.
Proof.
  intros Hi Hl (Hr & Hg & Hb) Hne.
  destruct (matchesRGB (writeRGB d i f) i t) eqn:E; [|reflexivity].
  apply matchesRGB_elems in E as (E0 & E1 & E2).
  rewrite elem_writeRGB in E0, E1, E2 by assumption.
  rewrite Z.eqb_refl in E0.
  replace (i + 1 =? i) with false in E1 by (symmetry; apply Z.eqb_neq; lia).
  rewrite Z.eqb_refl in E1.
  replace (i + 2 =? i) with false in E2 by (symmetry; apply Z.eqb_neq; lia).
  replace (i + 2 =? i + 1) with false in E2 by (symmetry; apply Z.eqb_neq; lia).
  rewrite Z.eqb_refl in E2.
  rewrite clamp8_byte in E0, E1, E2 by assumption.
  exfalso. apply Hne. destruct t, f. simpl in *. congruence.
Qed.

Lemma inside_offset_range (d : list Z) p k :
  Z.of_nat (length d) = w * h * 4 -> inside w h p -> 0 <= k < 4 ->
  0 <= offset w (px p) (py p) + k < Z.of_nat (length d).
Proof.
  intros Hl [Hx Hy] Hk. rewrite Hl. apply offset_range; assumption.
Qed.

(** *** Frame *)

Section Frame.

Variables (t f : RGB) (d0 : list Z) (seed : Point).
Hypothesis Hlen0 : Z.of_nat (length d0) = w * h * 4.

Lemma frame_inv_region d p :
  frame_inv w h t d0 seed d -> stack_inv w h t d0 seed [p] -> inside w h p -> hasRGB w d t p ->
  region w h d0 t seed p.
Proof.
  intros [_ Hf] Hs Hin Hm.
  destruct (Hf p Hin) as [Hr|Heq]; [exact Hr|].
  apply Hs; [left; reflexivity | exact Hin |].
  unfold hasRGB in *. rewrite <- Hm. symmetry.
  apply matchesRGB_ext. intros k Hk. apply Heq. lia.
Qed.

Lemma floodFill_loop_frame fuel : forall d stack d',
  frame_inv w h t d0 seed d -> stack_inv w h t d0 seed stack ->
  floodFill_loop fuel w h t f d stack = Some d' -> frame_inv w h t d0 seed d'.
Proof.
  induction fuel as [|fuel IH]; intros d stack d' Hf Hs Hrun.
  - destruct stack; simpl in Hrun; [|discriminate]. congruence.
  - destruct stack as [|p stack]; [simpl in Hrun; congruence|].
    rewrite floodFill_loop_step in Hrun.
    assert (Hs' : stack_inv w h t d0 seed stack)
      by (intros q Hq; apply Hs; right; exact Hq).
    destruct (_ || _) eqn:Hg in Hrun; [exact (IH _ _ _ Hf Hs' Hrun)|].
    apply guard_inside in Hg.
    destruct (matchesRGB d _ t) eqn:Hm in Hrun; [|exact (IH _ _ _ Hf Hs' Hrun)].
    assert (Hp : region w h d0 t seed p).
    { apply (frame_inv_region d); [exact Hf | | exact Hg | exact Hm].
      intros q [<-|[]]. apply Hs. left. reflexivity. }
    refine (IH _ _ _ _ _ Hrun).
    + destruct Hf as [Hl Hf]. split; [rewrite length_writeRGB; exact Hl|].
      intros q Hq. destruct (Hf q Hq) as [Hr|Heq]; [left; exact Hr|].
      destruct (Z.eq_dec (px q) (px p)) as [Ex|Ex];
        [destruct (Z.eq_dec (py q) (py p)) as [Ey|Ey]|].
      * left. destruct p, q. simpl in *. subst. exact Hp.
      * right. intros k Hk. rewrite <- (Heq k Hk).
        pose proof (inside_offset_range d p 0 ltac:(lia) Hg ltac:(lia)).
        pose proof (inside_offset_range d p 3 ltac:(lia) Hg ltac:(lia)).
        rewrite elem_writeRGB by lia.
        destruct Hq, Hg.
        assert (Hd : forall k', 0 <= k' < 4 ->
          offset w (px q) (py q) + k <> offset w (px p) (py p) + k').
        { intros k' Hk' E. apply offset_inj in E; lia. }
        pose proof (Hd 0 ltac:(lia)). pose proof (Hd 1 ltac:(lia)).
        pose proof (Hd 2 ltac:(lia)).
        repeat match goal with
               | |- context [?a =? ?b] => destruct (a =? b) eqn:?; zbool; try lia
               end. reflexivity.
      * right. intros k Hk. rewrite <- (Heq k Hk).
        pose proof (inside_offset_range d p 0 ltac:(lia) Hg ltac:(lia)).
        pose proof (inside_offset_range d p 3 ltac:(lia) Hg ltac:(lia)).
        rewrite elem_writeRGB by lia.
        destruct Hq, Hg.
        assert (Hd : forall k', 0 <= k' < 4 ->
          offset w (px q) (py q) + k <> offset w (px p) (py p) + k').
        { intros k' Hk' E. apply offset_inj in E; lia. }
        pose proof (Hd 0 ltac:(lia)). pose proof (Hd 1 ltac:(lia)).
        pose proof (Hd 2 ltac:(lia)).
        repeat match goal with
               | |- context [?a =? ?b] => destruct (a =? b) eqn:?; zbool; try lia
               end. reflexivity.
    + intros q Hq Hin Hcol. apply in_app_or in Hq as [Hq|Hq].
      * apply (region_step w h d0 t seed p q Hp); try assumption.
        apply neighbours_adjacent. exact Hq.
      * apply Hs'; assumption.
Qed.

End Frame.

(** *** Termination when the fill colour differs from the target *)

Section Termination.

Variables (t f : RGB).
Hypothesis Hf : byteRGB f.
Hypothesis Hne : t <> f.

Lemma remaining_written d p :
  Z.of_nat (length d) = w * h * 4 -> inside w h p ->
  matchesRGB d (offset w (px p) (py p)) t = true ->
  (remaining w h t (writeRGB d (offset w (px p) (py p)) f) + 1
   = remaining w h t d)%nat.
Proof.
  intros Hl Hin Hm. unfold remaining.
  pose proof (inside_offset_range d p 0 Hl Hin ltac:(lia)) as R0.
  pose proof (inside_offset_range d p 3 Hl Hin ltac:(lia)) as R3.
  destruct Hin as [Hx Hy].
  assert (Hoff : offset w (px p) (py p) = Z.of_nat (Z.to_nat (py p * w + px p)) * 4).
  { unfold offset. rewrite Z2Nat.id by nia. reflexivity. }
  apply (countb_switch_off _ _ (Z.to_nat (py p * w + px p))).
  - split; [lia|]. simpl. apply Z2Nat.inj_lt; nia.
  - rewrite <- Hoff. exact Hm.
  - rewrite <- Hoff. apply matchesRGB_written; [lia | lia | exact Hf | exact Hne].
  - intros k Hk. apply matchesRGB_ext. intros c Hc.
    rewrite elem_writeRGB by lia. rewrite Hoff.
    repeat match goal with
           | |- context [?a =? ?b] => destruct (a =? b) eqn:?; zbool; try lia
           end. reflexivity.
Qed.

Lemma floodFill_loop_total fuel : forall d stack,
  Z.of_nat (length d) = w * h * 4 ->
  (4 * remaining w h t d + length stack <= fuel)%nat ->
  exists d', floodFill_loop fuel w h t f d stack = Some d'.
Proof.
  induction fuel as [|fuel IH]; intros d stack Hl Hm.
  - destruct stack; [eexists; reflexivity | simpl in Hm; lia].
  - destruct stack as [|p stack]; [eexists; reflexivity|].
    rewrite floodFill_loop_step. simpl length in Hm.
    destruct (_ || _) eqn:Hg; [apply IH; [exact Hl | lia]|].
    apply guard_inside in Hg.
    destruct (matchesRGB d _ t) eqn:Hc; [|apply IH; [exact Hl | lia]].
    apply IH.
    + rewrite length_writeRGB. exact Hl.
    + pose proof (remaining_written d p Hl Hg Hc).
      rewrite length_app. simpl length. lia.
Qed.

End Termination.

(** *** Divergence when the fill colour is the target colour *)

Lemma floodFill_loop_diverges t d fuel : forall stack,
  byteRGB t -> knot w h t d stack ->
  floodFill_loop fuel w h t t d stack = None.
Proof.
  induction fuel as [|fuel IH];
    intros stack Ht (p & q & Hp & Hpin & Hpc & Hadj & Hqin & Hqc).
  - destruct stack; [destruct Hp | reflexivity].
  - destruct stack as [|p0 stack]; [destruct Hp|].
    rewrite floodFill_loop_step.
    destruct (_ || _) eqn:Hg.
    + apply IH; [exact Ht|]. exists p, q.
      split; [|tauto].
      destruct Hp as [->|Hp]; [|exact Hp].
      apply guard_outside in Hg. contradiction.
    + destruct (matchesRGB d _ t) eqn:Hc.
      * rewrite (writeRGB_same d _ t Ht Hc). apply IH; [exact Ht|].
        destruct Hp as [->|Hp].
        -- exists q, p. split; [|pose proof (adjacent_sym _ _ Hadj); tauto].
           apply in_or_app. left. apply adjacent_neighbours. exact Hadj.
        -- exists p, q. split; [|tauto].
           apply in_or_app. right. exact Hp.
      * apply IH; [exact Ht|]. exists p, q. split; [|tauto].
        destruct Hp as [->|Hp]; [|exact Hp].
        unfold hasRGB in Hpc. congruence.
Qed.

End FloodFillLoop.

(** ** Flood fill: the function *)

Section FloodFill.

Lemma floodFill_same_string fuel c x y color :
  floodFill fuel c x y color color = Some c.
Proof. unfold floodFill. rewrite String.eqb_refl. reflexivity. Qed.

Lemma floodFill_unfold fuel c x y targetColor fillColor t f :
  String.eqb targetColor fillColor = false ->
  hexToRgb targetColor = Some t -> hexToRgb fillColor = Some f ->
  floodFill fuel c x y targetColor fillColor =
    match floodFill_loop fuel (canvas_width c) (canvas_height c) t f
            (data (snapshot c)) [mkPoint x y] with
    | Some d => Some (putImageData c
                        (mkImageData (canvas_width c) (canvas_height c) d) 0 0)
    | None => None
    end.
Proof.
  intros He Ht Hf. unfold floodFill. rewrite He, Ht, Hf. reflexivity.
Qed.

Lemma floodFill_frame_pixels c x y targetColor fillColor fuel c' :
  wf_canvas c ->
  floodFill fuel c x y targetColor fillColor = Some c' ->
  canvas_width c' = canvas_width c /\ canvas_height c' = canvas_height c /\
  forall u v, inCanvas c u v = true ->
    ~ fillRegion c targetColor (mkPoint x y) (mkPoint u v) ->
    canvasPixel c' u v = canvasPixel c u v.
Proof.
  intros Hwf Hrun.
  destruct (String.eqb targetColor fillColor) eqn:He.
  { unfold floodFill in Hrun. rewrite He in Hrun. injection Hrun as <-. auto. }
  destruct (hexToRgb targetColor) as [t|] eqn:Ht;
    [|unfold floodFill in Hrun; rewrite He, Ht in Hrun; injection Hrun as <-; auto].
  destruct (hexToRgb fillColor) as [f|] eqn:Hf;
    [|unfold floodFill in Hrun; rewrite He, Ht, Hf in Hrun; injection Hrun as <-; auto].
  rewrite (floodFill_unfold _ _ _ _ _ _ t f He Ht Hf) in Hrun.
  rewrite (snapshot_data c Hwf) in Hrun.
  destruct (floodFill_loop _ _ _ _ _ _ _) as [d|] eqn:Hloop; [|discriminate].
  injection Hrun as <-.
  pose proof Hwf as (Hw & Hh & Hlen).
  assert (Hinv : frame_inv (canvas_width c) (canvas_height c) t (canvas_data c)
                   (mkPoint x y) d).
  { apply (floodFill_loop_frame _ _ Hw t f (canvas_data c) (mkPoint x y) Hlen fuel
             (canvas_data c) [mkPoint x y] d); [| |exact Hloop].
    - split; [reflexivity|]. intros p Hp. right. reflexivity.
    - intros p [<-|[]] Hin Hcol. apply region_seed; assumption. }
  destruct Hinv as [Hl Hinv].
  split; [reflexivity|]. split; [reflexivity|].
  intros u v Huv Hout. unfold canvasPixel.
  rewrite putImageData_full; [| exact Hwf | reflexivity | reflexivity | exact Hl].
  simpl data. simpl canvas_width.
  apply inCanvas_spec in Huv.
  destruct (Hinv (mkPoint u v) Huv) as [Hr|Heq].
  - exfalso. apply Hout. exists t. auto.
  - apply pixelAt_ext. exact Heq.
Qed.

Lemma floodFill_total c x y targetColor fillColor :
  wf_canvas c ->
  targetColor = fillColor \/ hexToRgb targetColor <> hexToRgb fillColor ->
  exists fuel c', floodFill fuel c x y targetColor fillColor = Some c'.
Proof.
  intros Hwf [->|Hne].
  { exists 0%nat, c. apply floodFill_same_string. }
  destruct (String.eqb targetColor fillColor) eqn:He.
  { exists 0%nat, c. unfold floodFill. rewrite He. reflexivity. }
  destruct (hexToRgb targetColor) as [t|] eqn:Ht;
    [|exists 0%nat, c; unfold floodFill; rewrite He, Ht; reflexivity].
  destruct (hexToRgb fillColor) as [f|] eqn:Hf;
    [|exists 0%nat, c; unfold floodFill; rewrite He, Ht, Hf; reflexivity].
  pose proof Hwf as (Hw & Hh & Hlen).
  set (fuel := (4 * remaining (canvas_width c) (canvas_height c) t (canvas_data c) + 1)%nat).
  destruct (floodFill_loop_total (canvas_width c) (canvas_height c) Hw t f
              (hexToRgb_range _ _ Hf) ltac:(congruence) fuel
              (canvas_data c) [mkPoint x y] Hlen) as [d Hd].
  { subst fuel. simpl length. lia. }
  exists fuel. eexists.
  rewrite (floodFill_unfold _ _ _ _ _ _ t f He Ht Hf).
  rewrite (snapshot_data c Hwf), Hd. reflexivity.
Qed.

(** Two spellings of one colour: the guard on the strings does not
    fire, and the loop never empties its stack. *)
Lemma floodFill_diverges c x y targetColor fillColor t :
  wf_canvas c ->
  String.eqb targetColor fillColor = false ->
  hexToRgb targetColor = Some t -> hexToRgb fillColor = Some t ->
  knot (canvas_width c) (canvas_height c) t (canvas_data c) [mkPoint x y] ->
  forall fuel, floodFill fuel c x y targetColor fillColor = None.
Proof.
  intros Hwf He Ht Hf Hk fuel.
  rewrite (floodFill_unfold _ _ _ _ _ _ t t He Ht Hf).
  rewrite (snapshot_data c Hwf).
  rewrite (floodFill_loop_diverges _ _ t (canvas_data c) fuel
             [mkPoint x y] (hexToRgb_range _ _ Ht) Hk).
  reflexivity.
Qed.

Lemma whiteCanvas_wf : wf_canvas whiteCanvas.
Proof.
  unfold wf_canvas. repeat split; try reflexivity.
Qed.

Lemma twoRedPixels_wf : wf_canvas twoRedPixels.
Proof. unfold twoRedPixels. apply drawPixel_wf, drawPixel_wf, whiteCanvas_wf. Qed.

End FloodFill.

Section Regions.

(** Every pixel of a region has the target colour. *)
Lemma region_hasRGB w h d t seed p : region w h d t seed p -> hasRGB w d t p.
Proof. intros H. destruct H; assumption. Qed.

Lemma region_inside w h d t seed p : region w h d t seed p -> inside w h p.
Proof. intros H. destruct H; assumption. Qed.

End Regions.

(** ** Flood fill: the whole region is filled *)

Section FloodFillComplete.

Variables (w h : Z) (t f : RGB) (d0 : list Z) (seed : Point).
Hypothesis Hw : 0 < w.
Hypothesis Hlen0 : Z.of_nat (length d0) = w * h * 4.
Hypothesis Hf : byteRGB f.
Hypothesis Hne : t <> f.

Lemma point_eq_dec (p q : Point) : {p = q} + {p <> q}.
Proof.
  destruct p as [x y], q as [x' y'].
  destruct (Z.eq_dec x x') as [->|Hx]; [|right; congruence].
  destruct (Z.eq_dec y y') as [->|Hy]; [left; reflexivity | right; congruence].
Qed.

(** A pixel has one colour. *)
Lemma hasRGB_unique (d : list Z) a b p : hasRGB w d a p -> hasRGB w d b p -> a = b.
Proof.
  unfold hasRGB. intros Ha Hb.
  apply matchesRGB_elems in Ha as (A0 & A1 & A2).
  apply matchesRGB_elems in Hb as (B0 & B1 & B2).
  destruct a, b. simpl in *. congruence.
Qed.

Lemma hasRGB_ext (d d' : list Z) c p :
  (forall k, 0 <= k < 4 ->
     elem d' (offset w (px p) (py p) + k) = elem d (offset w (px p) (py p) + k)) ->
  hasRGB w d' c p <-> hasRGB w d c p.
Proof.
  intros H. unfold hasRGB.
  rewrite (matchesRGB_ext d d') by (intros k Hk; apply H; lia). reflexivity.
Qed.

Lemma matchesRGB_written_same (d : list Z) i :
  0 <= i -> i + 2 < Z.of_nat (length d) -> matchesRGB (writeRGB d i f) i f = true.
Proof.
  intros Hi Hl. destruct Hf as (Hr & Hg & Hb). unfold matchesRGB.
  rewrite !elem_writeRGB by assumption.
  rewrite Z.eqb_refl.
  replace (i + 1 =? i) with false by (symmetry; apply Z.eqb_neq; lia).
  rewrite Z.eqb_refl.
  replace (i + 2 =? i) with false by (symmetry; apply Z.eqb_neq; lia).
  replace (i + 2 =? i + 1) with false by (symmetry; apply Z.eqb_neq; lia).
  rewrite Z.eqb_refl. rewrite !clamp8_byte by assumption.
  simpl. rewrite !Z.eqb_refl. reflexivity.
Qed.

(** Writing the colour of one pixel leaves the bytes of the other pixels,
    and its own alpha, alone. *)
Lemma elem_writeRGB_other (d : list Z) p q k c :
  Z.of_nat (length d) = w * h * 4 -> inside w h p -> inside w h q -> p <> q ->
  0 <= k < 4 ->
  elem (writeRGB d (offset w (px p) (py p)) c) (offset w (px q) (py q) + k)
  = elem d (offset w (px q) (py q) + k).
Proof.
  intros Hl Hp Hq Hpq Hk.
  pose proof (inside_offset_range w h Hw d p 0 Hl Hp ltac:(lia)).
  pose proof (inside_offset_range w h Hw d p 3 Hl Hp ltac:(lia)).
  rewrite elem_writeRGB by lia.
  assert (Hd : forall k', 0 <= k' < 4 ->
            offset w (px q) (py q) + k <> offset w (px p) (py p) + k').
  { intros k' Hk' E. destruct Hp, Hq.
    apply offset_inj in E; try lia.
    apply Hpq. destruct p, q. simpl in *. f_equal; lia. }
  pose proof (Hd 0 ltac:(lia)). pose proof (Hd 1 ltac:(lia)).
  pose proof (Hd 2 ltac:(lia)).
  repeat match goal with
         | |- context [?a =? ?b] => destruct (a =? b) eqn:?; zbool; try lia
         end. reflexivity.
Qed.

Lemma elem_writeRGB_alpha (d : list Z) p c :
  Z.of_nat (length d) = w * h * 4 -> inside w h p ->
  elem (writeRGB d (offset w (px p) (py p)) c) (offset w (px p) (py p) + 3)
  = elem d (offset w (px p) (py p) + 3).
Proof.
  intros Hl Hp.
  pose proof (inside_offset_range w h Hw d p 0 Hl Hp ltac:(lia)).
  pose proof (inside_offset_range w h Hw d p 3 Hl Hp ltac:(lia)).
  rewrite elem_writeRGB by lia.
  repeat match goal with
         | |- context [?a =? ?b] => destruct (a =? b) eqn:?; zbool; try lia
         end. reflexivity.
Qed.

Lemma fill_inv_start : fill_inv w h t f d0 seed d0 [seed].
Proof.
  split; [reflexivity|]. split; [intros p Hp; left; reflexivity|].
  split; [intros _ _; right; left; reflexivity|].
  intros p q Hp Hfp. exfalso. apply Hne. symmetry.
  exact (hasRGB_unique d0 f t p Hfp (region_hasRGB _ _ _ _ _ _ Hp)).
Qed.

Lemma fill_inv_write d p0 stack :
  fill_inv w h t f d0 seed d (p0 :: stack) -> inside w h p0 ->
  fill_inv w h t f d0 seed (writeRGB d (offset w (px p0) (py p0)) f)
    (neighbours p0 ++ stack).
Proof.
  intros (Hl & Hb & Hseed & Hadj) Hp0.
  assert (Hlen : Z.of_nat (length d) = w * h * 4) by (rewrite Hl; exact Hlen0).
  pose proof (inside_offset_range w h Hw d p0 0 Hlen Hp0 ltac:(lia)) as R0.
  pose proof (inside_offset_range w h Hw d p0 3 Hlen Hp0 ltac:(lia)) as R3.
  set (d1 := writeRGB d (offset w (px p0) (py p0)) f).
  assert (F1 : hasRGB w d1 f p0)
    by (apply matchesRGB_written_same; lia).
  assert (F2 : forall q, inside w h q -> q <> p0 -> forall k, 0 <= k < 4 ->
            elem d1 (offset w (px q) (py q) + k) = elem d (offset w (px q) (py q) + k)).
  { intros q Hq Hqp k Hk. apply elem_writeRGB_other; auto. }
  assert (F4 : forall q, inside w h q -> hasRGB w d f q -> hasRGB w d1 f q).
  { intros q Hq Hc. destruct (point_eq_dec q p0) as [->|Hqp]; [exact F1|].
    apply (hasRGB_ext d d1); [apply F2; assumption | exact Hc]. }
  assert (F5 : forall q, inside w h q -> q <> p0 -> hasRGB w d1 f q -> hasRGB w d f q).
  { intros q Hq Hqp Hc. apply (hasRGB_ext d d1); [apply F2; assumption | exact Hc]. }
  split; [unfold d1; rewrite length_writeRGB; exact Hl|].
  split; [|split].
  - intros q Hq. destruct (point_eq_dec q p0) as [->|Hqp].
    + right. split; [exact F1|].
      unfold d1. rewrite elem_writeRGB_alpha by assumption.
      destruct (Hb p0 Hp0) as [Heq|[_ Ha]]; [apply Heq; lia | exact Ha].
    + destruct (Hb q Hq) as [Heq|[Hc Ha]].
      * left. intros k Hk. rewrite F2 by assumption. apply Heq, Hk.
      * right. split; [apply F4; assumption|].
        rewrite F2 by (try assumption; lia). exact Ha.
  - intros Hin Hcol. destruct (Hseed Hin Hcol) as [Hc|[<-|Hs]].
    + left. apply F4; assumption.
    + left. exact F1.
    + right. apply in_or_app. right. exact Hs.
  - intros p q Hp Hfp Ha Hq Hcq.
    destruct (point_eq_dec p p0) as [->|Hpp].
    + right. apply in_or_app. left. apply adjacent_neighbours. exact Ha.
    + pose proof (region_inside _ _ _ _ _ _ Hp) as Hpin.
      destruct (Hadj p q Hp (F5 p Hpin Hpp Hfp) Ha Hq Hcq) as [Hc|[<-|Hs]].
      * left. apply F4; assumption.
      * left. exact F1.
      * right. apply in_or_app. right. exact Hs.
Qed.

(** Dropping a point that is off the grid, or whose pixel no longer has
    the target colour, loses nothing. *)
Lemma fill_inv_skip d p0 stack :
  fill_inv w h t f d0 seed d (p0 :: stack) ->
  (inside w h p0 -> ~ hasRGB w d t p0) ->
  fill_inv w h t f d0 seed d stack.
Proof.
  intros (Hl & Hb & Hseed & Hadj) Hskip.
  assert (Hdone : inside w h p0 -> hasRGB w d0 t p0 -> hasRGB w d f p0).
  { intros Hin Hc. destruct (Hb p0 Hin) as [Heq|[Hfilled _]]; [|exact Hfilled].
    exfalso. apply (Hskip Hin). apply (hasRGB_ext d0 d); assumption. }
  split; [exact Hl|]. split; [exact Hb|]. split.
  - intros Hin Hcol. destruct (Hseed Hin Hcol) as [Hc|[<-|Hs]]; auto.
  - intros p q Hp Hfp Ha Hq Hcq.
    destruct (Hadj p q Hp Hfp Ha Hq Hcq) as [Hc|[<-|Hs]]; auto.
Qed.

Lemma floodFill_loop_fills fuel : forall d stack d',
  fill_inv w h t f d0 seed d stack ->
  floodFill_loop fuel w h t f d stack = Some d' ->
  fill_inv w h t f d0 seed d' [].
Proof.
  induction fuel as [|fuel IH]; intros d stack d' Hinv Hrun.
  - destruct stack; simpl in Hrun; [|discriminate]. injection Hrun as <-. exact Hinv.
  - destruct stack as [|p0 stack];
      [simpl in Hrun; injection Hrun as <-; exact Hinv|].
    rewrite floodFill_loop_step in Hrun.
    destruct (_ || _) eqn:Hg in Hrun.
    + apply guard_outside in Hg. apply (IH d stack d'); [|exact Hrun].
      apply (fill_inv_skip d p0); [exact Hinv|]. intros Hin. contradiction.
    + apply guard_inside in Hg.
      destruct (matchesRGB d _ t) eqn:Hm in Hrun.
      * apply (IH _ _ d' (fill_inv_write d p0 stack Hinv Hg) Hrun).
      * apply (IH d stack d'); [|exact Hrun].
        apply (fill_inv_skip d p0); [exact Hinv|].
        intros _ Hc. unfold hasRGB in Hc. congruence.
Qed.

(** With the stack empty, the invariant says that the region is filled. *)
Lemma fill_inv_done d p :
  fill_inv w h t f d0 seed d [] -> region w h d0 t seed p ->
  hasRGB w d f p /\
  elem d (offset w (px p) (py p) + 3) = elem d0 (offset w (px p) (py p) + 3).
Proof.
  intros (Hl & Hb & Hseed & Hadj) Hp.
  assert (Hc : hasRGB w d f p).
  { induction Hp as [Hin Hcol|p q Hp IHp Ha Hq Hcq].
    - destruct (Hseed Hin Hcol) as [Hc|[]]. exact Hc.
    - destruct (Hadj p q Hp IHp Ha Hq Hcq) as [Hc|[]]. exact Hc. }
  split; [exact Hc|].
  destruct (Hb p (region_inside _ _ _ _ _ _ Hp)) as [Heq|[_ Ha]];
    [apply Heq; lia | exact Ha].
Qed.

End FloodFillComplete.

(** ** Handlers *)

Section Handlers.

Lemma mount_canvas now : canvas (mount now initialState) = whiteCanvas.
Proof. reflexivity. Qed.

Lemma mount_history now :
  history (mount now initialState) = [mkHistoryEntry (snapshot whiteCanvas) now].
Proof. reflexivity. Qed.

(** Below the capacity, and with the index on the last entry, a capture
    appends one entry. *)
Lemma saveToHistory_appends now s :
  historyIndex s = Z.of_nat (length (history s)) - 1 ->
  (length (history s) < 50)%nat ->
  history (saveToHistory now s)
  = history s ++ [mkHistoryEntry (snapshot (canvas s)) now].
Proof.
  intros Hi Hl. rewrite history_saveToHistory.
  rewrite slice_prefix_all by lia.
  rewrite (slice_from_neg _ 50) by lia.
  rewrite length_app. simpl length.
  replace (length (history s) + 1 - Z.to_nat 50)%nat with 0%nat by lia.
  apply drop_0.
Qed.

Lemma handleMouseDown_fill fuel now s event :
  activeTool s = fill ->
  handleMouseDown fuel now s event =
    let point := getPixelCoords s event in
    match floodFill fuel (canvas s) (px point) (py point)
            (getPixelColor (canvas s) (px point) (py point)) (foregroundColor s) with
    | Some c =>
        Some (saveCanvas (saveToHistory now
                (set_canvas (setIsDrawing (setCurrentPoint (setStartPoint s point) point)
                               true) c)))
    | None => None
    end.
Proof.
  intros Ht. unfold handleMouseDown. simpl activeTool. rewrite Ht. reflexivity.
Qed.

(** A release while [isDrawing] is set, with a tool that draws nothing
    on release: the flag is cleared and the canvas is captured. *)
Lemma handleMouseUp_captures fuel now s event :
  isDrawing s = true ->
  activeTool s <> line -> activeTool s <> rectangle -> activeTool s <> circle ->
  handleMouseUp fuel now s event
  = Some (saveCanvas (saveToHistory now (setIsDrawing (set_canvas s (canvas s)) false))).
Proof.
  intros Hd Hl Hr Hc. unfold handleMouseUp. rewrite Hd. simpl negb. cbv iota.
  destruct (activeTool s); try congruence; reflexivity.
Qed.

Lemma getPixelCoords_eventAt s x y :
  zoom s = 8 -> 0 <= x < 32 -> 0 <= y < 32 ->
  getPixelCoords s (eventAt x y) = mkPoint x y.
Proof.
  intros Hz Hx Hy. unfold getPixelCoords, eventAt. simpl. rewrite Hz.
  rewrite !Z.sub_0_r.
  rewrite <- (Z.div_unique_pos (8 * x + 3) 8 x 3) by lia.
  rewrite <- (Z.div_unique_pos (8 * y + 3) 8 y 3) by lia.
  f_equal; lia.
Qed.

(** A click of the pencil draws one pixel in the foreground colour. *)
Lemma click_pencil fuel now s x y :
  activeTool s = pencil -> zoom s = 8 -> 0 <= x < 32 -> 0 <= y < 32 ->
  exists s',
    click fuel now s x y = Some s' /\
    canvas s' = drawPixel (canvas s) x y (foregroundColor s) /\
    activeTool s' = pencil /\ zoom s' = 8 /\
    foregroundColor s' = foregroundColor s.
Proof.
  intros Ht Hz Hx Hy. unfold click, handleMouseDown.
  rewrite (getPixelCoords_eventAt s x y Hz Hx Hy).
  cbv zeta. simpl activeTool. rewrite Ht. simpl px. simpl py.
  rewrite handleMouseUp_captures; try (simpl activeTool; rewrite Ht; discriminate);
    [|reflexivity].
  eexists. split; [reflexivity|]. simpl. auto.
Qed.

(** The state the red stroke leaves behind. *)
Lemma redStroke_state :
  exists s, redStroke = Some s /\ canvas s = twoRedPixels /\
            foregroundColor s = "#FF0000"%string /\ zoom s = 8.
Proof.
  unfold redStroke.
  destruct (click_pencil 0 1 (setForegroundColor (mount 0 initialState) "#FF0000") 0 0)
    as (s1 & -> & Hc1 & Ht1 & Hz1 & Hf1); [reflexivity | reflexivity | lia | lia |].
  destruct (click_pencil 0 3 s1 1 0 Ht1 Hz1) as (s2 & -> & Hc2 & Ht2 & Hz2 & Hf2);
    [lia | lia |].
  exists s2. split; [reflexivity|].
  rewrite Hf2, Hf1, Hc2, Hc1, Hf1.
  split; [|split; [reflexivity | exact Hz2]].
  unfold twoRedPixels.
  change (canvas (setForegroundColor (mount 0 initialState) "#FF0000"))
    with whiteCanvas.
  change (foregroundColor (setForegroundColor (mount 0 initialState) "#FF0000"))
    with "#FF0000"%string.
  reflexivity.
Qed.

End Handlers.

(** ** Lines *)

Section LineSteps.

Variables (dx dy : Z).

Lemma lineSteps_step fuel a b err :
  lineSteps (S fuel) dx dy a b err =
    if (a =? dx) && (b =? dy) then Some [(a, b)]
    else option_map (cons (a, b))
           (lineSteps fuel dx dy
              (if 2 * err >? - dy then a + 1 else a)
              (if 2 * err <? dx then b + 1 else b)
              ((if 2 * err >? - dy then err - dy else err)
               + (if 2 * err <? dx then dx else 0))).
Proof.
  simpl. destruct ((a =? dx) && (b =? dy)); [reflexivity|].
  destruct (2 * err >? - dy), (2 * err <? dx); rewrite ?Z.add_0_r; reflexivity.
Qed.

(** One iteration away from the end point: the invariant is kept and
    the distance to the end point goes down. *)
Lemma line_inv_step a b err :
  line_inv dx dy a b err -> (a =? dx) && (b =? dy) = false ->
  line_inv dx dy
    (if 2 * err >? - dy then a + 1 else a)
    (if 2 * err <? dx then b + 1 else b)
    ((if 2 * err >? - dy then err - dy else err)
     + (if 2 * err <? dx then dx else 0)) /\
  (dx - (if 2 * err >? - dy then a + 1 else a))
  + (dy - (if 2 * err <? dx then b + 1 else b)) < (dx - a) + (dy - b).
Proof.
  intros (Ha & Hb & He) Hend. unfold line_inv.
  apply andb_false_iff in Hend.
  assert (Hx : a = dx -> 2 * err <= - dy /\ 2 * err < dx).
  { intros ->. assert (b < dy) by (destruct Hend; zbool; lia). nia. }
  assert (Hy : b = dy -> 2 * err >= dx /\ 2 * err > - dy).
  { intros ->. assert (a < dx) by (destruct Hend; zbool; lia). nia. }
  destruct (2 * err >? - dy) eqn:Ex; destruct (2 * err <? dx) eqn:Ey; zbool;
    repeat split; try lia;
    destruct (Z.eq_dec a dx); destruct (Z.eq_dec b dy); try lia; nia.
Qed.

Lemma lineSteps_total fuel : forall a b err,
  line_inv dx dy a b err ->
  (dx - a) + (dy - b) < Z.of_nat fuel ->
  exists l, lineSteps fuel dx dy a b err = Some l /\
            Z.of_nat (length l) <= (dx - a) + (dy - b) + 1 /\
            head l = Some (a, b) /\ last l = Some (dx, dy).
Proof.
  induction fuel as [|fuel IH]; intros a b err Hinv Hfuel.
  - destruct Hinv as (Ha & Hb & _). lia.
  - rewrite lineSteps_step.
    destruct ((a =? dx) && (b =? dy)) eqn:Hend.
    + zbool. subst. eexists. split; [reflexivity|].
      simpl. repeat split; try reflexivity; lia.
    + destruct (line_inv_step a b err Hinv Hend) as [Hinv' Hlt].
      destruct (IH _ _ _ Hinv' ltac:(lia)) as (l & -> & Hlen & Hhd & Hlast).
      eexists. split; [reflexivity|]. simpl length.
      split; [lia|]. split; [reflexivity|].
      destruct l as [|ab l]; [discriminate Hhd|]. exact Hlast.
Qed.

Lemma lineSteps_length fuel : forall a b err l,
  lineSteps fuel dx dy a b err = Some l -> (0 < length l <= fuel)%nat.
Proof.
  induction fuel as [|fuel IH]; intros a b err l H; [discriminate|].
  rewrite lineSteps_step in H.
  destruct ((a =? dx) && (b =? dy)).
  - injection H as <-. simpl. lia.
  - destruct (lineSteps fuel _ _ _ _ _) as [l'|] eqn:E; [|discriminate].
    injection H as <-. apply IH in E. simpl. lia.
Qed.

Lemma lineSteps_more fuel : forall a b err l fuel',
  lineSteps fuel dx dy a b err = Some l -> (fuel <= fuel')%nat ->
  lineSteps fuel' dx dy a b err = Some l.
Proof.
  induction fuel as [|fuel IH]; intros a b err l fuel' H Hle; [discriminate|].
  destruct fuel' as [|fuel']; [lia|].
  rewrite lineSteps_step in *.
  destruct ((a =? dx) && (b =? dy)); [exact H|].
  destruct (lineSteps fuel _ _ _ _ _) as [l'|] eqn:E; [|discriminate].
  rewrite (IH _ _ _ _ fuel' E) by lia. exact H.
Qed.

Lemma lineSteps_range fuel : forall a b err l,
  line_inv dx dy a b err -> lineSteps fuel dx dy a b err = Some l ->
  forall ab, In ab l -> 0 <= fst ab <= dx /\ 0 <= snd ab <= dy.
Proof.
  induction fuel as [|fuel IH]; intros a b err l Hinv H; [discriminate|].
  rewrite lineSteps_step in H.
  pose proof Hinv as (Ha & Hb & _).
  destruct ((a =? dx) && (b =? dy)) eqn:Hend.
  - injection H as <-. intros ab [<-|[]]. simpl. lia.
  - destruct (lineSteps fuel _ _ _ _ _) as [l'|] eqn:E; [|discriminate].
    injection H as <-.
    destruct (line_inv_step a b err Hinv Hend) as [Hinv' _].
    intros ab [<-|Hin]; [simpl; lia|].
    exact (IH _ _ _ _ Hinv' E ab Hin).
Qed.

End LineSteps.

Section LineLoop.

Context {St : Type} (plot : Z -> Z -> St -> St).
Variables (x0 y0 x1 y1 : Z).

(** The loop of [drawLine], started on the line, plots the images of the
    abstract steps one after the other. *)
Lemma drawLine_loop_steps fuel : forall a b err s,
  line_inv (Z.abs (x1 - x0)) (Z.abs (y1 - y0)) a b err ->
  drawLine_loop plot fuel x1 y1 (Z.abs (x1 - x0)) (Z.abs (y1 - y0))
    (if x0 <? x1 then 1 else -1) (if y0 <? y1 then 1 else -1)
    (x0 + (if x0 <? x1 then 1 else -1) * a)
    (y0 + (if y0 <? y1 then 1 else -1) * b) err s
  = option_map
      (fun l => fold_left
                  (fun s ab =>
                     plot (px (stepPoint x0 y0 (if x0 <? x1 then 1 else -1)
                                 (if y0 <? y1 then 1 else -1) ab))
                          (py (stepPoint x0 y0 (if x0 <? x1 then 1 else -1)
                                 (if y0 <? y1 then 1 else -1) ab)) s) l s)
      (lineSteps fuel (Z.abs (x1 - x0)) (Z.abs (y1 - y0)) a b err).
Proof.
  induction fuel as [|fuel IH]; intros a b err s Hinv; [reflexivity|].
  rewrite lineSteps_step. simpl drawLine_loop.
  pose proof Hinv as (Ha & Hb & _).
  assert (Hend : (x0 + (if x0 <? x1 then 1 else -1) * a =? x1)
                 && (y0 + (if y0 <? y1 then 1 else -1) * b =? y1)
                 = (a =? Z.abs (x1 - x0)) && (b =? Z.abs (y1 - y0))).
  { f_equal.
    - destruct (x0 <? x1) eqn:E; zbool;
        destruct (_ =? x1) eqn:E1; destruct (a =? _) eqn:E2; zbool; try reflexivity; lia.
    - destruct (y0 <? y1) eqn:E; zbool;
        destruct (_ =? y1) eqn:E1; destruct (b =? _) eqn:E2; zbool; try reflexivity; lia. }
  rewrite Hend.
  destruct ((a =? Z.abs (x1 - x0)) && (b =? Z.abs (y1 - y0))) eqn:Hat; [reflexivity|].
  destruct (line_inv_step _ _ a b err Hinv Hat) as [Hinv' _].
  specialize (IH (if 2 * err >? - Z.abs (y1 - y0) then a + 1 else a)
                 (if 2 * err <? Z.abs (x1 - x0) then b + 1 else b)
                 _ (plot (x0 + (if x0 <? x1 then 1 else -1) * a)
                         (y0 + (if y0 <? y1 then 1 else -1) * b) s) Hinv').
  set (sx := if x0 <? x1 then 1 else -1) in *.
  set (sy := if y0 <? y1 then 1 else -1) in *.
  destruct (2 * err >? - Z.abs (y1 - y0)); destruct (2 * err <? Z.abs (x1 - x0));
    cbv zeta beta iota;
    rewrite ?Z.add_0_r in IH |- *;
    try replace (x0 + sx * a + sx) with (x0 + sx * (a + 1)) by lia;
    try replace (y0 + sy * b + sy) with (y0 + sy * (b + 1)) by lia;
    rewrite IH;
    destruct (lineSteps fuel _ _ _ _ _); reflexivity.
Qed.

Lemma drawLine_with_steps fuel s :
  drawLine_with plot fuel x0 y0 x1 y1 s
  = option_map
      (fun l => fold_left
                  (fun s ab =>
                     plot (px (stepPoint x0 y0 (if x0 <? x1 then 1 else -1)
                                 (if y0 <? y1 then 1 else -1) ab))
                          (py (stepPoint x0 y0 (if x0 <? x1 then 1 else -1)
                                 (if y0 <? y1 then 1 else -1) ab)) s) l s)
      (lineSteps fuel (Z.abs (x1 - x0)) (Z.abs (y1 - y0)) 0 0
         (Z.abs (x1 - x0) - Z.abs (y1 - y0))).
Proof.
  unfold drawLine_with. cbv zeta.
  rewrite <- drawLine_loop_steps by (unfold line_inv; lia).
  rewrite !Z.mul_0_r, !Z.add_0_r. reflexivity.
Qed.

End LineLoop.

Section LinePaths.

Lemma fold_left_snoc {A B : Type} (g : A -> B) (l : list A) : forall acc,
  fold_left (fun acc a => acc ++ [g a]) l acc = acc ++ map g l.
Proof.
  induction l as [|a l IH]; intros acc; simpl.
  - rewrite app_nil_r. reflexivity.
  - rewrite IH, <- app_assoc. reflexivity.
Qed.

Lemma fold_left_through_map {A B C : Type} (g : A -> B) (f : C -> B -> C)
    (l : list A) : forall c,
  fold_left f (map g l) c = fold_left (fun c a => f c (g a)) l c.
Proof. induction l as [|a l IH]; intros c; simpl; [reflexivity | apply IH]. Qed.

Lemma head_map {A B : Type} (g : A -> B) (l : list A) :
  head (map g l) = option_map g (head l).
Proof. destruct l; reflexivity. Qed.

Lemma last_map {A B : Type} (g : A -> B) (l : list A) :
  last (map g l) = option_map g (last l).
Proof.
  induction l as [|a [|a' l] IH]; [reflexivity | reflexivity |].
  exact IH.
Qed.

Lemma lineSteps_exact dx dy fuel : forall a b err l,
  lineSteps fuel dx dy a b err = Some l ->
  lineSteps (length l) dx dy a b err = Some l.
Proof.
  induction fuel as [|fuel IH]; intros a b err l H; [discriminate|].
  rewrite lineSteps_step in H.
  destruct ((a =? dx) && (b =? dy)) eqn:Hend.
  - injection H as <-. simpl length. rewrite lineSteps_step, Hend. reflexivity.
  - destruct (lineSteps fuel _ _ _ _ _) as [l'|] eqn:E; [|discriminate].
    injection H as <-. simpl length. rewrite lineSteps_step, Hend.
    rewrite (IH _ _ _ _ E). reflexivity.
Qed.

Lemma linePath_steps fuel x0 y0 x1 y1 :
  linePath fuel x0 y0 x1 y1
  = option_map (map (stepPoint x0 y0 (if x0 <? x1 then 1 else -1)
                       (if y0 <? y1 then 1 else -1)))
      (lineSteps fuel (Z.abs (x1 - x0)) (Z.abs (y1 - y0)) 0 0
         (Z.abs (x1 - x0) - Z.abs (y1 - y0))).
Proof.
  unfold linePath. rewrite drawLine_with_steps.
  destruct (lineSteps fuel _ _ _ _ _) as [l|]; [|reflexivity].
  simpl option_map. f_equal.
  transitivity ([] ++ map (stepPoint x0 y0 (if x0 <? x1 then 1 else -1)
                             (if y0 <? y1 then 1 else -1)) l); [|reflexivity].
  exact (fold_left_snoc (stepPoint x0 y0 (if x0 <? x1 then 1 else -1)
                           (if y0 <? y1 then 1 else -1)) l []).
Qed.

Lemma drawLine_steps fuel c x0 y0 x1 y1 color :
  drawLine fuel c x0 y0 x1 y1 color
  = option_map
      (fun l => fold_left (fun c p => drawPixel c (px p) (py p) color)
                  (map (stepPoint x0 y0 (if x0 <? x1 then 1 else -1)
                          (if y0 <? y1 then 1 else -1)) l) c)
      (lineSteps fuel (Z.abs (x1 - x0)) (Z.abs (y1 - y0)) 0 0
         (Z.abs (x1 - x0) - Z.abs (y1 - y0))).
Proof.
  unfold drawLine. rewrite drawLine_with_steps.
  destruct (lineSteps fuel _ _ _ _ _) as [l|]; [|reflexivity].
  simpl option_map. f_equal. symmetry. apply fold_left_through_map.
Qed.

(** The last step is the end point. *)
Lemma stepPoint_end x0 y0 x1 y1 :
  stepPoint x0 y0 (if x0 <? x1 then 1 else -1) (if y0 <? y1 then 1 else -1)
    (Z.abs (x1 - x0), Z.abs (y1 - y0)) = mkPoint x1 y1.
Proof.
  unfold stepPoint. simpl fst. simpl snd.
  destruct (x0 <? x1) eqn:Ex; destruct (y0 <? y1) eqn:Ey; zbool; f_equal; lia.
Qed.

(** Seen from the other end, a step is the reflection of the same step. *)
Lemma stepPoint_reflect x0 y0 x1 y1 ab :
  0 <= fst ab <= Z.abs (x1 - x0) -> 0 <= snd ab <= Z.abs (y1 - y0) ->
  stepPoint x1 y1 (if x1 <? x0 then 1 else -1) (if y1 <? y0 then 1 else -1) ab
  = reflect x0 y0 x1 y1
      (stepPoint x0 y0 (if x0 <? x1 then 1 else -1) (if y0 <? y1 then 1 else -1) ab).
Proof.
  intros Ha Hb. unfold stepPoint, reflect. simpl px. simpl py.
  destruct (x0 <? x1) eqn:E1; destruct (x1 <? x0) eqn:E2;
    destruct (y0 <? y1) eqn:E3; destruct (y1 <? y0) eqn:E4; zbool;
    f_equal; lia.
Qed.

End LinePaths.

(** ** Painting lists of pixels *)

Section Painting.

Lemma in_zrange lo hi i : In i (zrange lo hi) <-> lo <= i <= hi.
Proof.
  unfold zrange. rewrite in_map_iff. split.
  - intros (n & <- & Hn). apply in_seq in Hn. lia.
  - intros Hi. exists (Z.to_nat (i - lo)). split; [lia|].
    apply in_seq. lia.
Qed.

Lemma square_le_bound a r : 0 <= r -> a * a <= r * r -> - r <= a <= r.
Proof.
  intros Hr H. split.
  - destruct (Z_lt_le_dec a (- r)) as [Hlt|]; [exfalso|assumption]. nia.
  - destruct (Z_lt_le_dec r a) as [Hlt|]; [exfalso|assumption]. nia.
Qed.

Lemma paint_app color ps qs c :
  paint color (ps ++ qs) c = paint color qs (paint color ps c).
Proof. unfold paint. apply fold_left_app. Qed.

Lemma paint_wf color ps : forall c, wf_canvas c -> wf_canvas (paint color ps c).
Proof.
  induction ps as [|p ps IH]; intros c Hwf; [exact Hwf|].
  simpl. apply IH, drawPixel_wf, Hwf.
Qed.

Lemma paint_dims color ps : forall c,
  canvas_width (paint color ps c) = canvas_width c /\
  canvas_height (paint color ps c) = canvas_height c.
Proof.
  induction ps as [|p ps IH]; intros c; [auto|].
  simpl. destruct (IH (drawPixel c (px p) (py p) color)) as [-> ->].
  apply drawPixel_dims.
Qed.

Lemma covers_dims c c' ps u v :
  canvas_width c' = canvas_width c -> canvas_height c' = canvas_height c ->
  covers c' ps u v = covers c ps u v.
Proof.
  intros Hw Hh. unfold covers.
  induction ps as [|p ps IH]; [reflexivity|]. simpl.
  rewrite IH, (inCanvas_dims c c') by assumption. reflexivity.
Qed.

(** After painting, a pixel of the canvas has the colour if it is one of
    the points, and is as before otherwise. *)
Lemma paint_pixel color rgb ps : forall c u v,
  wf_canvas c -> cssColor color = Some rgb -> inCanvas c u v = true ->
  canvasPixel (paint color ps c) u v =
    if covers c ps u v then opaque rgb else canvasPixel c u v.
Proof.
  induction ps as [|p ps IH]; intros c u v Hwf Hcol Huv; [reflexivity|].
  simpl paint. destruct (drawPixel_dims c (px p) (py p) color) as [Hw Hh].
  change (paint color (p :: ps) c)
    with (paint color ps (drawPixel c (px p) (py p) color)).
  rewrite IH; [| apply drawPixel_wf, Hwf | exact Hcol
              | rewrite (inCanvas_dims c) by assumption; exact Huv].
  rewrite (covers_dims c) by assumption.
  rewrite (drawPixel_pixel c (px p) (py p) color rgb u v Hwf Hcol Huv).
  simpl covers.
  destruct (inCanvas c (px p) (py p) && (u =? px p) && (v =? py p));
    destruct (covers c ps u v); reflexivity.
Qed.

Lemma covers_true c ps u v :
  covers c ps u v = true <-> In (mkPoint u v) ps /\ inCanvas c u v = true.
Proof.
  unfold covers. rewrite existsb_exists. split.
  - intros (p & Hin & H). zbool. destruct p as [x y]. simpl in *. subst. auto.
  - intros [Hin Hc]. exists (mkPoint u v). split; [exact Hin|].
    simpl. rewrite Hc, !Z.eqb_refl. reflexivity.
Qed.

End Painting.

(** ** Filled circles *)

Section FilledCircle.

Variables (color : string) (centerX centerY radius : Z).

Lemma circle_row y xs : forall c,
  fold_left (fun c x =>
      if x * x + y * y <=? radius * radius then
        if (centerX + x >=? 0) && (centerX + x <? size_width canvasSize)
           && (centerY + y >=? 0) && (centerY + y <? size_height canvasSize)
        then drawPixel c (centerX + x) (centerY + y) color
        else c
      else c) xs c
  = paint color
      (map (fun x => mkPoint (centerX + x) (centerY + y))
         (List.filter (inDisk centerX centerY radius y) xs)) c.
Proof.
  induction xs as [|x xs IH]; intros c; [reflexivity|].
  simpl fold_left. rewrite IH. simpl List.filter. unfold inDisk at 2.
  destruct (x * x + y * y <=? radius * radius); [|reflexivity].
  destruct ((centerX + x >=? 0) && _ && _ && _); reflexivity.
Qed.

Lemma circle_rows xs ys : forall c,
  fold_left (fun c y =>
      fold_left (fun c x =>
        if x * x + y * y <=? radius * radius then
          if (centerX + x >=? 0) && (centerX + x <? size_width canvasSize)
             && (centerY + y >=? 0) && (centerY + y <? size_height canvasSize)
          then drawPixel c (centerX + x) (centerY + y) color
          else c
        else c) xs c) ys c
  = paint color
      (flat_map (fun y =>
         map (fun x => mkPoint (centerX + x) (centerY + y))
           (List.filter (inDisk centerX centerY radius y) xs)) ys) c.
Proof.
  induction ys as [|y ys IH]; intros c; [reflexivity|].
  simpl fold_left. rewrite IH, circle_row. simpl flat_map.
  rewrite paint_app. reflexivity.
Qed.

Lemma drawCircle_filled fuel c :
  drawCircle fuel c centerX centerY radius color true
  = Some (paint color (diskPoints centerX centerY radius) c).
Proof.
  unfold drawCircle, for_range, diskPoints. f_equal. apply circle_rows.
Qed.

(** The points drawn are the points of the canvas in the closed disk. *)
Lemma in_diskPoints u v :
  0 <= radius ->
  In (mkPoint u v) (diskPoints centerX centerY radius) <->
  (u - centerX) * (u - centerX) + (v - centerY) * (v - centerY) <= radius * radius
  /\ 0 <= u < size_width canvasSize /\ 0 <= v < size_height canvasSize.
Proof.
  intros Hr. unfold diskPoints. rewrite in_flat_map. split.
  - intros (y & Hy & Hin). apply in_map_iff in Hin as (x & Hp & Hx).
    apply filter_In in Hx as [Hx Hd]. injection Hp as <- <-.
    unfold inDisk in Hd. zbool.
    replace (centerX + x - centerX) with x by lia.
    replace (centerY + y - centerY) with y by lia.
    repeat split; assumption.
  - intros (Hd & Hu & Hv).
    pose proof (Z.square_nonneg (u - centerX)) as Hsu.
    pose proof (Z.square_nonneg (v - centerY)) as Hsv.
    assert (- radius <= u - centerX <= radius)
      by (apply square_le_bound; [exact Hr | lia]).
    assert (- radius <= v - centerY <= radius)
      by (apply square_le_bound; [exact Hr | lia]).
    exists (v - centerY). split; [apply in_zrange; assumption|].
    apply in_map_iff. exists (u - centerX). split; [f_equal; lia|].
    apply filter_In. split; [apply in_zrange; assumption|].
    unfold inDisk.
    replace (centerX + (u - centerX)) with u by lia.
    replace (centerY + (v - centerY)) with v by lia.
    rewrite !andb_true_iff, !Z.geb_leb, !Z.leb_le, !Z.ltb_lt. lia.
Qed.

End FilledCircle.

(** ** Copy and paste *)

Section Clipboard.

(** A block read from the canvas and put back somewhere else: inside the
    destination rectangle the canvas shows the source pixels, elsewhere it
    is unchanged. *)
Lemma putImageData_block c sx sy sw sh dx dy x y :
  wf_canvas c -> inCanvas c x y = true ->
  0 < sw -> 0 < sh ->
  canvasPixel (putImageData c (getImageData c sx sy sw sh) dx dy) x y =
    if (0 <=? x - dx) && (x - dx <? sw) && (0 <=? y - dy) && (y - dy <? sh)
    then if inCanvas c (sx + (x - dx)) (sy + (y - dy))
         then canvasPixel c (sx + (x - dx)) (sy + (y - dy))
         else [Some 0; Some 0; Some 0; Some 0]
    else canvasPixel c x y.
Proof.
  intros Hwf Hxy Hsw Hsh. unfold canvasPixel.
  destruct (putImageData_dims c (getImageData c sx sy sw sh) dx dy) as (-> & _ & _).
  remember ((0 <=? x - dx) && (x - dx <? sw) && (0 <=? y - dy) && (y - dy <? sh))
    as inBlock eqn:HinBlock.
  remember (inCanvas c (sx + (x - dx)) (sy + (y - dy))) as inSource eqn:HinSource.
  assert (Hbyte : forall k, 0 <= k < 4 ->
    elem (canvas_data (putImageData c (getImageData c sx sy sw sh) dx dy))
      (offset (canvas_width c) x y + k) =
    if inBlock
    then if inSource
         then elem (canvas_data c)
                (offset (canvas_width c) (sx + (x - dx)) (sy + (y - dy)) + k)
         else Some 0
    else elem (canvas_data c) (offset (canvas_width c) x y + k)).
  { intros k Hk. rewrite (elem_putImageData c _ dx dy x y k Hwf Hxy Hk).
    destruct (canvas_elem_Some c x y k Hwf Hxy Hk) as [old Hold]. rewrite Hold.
    change (width (getImageData c sx sy sw sh)) with sw.
    change (height (getImageData c sx sy sw sh)) with sh.
    cbn [fmap option_fmap option_map]. rewrite <- HinBlock.
    destruct inBlock; [|reflexivity].
    symmetry in HinBlock. zbool.
    rewrite elem_getImageData by lia. simpl default. rewrite <- HinSource.
    destruct inSource; [|reflexivity].
    destruct (canvas_elem_Some c _ _ k Hwf (eq_sym HinSource) Hk) as [v Hv].
    rewrite Hv. reflexivity. }
  unfold pixelAt.
  pose proof (Hbyte 0 ltac:(lia)) as H0. rewrite !Z.add_0_r in H0.
  rewrite H0, (Hbyte 1), (Hbyte 2), (Hbyte 3) by lia.
  destruct inBlock; [|reflexivity].
  destruct inSource; reflexivity.
Qed.

Lemma copy_selection s a b :
  selection s = Some (a, b) ->
  copy s = Ok (setClipboard s
                 (Some (getImageData (canvas s)
                          (px (fst (normalize a b))) (py (fst (normalize a b)))
                          (px (snd (normalize a b)) - px (fst (normalize a b)) + 1)
                          (py (snd (normalize a b)) - py (fst (normalize a b)) + 1)))).
Proof. intros H. unfold copy. rewrite H. reflexivity. Qed.

Lemma copy_without_selection s : selection s = None -> copy s = Err EmptySelection.
Proof. intros H. unfold copy. rewrite H. reflexivity. Qed.

Lemma paste_without_clipboard now s p :
  clipboard s = None -> paste now s p = Err EmptyClipboard.
Proof. intros H. unfold paste. rewrite H. reflexivity. Qed.

End Clipboard.

(** ** The model on small inputs *)

Section Examples.

Example hexToRgb_upper : hexToRgb "#FF0000" = Some (mkRGB 255 0 0).
Proof. reflexivity. Qed.

Example hexToRgb_lower_no_hash : hexToRgb "00ff7f" = Some (mkRGB 0 255 127).
Proof. reflexivity. Qed.

Example hexToRgb_short : hexToRgb "#FFF" = None.
Proof. reflexivity. Qed.

Example hexToRgb_not_hex : hexToRgb "#GG0000" = None.
Proof. reflexivity. Qed.

Example toHex2_pads : toHex2 10 = "0a"%string /\ toHex2 255 = "ff"%string.
Proof. split; reflexivity. Qed.

Example slice_prefix : slice [1; 2; 3; 4] 0 2 = [1; 2].
Proof. reflexivity. Qed.

Example slice_from_end : slice_from [1; 2; 3] (-2) = [2; 3].
Proof. reflexivity. Qed.

Example slice_from_short : slice_from [1; 2; 3] (-50) = [1; 2; 3].
Proof. reflexivity. Qed.

Example getPixelCoords_clamps :
  getPixelCoords initialState (mkMouseEvent 1000 (-5) 0 0) = mkPoint 31 0.
Proof. reflexivity. Qed.

Example line_horizontal :
  linePath 6 0 0 5 0
  = Some [mkPoint 0 0; mkPoint 1 0; mkPoint 2 0; mkPoint 3 0; mkPoint 4 0; mkPoint 5 0].
Proof. reflexivity. Qed.

Example line_single_pixel : linePath 1 4 4 4 4 = Some [mkPoint 4 4].
Proof. reflexivity. Qed.

Example line_out_of_fuel : linePath 2 0 0 2 1 = None.
Proof. reflexivity. Qed.

Example white_pixel_reads_lower_case :
  getPixelColor whiteCanvas 3 3 = "#ffffff"%string.
Proof. vm_compute. reflexivity. Qed.

Example red_pixel_reads_lower_case :
  getPixelColor (drawPixel whiteCanvas 3 3 "#FF0000") 3 3 = "#ff0000"%string.
Proof. vm_compute. reflexivity. Qed.

End Examples.

(** * The claims *)

(** C1.  Sixty successive captures from the empty history (whatever the
    canvas holds at each of them) leave exactly 50 entries, namely the last
    50 captures: the oldest 10 are gone.  The index, however, is not moved
    back when entries are dropped: it ends at 59, where the list of 50
    entries has no element, and not at 49. *)
Theorem sixty_captures_index_past_end (caps : list (Canvas * Z)) :
  length caps = 60%nat ->
  let s := fold_left capture caps initialState in
  length (history s) = 50%nat /\
  history s = map entryOf (drop 10 caps) /\
  historyIndex s = 59 /\
  elem (history s) (historyIndex s) = None.
Proof.
  intros Hlen s. subst s.
  destruct (sixty_captures_history caps Hlen) as [Hh Hi].
  assert (Hl : length (history (fold_left capture caps initialState)) = 50%nat).
  { rewrite Hh, length_map, length_drop, Hlen. reflexivity. }
  repeat split; try assumption.
  apply elem_ge. rewrite Hl, Hi. lia.
Qed.

Lemma sixty_captures_index_past_end_witness :
  length (repeat (freshCanvas, 0) 60) = 60%nat /\
  historyIndex (fold_left capture (repeat (freshCanvas, 0) 60) initialState) = 59.
Proof.
  split; [reflexivity|].
  destruct (sixty_captures_index_past_end (repeat (freshCanvas, 0) 60) eq_refl)
    as (_ & _ & H & _).
  exact H.
Defined.

(** C2.  A fill gesture on the freshly mounted editor (white canvas, black
    foreground): press and release over pixel (0,0).  The press fills and
    captures; it has also set [isDrawing], which the fill branch does not
    clear, so the release captures again.  The history goes from one entry
    to three and the index from 0 to 2: two captures for one gesture. *)
Theorem fill_gesture_captures_twice :
  let s0 := setActiveTool (mount 0 initialState) fill in
  exists fuel s1 s2,
    handleMouseDown fuel 1 s0 (eventAt 0 0) = Some s1 /\
    handleMouseUp fuel 2 s1 (eventAt 0 0) = Some s2 /\
    (historyIndex s0 = 0 /\ length (history s0) = 1%nat) /\
    (historyIndex s1 = 1 /\ length (history s1) = 2%nat) /\
    (historyIndex s2 = 2 /\ length (history s2) = 3%nat).
Proof.
  intros s0.
  assert (Hpix : getPixelColor whiteCanvas 0 0 = "#ffffff"%string)
    by (vm_compute; reflexivity).
  destruct (floodFill_total whiteCanvas 0 0 "#ffffff" "#000000" whiteCanvas_wf)
    as (fuel & c & Hfill).
  { right. vm_compute. discriminate. }
  exists fuel.
  assert (Hdown : exists s1, handleMouseDown fuel 1 s0 (eventAt 0 0) = Some s1 /\
            isDrawing s1 = true /\ activeTool s1 = fill /\
            historyIndex s1 = 1 /\
            history s1 = history s0 ++ [mkHistoryEntry (snapshot c) 1]).
  { rewrite handleMouseDown_fill by reflexivity.
    change (getPixelCoords s0 (eventAt 0 0)) with (mkPoint 0 0).
    cbv zeta. change (canvas s0) with whiteCanvas.
    change (foregroundColor s0) with "#000000"%string.
    simpl px. simpl py. rewrite Hpix, Hfill.
    eexists. split; [reflexivity|].
    split; [reflexivity|]. split; [reflexivity|]. split; [reflexivity|].
    change (history (saveCanvas ?s)) with (history s).
    rewrite saveToHistory_appends; [reflexivity | reflexivity | simpl; lia]. }
  destruct Hdown as (s1 & Hs1 & Hd1 & Ht1 & Hi1 & Hh1).
  exists s1.
  rewrite (handleMouseUp_captures fuel 2 s1 (eventAt 0 0) Hd1)
    by (rewrite Ht1; discriminate).
  eexists. split; [exact Hs1|]. split; [reflexivity|].
  assert (Hl0 : length (history s0) = 1%nat) by reflexivity.
  assert (Hl1 : length (history s1) = 2%nat)
    by (rewrite Hh1, length_app, Hl0; reflexivity).
  split; [split; [reflexivity | exact Hl0]|].
  split; [split; [exact Hi1 | exact Hl1]|].
  split.
  - change (historyIndex (saveCanvas ?s)) with (historyIndex s).
    rewrite historyIndex_saveToHistory.
    change (historyIndex (setIsDrawing (set_canvas s1 (canvas s1)) false))
      with (historyIndex s1).
    rewrite Hi1. reflexivity.
  - change (history (saveCanvas ?s)) with (history s).
    rewrite saveToHistory_appends.
    + rewrite length_app.
      change (history (setIsDrawing (set_canvas s1 (canvas s1)) false))
        with (history s1).
      rewrite Hl1. reflexivity.
    + change (history (setIsDrawing (set_canvas s1 (canvas s1)) false))
        with (history s1).
      change (historyIndex (setIsDrawing (set_canvas s1 (canvas s1)) false))
        with (historyIndex s1).
      rewrite Hi1, Hl1. reflexivity.
    + change (history (setIsDrawing (set_canvas s1 (canvas s1)) false))
        with (history s1).
      rewrite Hl1. lia.
Qed.

(** C3.  An eyedropper gesture, from any state: the press sets
    [isDrawing] before it looks at the tool, so the release runs to the end
    of [handleMouseUp].  The canvas is the same and the foreground colour
    is the colour under the pointer, but the history has received one more
    entry and the index has moved. *)
Theorem eyedropper_gesture_captures (fuel fuel' : nat) (t1 t2 : Z) (s : State)
    (press release : MouseEvent) :
  let s0 := setActiveTool s eyedropper in
  let p := getPixelCoords s0 press in
  exists s1 s2,
    handleMouseDown fuel t1 s0 press = Some s1 /\
    handleMouseUp fuel' t2 s1 release = Some s2 /\
    canvas s2 = canvas s0 /\
    foregroundColor s2 = getPixelColor (canvas s0) (px p) (py p) /\
    historyIndex s2 = historyIndex s0 + 1 /\
    history s2 = slice_from (slice (history s0) 0 (historyIndex s0 + 1)
                             ++ [mkHistoryEntry (snapshot (canvas s0)) t2]) (-50).
Proof.
  intros s0 p. eexists. eexists.
  split; [reflexivity|]. split; [reflexivity|].
  repeat split.
Qed.

(** C4, as stated, fails: at index 0 (the state right after the editor has
    been mounted) [undo] returns normally; it raises nothing. *)
Lemma undo_at_index_zero_does_not_fail :
  historyIndex (mount 0 initialState) <= 0 /\
  undo (mount 0 initialState) = Returned (mount 0 initialState) /\
  ~ (exists e, undo (mount 0 initialState) = Threw e).
Proof.
  assert (H : historyIndex (mount 0 initialState) <= 0)
    by (rewrite mount_index; lia).
  split; [exact H|]. split; [apply undo_guard, H|].
  intros [e He]. rewrite (undo_guard _ H) in He. discriminate He.
Qed.

(** C4, amended.  Calling [undo] when the history index is at most 0 is a
    silent no-op: the call returns normally, and the state it returns is
    the state it was given, so the pixel buffer (and the history and its
    index) are unchanged. *)
Theorem undo_without_history_is_noop (s : State) :
  historyIndex s <= 0 ->
  undo s = Returned s /\
  forall s', undo s = Returned s' -> canvas_data (canvas s') = canvas_data (canvas s).
Proof.
  intros H. rewrite (undo_guard s H). split; [reflexivity|].
  intros s' Hs'. injection Hs' as <-. reflexivity.
Qed.

Lemma undo_without_history_is_noop_witness :
  historyIndex initialState <= 0 /\ undo initialState = Returned initialState.
Proof.
  assert (H : historyIndex initialState <= 0) by (simpl; lia).
  split; [exact H|].
  exact (proj1 (undo_without_history_is_noop initialState H)).
Defined.

(** C5, as stated, fails: from (0,0) to (2,1) the line passes through
    (1,0); from (2,1) to (0,0) it passes through (1,1) instead. *)
Lemma line_paths_differ_as_sets :
  linePath 3 0 0 2 1 = Some [mkPoint 0 0; mkPoint 1 0; mkPoint 2 1] /\
  linePath 3 2 1 0 0 = Some [mkPoint 2 1; mkPoint 1 1; mkPoint 0 0] /\
  In (mkPoint 1 0) [mkPoint 0 0; mkPoint 1 0; mkPoint 2 1] /\
  ~ In (mkPoint 1 0) [mkPoint 2 1; mkPoint 1 1; mkPoint 0 0].
Proof.
  split; [reflexivity|]. split; [reflexivity|].
  split; [right; left; reflexivity|].
  intros [H|[H|[H|[]]]]; discriminate H.
Qed.

(** C5, amended.  The line from B to A is the line from A to B seen
    through the point reflection about the middle of the segment: with
    the same fuel the two runs take the same number of steps, and the k-th
    pixel of one is the mirror image of the k-th pixel of the other.  (The
    two sets of pixels are mirror images of each other; they need not be
    the same set.) *)
Theorem linePath_reverse_is_reflection (fuel : nat) (x0 y0 x1 y1 : Z) :
  linePath fuel x1 y1 x0 y0
  = option_map (map (reflect x0 y0 x1 y1)) (linePath fuel x0 y0 x1 y1).
Proof.
  rewrite !linePath_steps.
  replace (Z.abs (x0 - x1)) with (Z.abs (x1 - x0)) by lia.
  replace (Z.abs (y0 - y1)) with (Z.abs (y1 - y0)) by lia.
  destruct (lineSteps fuel _ _ _ _ _) as [l|] eqn:E; [|reflexivity].
  simpl option_map. f_equal. rewrite map_map.
  apply map_ext_in. intros ab Hin.
  assert (Hinv : line_inv (Z.abs (x1 - x0)) (Z.abs (y1 - y0)) 0 0
                   (Z.abs (x1 - x0) - Z.abs (y1 - y0)))
    by (unfold line_inv; lia).
  destruct (lineSteps_range _ _ _ _ _ _ _ Hinv E ab Hin) as [Ha Hb].
  apply stepPoint_reflect; assumption.
Qed.

(** C6.  With a selection whose normalised rectangle is 3 by 3 and lies
    on the canvas, [copy] followed by [paste] at any destination point
    succeeds; every pixel of the 3 by 3 destination block that is on the
    canvas then shows the pixel of the original block at the same
    position in the block, the part of the block that falls outside the
    canvas is dropped, and every other pixel of the canvas is unchanged. *)
Theorem copy_paste_block (now : Z) (s : State) (a b destinationPoint : Point) :
  wf_canvas (canvas s) ->
  selection s = Some (a, b) ->
  px (snd (normalize a b)) - px (fst (normalize a b)) + 1 = 3 ->
  py (snd (normalize a b)) - py (fst (normalize a b)) + 1 = 3 ->
  inCanvas (canvas s) (px (fst (normalize a b))) (py (fst (normalize a b))) = true ->
  inCanvas (canvas s) (px (snd (normalize a b))) (py (snd (normalize a b))) = true ->
  exists s1 s2,
    copy s = Ok s1 /\
    paste now s1 destinationPoint = Ok s2 /\
    (forall i j, 0 <= i < 3 -> 0 <= j < 3 ->
       inCanvas (canvas s) (px destinationPoint + i) (py destinationPoint + j) = true ->
       canvasPixel (canvas s2) (px destinationPoint + i) (py destinationPoint + j)
       = canvasPixel (canvas s) (px (fst (normalize a b)) + i)
           (py (fst (normalize a b)) + j)) /\
    (forall x y, inCanvas (canvas s) x y = true ->
       ~ (px destinationPoint <= x < px destinationPoint + 3 /\
          py destinationPoint <= y < py destinationPoint + 3) ->
       canvasPixel (canvas s2) x y = canvasPixel (canvas s) x y).
Proof.
  intros Hwf Hsel Hw3 Hh3 Htl Hbr.
  rewrite (copy_selection s a b Hsel), Hw3, Hh3.
  set (tl := fst (normalize a b)) in *. set (br := snd (normalize a b)) in *.
  eexists. eexists. split; [reflexivity|]. split; [reflexivity|].
  change (canvas (saveToHistory now ?t)) with (canvas t).
  simpl canvas. simpl px. simpl py.
  apply inCanvas_spec in Htl, Hbr.
  split.
  - intros i j Hi Hj Hdst.
    rewrite putImageData_block by (try assumption; lia).
    replace (px destinationPoint + i - px destinationPoint) with i by lia.
    replace (py destinationPoint + j - py destinationPoint) with j by lia.
    replace ((0 <=? i) && (i <? 3) && (0 <=? j) && (j <? 3)) with true
      by (symmetry; rewrite !andb_true_iff, !Z.leb_le, !Z.ltb_lt; lia).
    match goal with
    | |- (if ?t then _ else _) = _ =>
        replace t with true
          by (symmetry; apply inCanvas_spec; subst tl br;
              unfold normalize in *; simpl in *; lia)
    end.
    reflexivity.
  - intros x y Hxy Hout.
    rewrite putImageData_block by (try assumption; lia).
    replace ((0 <=? x - px destinationPoint) && _ && _ && _) with false; [reflexivity|].
    symmetry. rewrite !andb_false_iff, !Z.leb_gt, !Z.ltb_ge. lia.
Qed.

Lemma copy_paste_block_witness :
  let s := setSelection (mount 0 initialState) (Some (mkPoint 3 3, mkPoint 1 1)) in
  wf_canvas (canvas s) /\
  selection s = Some (mkPoint 3 3, mkPoint 1 1) /\
  exists s1 s2,
    copy s = Ok s1 /\ paste 1 s1 (mkPoint 30 30) = Ok s2 /\
    canvasPixel (canvas s2) 31 31 = canvasPixel (canvas s) 2 2.
Proof.
  intros s.
  assert (Hwf : wf_canvas (canvas s)) by exact whiteCanvas_wf.
  split; [exact Hwf|]. split; [reflexivity|].
  destruct (copy_paste_block 1 s (mkPoint 3 3) (mkPoint 1 1) (mkPoint 30 30)
              Hwf eq_refl eq_refl eq_refl eq_refl eq_refl)
    as (s1 & s2 & Hcopy & Hpaste & Hblock & _).
  exists s1, s2. split; [exact Hcopy|]. split; [exact Hpaste|].
  exact (Hblock 1 1 ltac:(lia) ltac:(lia) eq_refl).
Defined.

(** C7.  The guard of [floodFill] compares the two colour strings.  After
    the red swatch ("#FF0000") has been used to draw two neighbouring
    pixels, the colour read back at the seed is spelt "#ff0000": the guard
    does not fire although both strings denote the same colour, every
    pixel written still has the target colour, and the loop never empties
    its stack.  Neither [floodFill] nor the press handler returns, whatever
    the fuel. *)
Theorem floodFill_same_colour_never_returns :
  exists s,
    redStroke = Some s /\
    canvas s = twoRedPixels /\
    foregroundColor s = "#FF0000"%string /\
    getPixelColor (canvas s) 0 0 = "#ff0000"%string /\
    hexToRgb "#ff0000" = hexToRgb "#FF0000" /\
    (forall fuel,
        floodFill fuel (canvas s) 0 0 (getPixelColor (canvas s) 0 0)
          (foregroundColor s) = None) /\
    (forall fuel now,
        handleMouseDown fuel now (setActiveTool s fill) (eventAt 0 0) = None).
Proof.
  assert (Hpix : getPixelColor twoRedPixels 0 0 = "#ff0000"%string)
    by (vm_compute; reflexivity).
  assert (Hdiv : forall fuel,
            floodFill fuel twoRedPixels 0 0 "#ff0000" "#FF0000" = None).
  { apply (floodFill_diverges twoRedPixels 0 0 "#ff0000" "#FF0000" (mkRGB 255 0 0)
             twoRedPixels_wf); try reflexivity.
    exists (mkPoint 0 0), (mkPoint 1 0).
    split; [left; reflexivity|].
    split; [unfold inside; simpl; lia|].
    split; [vm_compute; reflexivity|].
    split; [unfold adjacent; simpl; lia|].
    split; [unfold inside; simpl; lia|].
    vm_compute; reflexivity. }
  destruct redStroke_state as (s & Hs & Hc & Hfg & Hz).
  exists s. rewrite Hc, Hfg, Hpix.
  split; [exact Hs|]. split; [reflexivity|]. split; [reflexivity|].
  split; [reflexivity|]. split; [reflexivity|]. split; [exact Hdiv|].
  intros fuel now. rewrite handleMouseDown_fill by reflexivity.
  assert (Hp : getPixelCoords (setActiveTool s fill) (eventAt 0 0) = mkPoint 0 0).
  { unfold getPixelCoords. change (zoom (setActiveTool s fill)) with (zoom s).
    rewrite Hz. reflexivity. }
  rewrite Hp. cbv zeta. simpl px. simpl py.
  change (canvas (setActiveTool s fill)) with (canvas s).
  change (foregroundColor (setActiveTool s fill)) with (foregroundColor s).
  rewrite Hc, Hfg, Hpix, Hdiv. reflexivity.
Qed.

(** C8.  Whatever the seed and the two colours, a flood fill that returns
    has kept the dimensions of the canvas and has left every pixel outside
    the 4-connected region of target-coloured pixels around the seed as it
    was, all four channels; and it does return, given enough fuel, when
    the two colours are the same string or denote different colours. *)
Theorem floodFill_frame (c : Canvas) (startX startY : Z)
    (targetColor fillColor : string) :
  wf_canvas c ->
  (forall fuel c',
      floodFill fuel c startX startY targetColor fillColor = Some c' ->
      canvas_width c' = canvas_width c /\ canvas_height c' = canvas_height c /\
      forall x y, inCanvas c x y = true ->
        ~ fillRegion c targetColor (mkPoint startX startY) (mkPoint x y) ->
        canvasPixel c' x y = canvasPixel c x y) /\
  (targetColor = fillColor \/ hexToRgb targetColor <> hexToRgb fillColor ->
   exists fuel c', floodFill fuel c startX startY targetColor fillColor = Some c').
Proof.
  intros Hwf. split.
  - intros fuel c' Hrun. exact (floodFill_frame_pixels _ _ _ _ _ _ _ Hwf Hrun).
  - apply floodFill_total. exact Hwf.
Qed.

Lemma floodFill_frame_witness :
  wf_canvas twoRedPixels /\
  exists fuel c',
    floodFill fuel twoRedPixels 0 0 "#ff0000" "#000000" = Some c' /\
    canvasPixel c' 5 5 = canvasPixel twoRedPixels 5 5.
Proof.
  split; [exact twoRedPixels_wf|].
  destruct (floodFill_frame twoRedPixels 0 0 "#ff0000" "#000000" twoRedPixels_wf)
    as [Hframe Htotal].
  destruct Htotal as (fuel & c' & Hrun); [right; vm_compute; discriminate|].
  exists fuel, c'. split; [exact Hrun|].
  apply (Hframe fuel c' Hrun); [vm_compute; reflexivity|].
  intros (t & Ht & Hr). apply region_hasRGB in Hr.
  injection Ht as <-. vm_compute in Hr. discriminate Hr.
Defined.

(** C9.  On the editor's canvas, and for a colour the canvas accepts, the
    filled branch of [drawCircle] with a radius of at least 0 returns a
    canvas of the same dimensions in which a pixel [(x, y)] is opaque and
    of that colour when (x - centerX)^2 + (y - centerY)^2 <= radius^2, and
    is exactly as before otherwise. *)
Theorem drawCircle_filled_disk (fuel : nat) (c : Canvas)
    (centerX centerY radius : Z) (color : string) (rgb : RGB) :
  wf_canvas c ->
  canvas_width c = size_width canvasSize ->
  canvas_height c = size_height canvasSize ->
  cssColor color = Some rgb ->
  0 <= radius ->
  exists c',
    drawCircle fuel c centerX centerY radius color true = Some c' /\
    canvas_width c' = canvas_width c /\ canvas_height c' = canvas_height c /\
    forall x y, inCanvas c x y = true ->
      canvasPixel c' x y =
        if (x - centerX) * (x - centerX) + (y - centerY) * (y - centerY)
           <=? radius * radius
        then opaque rgb
        else canvasPixel c x y.
Proof.
  intros Hwf Hw Hh Hcol Hr.
  exists (paint color (diskPoints centerX centerY radius) c).
  split; [apply drawCircle_filled|].
  destruct (paint_dims color (diskPoints centerX centerY radius) c) as [Hw' Hh'].
  split; [exact Hw'|]. split; [exact Hh'|].
  intros x y Hxy. rewrite (paint_pixel color rgb _ c x y Hwf Hcol Hxy).
  pose proof (covers_true c (diskPoints centerX centerY radius) x y) as Hc.
  rewrite (in_diskPoints centerX centerY radius x y Hr) in Hc.
  pose proof Hxy as Hin. apply inCanvas_spec in Hin. rewrite Hw, Hh in Hin.
  destruct (covers c _ x y) eqn:E.
  - destruct (proj1 Hc eq_refl) as [[Hd _] _].
    apply Z.leb_le in Hd. rewrite Hd. reflexivity.
  - destruct (_ <=? _) eqn:Hd; [|reflexivity].
    apply Z.leb_le in Hd.
    assert (false = true) by (apply Hc; auto). discriminate.
Qed.

Lemma drawCircle_filled_disk_witness :
  wf_canvas whiteCanvas /\
  canvas_width whiteCanvas = size_width canvasSize /\
  canvas_height whiteCanvas = size_height canvasSize /\
  cssColor "#FF0000" = Some (mkRGB 255 0 0) /\
  0 <= 2 /\
  exists c',
    drawCircle 0 whiteCanvas 5 5 2 "#FF0000" true = Some c' /\
    canvasPixel c' 5 7 = opaque (mkRGB 255 0 0) /\
    canvasPixel c' 6 7 = canvasPixel whiteCanvas 6 7.
Proof.
  split; [exact whiteCanvas_wf|].
  split; [reflexivity|]. split; [reflexivity|]. split; [reflexivity|].
  split; [lia|].
  destruct (drawCircle_filled_disk 0 whiteCanvas 5 5 2 "#FF0000" (mkRGB 255 0 0)
              whiteCanvas_wf eq_refl eq_refl eq_refl ltac:(lia))
    as (c' & Hrun & _ & _ & Hpix).
  exists c'. split; [exact Hrun|]. split.
  - exact (Hpix 5 7 eq_refl).
  - exact (Hpix 6 7 eq_refl).
Defined.

(** C10.  Between any two integer end points the loop of [drawLine]
    stops: there is a path from the first end point to the second, of at
    most |x1 - x0| + |y1 - y0| + 1 pixels, such that the loop needs exactly
    as many iterations as the path has pixels (with that much fuel or more
    it returns, with less it is still running), and what it has done to
    the canvas is one [drawPixel] per pixel of the path, in order. *)
Theorem drawLine_terminates (c : Canvas) (x0 y0 x1 y1 : Z) (color : string) :
  exists path : list Point,
    (0 < length path)%nat /\
    Z.of_nat (length path) <= Z.abs (x1 - x0) + Z.abs (y1 - y0) + 1 /\
    head path = Some (mkPoint x0 y0) /\
    last path = Some (mkPoint x1 y1) /\
    forall fuel,
      ((length path <= fuel)%nat ->
       linePath fuel x0 y0 x1 y1 = Some path /\
       drawLine fuel c x0 y0 x1 y1 color
       = Some (fold_left (fun c p => drawPixel c (px p) (py p) color) path c)) /\
      ((fuel < length path)%nat ->
       linePath fuel x0 y0 x1 y1 = None /\
       drawLine fuel c x0 y0 x1 y1 color = None).
Proof.
  set (dx := Z.abs (x1 - x0)). set (dy := Z.abs (y1 - y0)).
  assert (Hinv : line_inv dx dy 0 0 (dx - dy)) by (unfold line_inv; lia).
  destruct (lineSteps_total dx dy (S (Z.to_nat (dx + dy))) 0 0 (dx - dy) Hinv)
    as (l & Hl & Hlen & Hhd & Hlast); [lia|].
  pose proof (lineSteps_length _ _ _ _ _ _ _ Hl) as [Hpos _].
  pose proof (lineSteps_exact _ _ _ _ _ _ _ Hl) as Hexact.
  exists (map (stepPoint x0 y0 (if x0 <? x1 then 1 else -1)
                 (if y0 <? y1 then 1 else -1)) l).
  rewrite length_map.
  split; [exact Hpos|]. split; [lia|].
  split; [rewrite head_map, Hhd; unfold stepPoint; simpl; f_equal; f_equal; lia|].
  split; [rewrite last_map, Hlast; simpl; f_equal; apply stepPoint_end|].
  intros fuel. rewrite linePath_steps, drawLine_steps. fold dx dy. split.
  - intros Hfuel. rewrite (lineSteps_more _ _ _ _ _ _ _ fuel Hexact Hfuel).
    split; reflexivity.
  - intros Hfuel.
    destruct (lineSteps fuel dx dy 0 0 (dx - dy)) as [l'|] eqn:E; [|split; reflexivity].
    exfalso.
    pose proof (lineSteps_length _ _ _ _ _ _ _ E) as [_ Hle].
    assert (l' = l).
    { destruct (Nat.le_ge_cases fuel (S (Z.to_nat (dx + dy)))) as [H|H].
      - pose proof (lineSteps_more _ _ _ _ _ _ _ _ E H). congruence.
      - pose proof (lineSteps_more _ _ _ _ _ _ _ _ Hl H). congruence. }
    subst l'. lia.
Qed.

(** ** More on the history *)

Section HistoryMore.

Lemma slice_prefix_take {A : Type} (l : list A) (n : Z) :
  0 <= n -> slice l 0 n = take (Z.to_nat n) l.
Proof.
  intros Hn. unfold slice, rel_index.
  change (0 <? 0) with false. cbv iota.
  destruct (n <? 0) eqn:E; zbool; [lia|].
  rewrite (Z.min_l 0) by lia. rewrite Z.sub_0_r.
  change (Z.to_nat 0) with 0%nat. rewrite drop_0.
  destruct (Z.le_ge_cases n (Z.of_nat (length l))) as [H|H].
  - rewrite Z.min_l by lia. reflexivity.
  - rewrite Z.min_r by lia. rewrite Nat2Z.id.
    rewrite (take_ge l (length l)) by lia.
    rewrite (take_ge l (Z.to_nat n)) by lia. reflexivity.
Qed.

Lemma length_slice_from_neg {A : Type} (l : list A) (k : Z) :
  0 < k -> length (slice_from l (- k)) = Nat.min (Z.to_nat k) (length l).
Proof.
  intros Hk. rewrite slice_from_neg by exact Hk. rewrite length_drop. lia.
Qed.

Lemma undo_step s e :
  0 < historyIndex s -> elem (history s) (historyIndex s - 1) = Some e ->
  undo s = Returned
    (saveCanvas (setHistoryIndex
       (set_canvas s (putImageData (canvas s) (imageData e) 0 0))
       (historyIndex s - 1))).
Proof.
  intros Hi He. unfold undo.
  destruct (historyIndex s <=? 0) eqn:E; zbool; [lia|].
  rewrite He. reflexivity.
Qed.

Lemma redo_step s e :
  historyIndex s < Z.of_nat (length (history s)) - 1 ->
  elem (history s) (historyIndex s + 1) = Some e ->
  redo s = Returned
    (saveCanvas (setHistoryIndex
       (set_canvas s (putImageData (canvas s) (imageData e) 0 0))
       (historyIndex s + 1))).
Proof.
  intros Hi He. unfold redo.
  destruct (historyIndex s >=? _) eqn:E; zbool; [lia|].
  rewrite He. reflexivity.
Qed.

Lemma redo_guard s :
  Z.of_nat (length (history s)) - 1 <= historyIndex s -> redo s = Returned s.
Proof.
  intros H. unfold redo.
  destruct (historyIndex s >=? _) eqn:E; zbool; [reflexivity | lia].
Qed.

(** The editor after it has been mounted and one edit has been captured. *)
Lemma two_captures :
  let s := capture (mount 0 initialState) (twoRedPixels, 1) in
  canvas s = twoRedPixels /\ historyIndex s = 1 /\
  history s = [mkHistoryEntry (snapshot whiteCanvas) 0; entryOf (twoRedPixels, 1)].
Proof.
  intros s. split; [reflexivity|]. split; [reflexivity|].
  unfold s, capture. rewrite saveToHistory_appends.
  - reflexivity.
  - reflexivity.
  - change (history (set_canvas ?t ?c)) with (history t).
    rewrite mount_history. simpl length. lia.
Qed.

End HistoryMore.

Lemma saveToHistory_last now s :
  elem (history (saveToHistory now s))
       (Z.of_nat (length (history (saveToHistory now s))) - 1)
  = Some (mkHistoryEntry (snapshot (canvas s)) now).
Proof.
  rewrite history_saveToHistory.
  set (xs := slice (history s) 0 (historyIndex s + 1)).
  set (e := mkHistoryEntry _ _).
  rewrite (slice_from_neg _ 50) by lia.
  rewrite length_drop, length_app. simpl length.
  rewrite elem_lookup by lia.
  rewrite lookup_drop.
  replace (_ + _)%nat with (length xs + 0)%nat by lia.
  rewrite lookup_app_r by lia.
  replace (length xs + 0 - length xs)%nat with 0%nat by lia. reflexivity.
Qed.

Lemma history_saveToHistory_take now s :
  -1 <= historyIndex s < Z.of_nat (length (history s)) ->
  historyIndex s + 1 < 50 ->
  history (saveToHistory now s)
  = take (Z.to_nat (historyIndex s + 1)) (history s)
    ++ [mkHistoryEntry (snapshot (canvas s)) now] /\
  length (history (saveToHistory now s)) = Z.to_nat (historyIndex s + 2).
Proof.
  intros Hi Hcap.
  assert (Hh : history (saveToHistory now s)
               = take (Z.to_nat (historyIndex s + 1)) (history s)
                 ++ [mkHistoryEntry (snapshot (canvas s)) now]).
  { rewrite history_saveToHistory, slice_prefix_take by lia.
    rewrite (slice_from_neg _ 50) by lia.
    rewrite length_app, length_take. simpl length.
    replace (_ - Z.to_nat 50)%nat with 0%nat by lia. apply drop_0. }
  split; [exact Hh|].
  rewrite Hh, length_app, length_take. simpl length. lia.
Qed.

Lemma fits_snapshot c c' now :
  wf_canvas c -> wf_canvas c' ->
  canvas_width c' = canvas_width c -> canvas_height c' = canvas_height c ->
  fits c' (mkHistoryEntry (snapshot c) now) /\
  data (imageData (mkHistoryEntry (snapshot c) now)) = canvas_data c.
Proof.
  intros Hwf Hwf' Hw Hh. pose proof (snapshot_data c Hwf) as Hd.
  split; [|exact Hd].
  unfold fits. simpl imageData. rewrite Hd.
  split; [symmetry; exact Hw|]. split; [symmetry; exact Hh|].
  destruct Hwf as (_ & _ & H1). destruct Hwf' as (_ & _ & H2).
  apply Nat2Z.inj. rewrite H1, H2, Hw, Hh. reflexivity.
Qed.

(** ** Reading colours back *)

Section ColourRoundTrip.

Lemma hexDigit_hexChar d : 0 <= d < 16 -> hexDigit (hexChar d) = Some d.
Proof.
  intros Hd.
  assert (H : d = 0 \/ d = 1 \/ d = 2 \/ d = 3 \/ d = 4 \/ d = 5 \/ d = 6 \/ d = 7 \/
              d = 8 \/ d = 9 \/ d = 10 \/ d = 11 \/ d = 12 \/ d = 13 \/ d = 14 \/ d = 15)
    by lia.
  repeat (destruct H as [->|H]; [reflexivity|]). subst d. reflexivity.
Qed.

Lemma parseHex2_toHex2 v :
  0 <= v <= 255 ->
  parseHex2 (hexChar (v / 16)) (hexChar (v mod 16)) = Some v.
Proof.
  intros Hv. unfold parseHex2.
  assert (0 <= v / 16 < 16)
    by (split; [apply Z.div_pos; lia | apply Z.div_lt_upper_bound; lia]).
  pose proof (Z.mod_pos_bound v 16 ltac:(lia)).
  rewrite !hexDigit_hexChar by assumption.
  f_equal. pose proof (Z.div_mod v 16 ltac:(lia)). lia.
Qed.

Lemma hexToRgb_hexColor c : byteRGB c -> hexToRgb (hexColor c) = Some c.
Proof.
  intros (Hr & Hg & Hb). destruct c as [r g b]. simpl in Hr, Hg, Hb.
  unfold hexColor, hexToRgb, toHex2. simpl red. simpl green. simpl blue.
  change (Ascii.eqb "#" "#") with true. cbv iota. cbn [append hexGroups].
  rewrite !parseHex2_toHex2 by assumption. reflexivity.
Qed.

Lemma cssColor_hexColor c : byteRGB c -> cssColor (hexColor c) = Some c.
Proof.
  intros H. unfold cssColor. unfold hexColor at 1.
  change (Ascii.eqb "#" "#") with true. cbv iota.
  change (String "#"%char _) with (hexColor c). apply hexToRgb_hexColor, H.
Qed.

Lemma getPixelColor_inside c x y r g b a :
  inCanvas c x y = true ->
  canvasPixel c x y = [Some r; Some g; Some b; a] ->
  getPixelColor c x y = hexColor (mkRGB r g b).
Proof.
  intros Hin Hpix. unfold getPixelColor, hexColor.
  unfold canvasPixel, pixelAt in Hpix. injection Hpix as H0 H1 H2 _.
  pose proof (elem_getImageData c x y 1 1 0 0 0 ltac:(lia) ltac:(lia) ltac:(lia)) as E0.
  pose proof (elem_getImageData c x y 1 1 0 0 1 ltac:(lia) ltac:(lia) ltac:(lia)) as E1.
  pose proof (elem_getImageData c x y 1 1 0 0 2 ltac:(lia) ltac:(lia) ltac:(lia)) as E2.
  rewrite !Z.add_0_r in E0. rewrite !Z.add_0_r in E1. rewrite !Z.add_0_r in E2.
  rewrite Hin in E0, E1, E2.
  change (offset 1 0 0) with 0 in E0, E1, E2.
  rewrite H0 in E0. rewrite H1 in E1. rewrite H2 in E2.
  change (0 + 1) with 1 in E1. change (0 + 2) with 2 in E2.
  cbv zeta. rewrite E0, E1, E2. reflexivity.
Qed.

Lemma getPixelColor_outside c x y :
  inCanvas c x y = false -> getPixelColor c x y = "#000000"%string.
Proof.
  intros Hout. unfold getPixelColor.
  pose proof (elem_getImageData c x y 1 1 0 0 0 ltac:(lia) ltac:(lia) ltac:(lia)) as E0.
  pose proof (elem_getImageData c x y 1 1 0 0 1 ltac:(lia) ltac:(lia) ltac:(lia)) as E1.
  pose proof (elem_getImageData c x y 1 1 0 0 2 ltac:(lia) ltac:(lia) ltac:(lia)) as E2.
  rewrite !Z.add_0_r in E0. rewrite !Z.add_0_r in E1. rewrite !Z.add_0_r in E2.
  rewrite Hout in E0, E1, E2.
  change (offset 1 0 0) with 0 in E0, E1, E2.
  change (0 + 1) with 1 in E1. change (0 + 2) with 2 in E2.
  cbv zeta. rewrite E0, E1, E2. reflexivity.
Qed.

End ColourRoundTrip.

Lemma hexGroups_length body c : hexGroups body = Some c -> String.length body = 6%nat.
Proof.
  destruct body as [|r1 [|r2 [|g1 [|g2 [|b1 [|b2 [|x rest]]]]]]];
    try discriminate; reflexivity.
Qed.

Lemma hexDigit_hash : hexDigit "#" = None.
Proof. reflexivity. Qed.

(** ** Rectangles and outline circles as lists of pixels *)

Lemma fold_left_pointwise {A B : Type} (f g : A -> B -> A) (l : list B) :
  (forall a b, f a b = g a b) -> forall a, fold_left f l a = fold_left g l a.
Proof.
  intros H. induction l as [|b l IH]; intros a; [reflexivity|].
  simpl. rewrite H. apply IH.
Qed.

Section Shapes.

Variable color : string.

Lemma fold_paint_filter (test : Point -> bool) ps : forall c,
  fold_left (fun c p => if test p then drawPixel c (px p) (py p) color else c) ps c
  = paint color (List.filter test ps) c.
Proof.
  induction ps as [|p ps IH]; intros c; [reflexivity|].
  simpl fold_left. rewrite IH. simpl List.filter.
  destruct (test p); reflexivity.
Qed.

Lemma fold_paint_flat_map {A : Type} (g : A -> list Point) l : forall c,
  fold_left (fun c i => paint color (g i) c) l c = paint color (flat_map g l) c.
Proof.
  induction l as [|i l IH]; intros c; [reflexivity|].
  simpl fold_left. rewrite IH. simpl flat_map. rewrite paint_app. reflexivity.
Qed.

Lemma plotPoints_paint cx cy x y c :
  plotPoints color cx cy x y c
  = paint color (List.filter onCanvasSize (octants cx cy x y)) c.
Proof. exact (fold_paint_filter onCanvasSize (octants cx cy x y) c). Qed.

(** *** The loop of the outline circle *)

Lemma circleSteps_step fuel x y d :
  circleSteps (S fuel) x y d =
    if y >=? x then
      option_map (cons (x + 1, if d >? 0 then y - 1 else y))
        (circleSteps fuel (x + 1) (if d >? 0 then y - 1 else y)
           (if d >? 0 then d + 4 * (x + 1 - (y - 1)) + 10 else d + 4 * (x + 1) + 6))
    else Some [].
Proof. reflexivity. Qed.

Lemma drawCircle_loop_steps cx cy fuel : forall x y d c,
  drawCircle_loop fuel color cx cy x y d c
  = option_map
      (fun l => paint color
                  (flat_map (fun xy => List.filter onCanvasSize
                                         (octants cx cy (fst xy) (snd xy))) l) c)
      (circleSteps fuel x y d).
Proof.
  induction fuel as [|fuel IH]; intros x y d c.
  - simpl. destruct (y >=? x); reflexivity.
  - rewrite circleSteps_step. simpl drawCircle_loop.
    destruct (y >=? x); [|reflexivity].
    destruct (d >? 0); rewrite IH, plotPoints_paint;
      destruct (circleSteps fuel _ _ _) as [l|]; try reflexivity;
      simpl option_map; simpl flat_map; rewrite paint_app; reflexivity.
Qed.

Lemma circleSteps_total fuel : forall x y d,
  y - x < Z.of_nat fuel -> exists l, circleSteps fuel x y d = Some l.
Proof.
  induction fuel as [|fuel IH]; intros x y d Hfuel.
  - simpl. destruct (y >=? x) eqn:E; zbool; [lia | eexists; reflexivity].
  - rewrite circleSteps_step. destruct (y >=? x) eqn:E; [|eexists; reflexivity].
    zbool.
    destruct (IH (x + 1) (if d >? 0 then y - 1 else y)
                (if d >? 0 then d + 4 * (x + 1 - (y - 1)) + 10 else d + 4 * (x + 1) + 6))
      as [l Hl]; [destruct (d >? 0); cbv iota; lia|].
    rewrite Hl. eexists. reflexivity.
Qed.

(** From a state with [0 <= x] and [y <= r], the loop only hands out
    pairs with [0 <= x <= r + 1] and [-1 <= y <= r]. *)
Lemma circleSteps_range r fuel : forall x y d l,
  0 <= x -> y <= r -> circleSteps fuel x y d = Some l ->
  forall xy, In xy l -> 0 <= fst xy <= r + 1 /\ -1 <= snd xy <= r.
Proof.
  induction fuel as [|fuel IH]; intros x y d l Hx Hy H.
  - simpl in H. destruct (y >=? x); [discriminate|]. injection H as <-.
    intros xy [].
  - rewrite circleSteps_step in H. destruct (y >=? x) eqn:E;
      [|injection H as <-; intros xy []].
    zbool.
    destruct (circleSteps fuel _ _ _) as [l'|] eqn:E'; [|discriminate].
    injection H as <-.
    assert (Hy' : (if d >? 0 then y - 1 else y) <= r)
      by (destruct (d >? 0); cbv iota; lia).
    intros xy [<-|Hin].
    + cbn [fst snd]. clear E' Hy'. destruct (d >? 0); cbv iota; lia.
    + eapply (IH (x + 1)); [lia | exact Hy' | exact E' | exact Hin].
Qed.

Lemma drawCircle_outline fuel c cx cy radius :
  drawCircle fuel c cx cy radius color false
  = option_map
      (fun l => paint color
                  (flat_map (fun xy => List.filter onCanvasSize
                                         (octants cx cy (fst xy) (snd xy)))
                     ((0, radius) :: l)) c)
      (circleSteps fuel 0 radius (3 - 2 * radius)).
Proof.
  unfold drawCircle. cbv zeta. rewrite drawCircle_loop_steps, plotPoints_paint.
  destruct (circleSteps fuel _ _ _) as [l|]; [|reflexivity].
  simpl option_map. simpl flat_map. rewrite paint_app. reflexivity.
Qed.

(** Every one of the eight points is within [m] of the centre when the
    two offsets are. *)
Lemma octants_near cx cy x y m p :
  Z.abs x <= m -> Z.abs y <= m -> In p (octants cx cy x y) ->
  Z.abs (px p - cx) <= m /\ Z.abs (py p - cy) <= m.
Proof.
  intros Hx Hy. unfold octants. simpl.
  intros [<-|[<-|[<-|[<-|[<-|[<-|[<-|[<-|[]]]]]]]]]; simpl; lia.
Qed.

(** *** Rectangles *)

Lemma drawRect_outline c x0 y0 x1 y1 :
  drawRect c x0 y0 x1 y1 color false
  = paint color (outlinePoints (Z.min x0 x1) (Z.max x0 x1) (Z.min y0 y1) (Z.max y0 y1)) c.
Proof.
  unfold drawRect, outlinePoints, for_range. cbv zeta.
  rewrite paint_app.
  rewrite <- (fold_paint_flat_map
                (fun x => [mkPoint x (Z.min y0 y1); mkPoint x (Z.max y0 y1)])).
  rewrite <- (fold_paint_flat_map
                (fun y => [mkPoint (Z.min x0 x1) y; mkPoint (Z.max x0 x1) y])).
  reflexivity.
Qed.

Lemma drawRect_filled c x0 y0 x1 y1 :
  drawRect c x0 y0 x1 y1 color true
  = paint color (filledPoints (Z.min x0 x1) (Z.max x0 x1) (Z.min y0 y1) (Z.max y0 y1)) c.
Proof.
  unfold drawRect, filledPoints, for_range. cbv zeta.
  rewrite <- (fold_paint_flat_map
                (fun y => map (fun x => mkPoint x y) (zrange (Z.min x0 x1) (Z.max x0 x1)))).
  apply fold_left_pointwise. intros c' y.
  unfold paint. rewrite fold_left_through_map. reflexivity.
Qed.

End Shapes.

Section ShapePoints.

Lemma in_outlinePoints l r t b u v :
  l <= r -> t <= b ->
  In (mkPoint u v) (outlinePoints l r t b) <->
  l <= u <= r /\ t <= v <= b /\ (u = l \/ u = r \/ v = t \/ v = b).
Proof.
  intros Hlr Htb. unfold outlinePoints.
  rewrite in_app_iff, !in_flat_map. split.
  - intros [(x & Hx & Hp)|(y & Hy & Hp)].
    + apply in_zrange in Hx. destruct Hp as [E|[E|[]]]; injection E as -> ->; lia.
    + apply in_zrange in Hy. destruct Hp as [E|[E|[]]]; injection E as -> ->; lia.
  - intros (Hu & Hv & [->|[->|[->| ->]]]).
    + right. exists v. split; [apply in_zrange; lia | left; reflexivity].
    + right. exists v. split; [apply in_zrange; lia | right; left; reflexivity].
    + left. exists u. split; [apply in_zrange; lia | left; reflexivity].
    + left. exists u. split; [apply in_zrange; lia | right; left; reflexivity].
Qed.

Lemma in_filledPoints l r t b u v :
  In (mkPoint u v) (filledPoints l r t b) <-> l <= u <= r /\ t <= v <= b.
Proof.
  unfold filledPoints. rewrite in_flat_map. split.
  - intros (y & Hy & Hp). apply in_map_iff in Hp as (x & E & Hx).
    injection E as -> ->. apply in_zrange in Hx, Hy. lia.
  - intros (Hu & Hv). exists v. split; [apply in_zrange; lia|].
    apply in_map_iff. exists u. split; [reflexivity | apply in_zrange; lia].
Qed.

(** A pixel keeps its value under [paint] unless it is one of the points. *)
Lemma paint_pixel_cases color rgb ps c u v :
  wf_canvas c -> cssColor color = Some rgb -> inCanvas c u v = true ->
  (In (mkPoint u v) ps -> canvasPixel (paint color ps c) u v = opaque rgb) /\
  (~ In (mkPoint u v) ps -> canvasPixel (paint color ps c) u v = canvasPixel c u v).
Proof.
  intros Hwf Hcol Huv. rewrite (paint_pixel color rgb ps c u v Hwf Hcol Huv).
  pose proof (covers_true c ps u v) as Hc.
  destruct (covers c ps u v).
  - split; [reflexivity|]. intros Hn. exfalso. apply Hn. apply Hc. reflexivity.
  - split; [|reflexivity]. intros Hin.
    assert (false = true) by (apply Hc; split; assumption). discriminate.
Qed.

End ShapePoints.

(** ** Lines are connected *)

Section LineChain.

Lemma chain_map {A B : Type} (R : A -> A -> Prop) (R' : B -> B -> Prop)
    (g : A -> B) (l : list A) :
  (forall a b, R a b -> R' (g a) (g b)) -> chain R l -> chain R' (map g l).
Proof.
  intros H Hc. induction Hc as [|a|a b l Hab Hc IH]; simpl.
  - constructor.
  - constructor.
  - constructor; [apply H, Hab | exact IH].
Qed.

Lemma lineSteps_head dx dy fuel a b err l :
  lineSteps fuel dx dy a b err = Some l -> exists l', l = (a, b) :: l'.
Proof.
  destruct fuel as [|fuel]; [discriminate|]. rewrite lineSteps_step.
  destruct ((a =? dx) && (b =? dy)); [intros [= <-]; eauto|].
  destruct (lineSteps fuel _ _ _ _ _) as [l'|]; [|discriminate].
  intros [= <-]. eauto.
Qed.

Lemma lineSteps_chain dx dy fuel : forall a b err l,
  line_inv dx dy a b err -> lineSteps fuel dx dy a b err = Some l ->
  chain lineStep l.
Proof.
  induction fuel as [|fuel IH]; intros a b err l Hinv H; [discriminate|].
  rewrite lineSteps_step in H.
  destruct ((a =? dx) && (b =? dy)) eqn:Hend.
  - injection H as <-. constructor.
  - destruct (lineSteps fuel _ _ _ _ _) as [l'|] eqn:E; [|discriminate].
    injection H as <-.
    destruct (line_inv_step dx dy a b err Hinv Hend) as [Hinv' Hlt].
    pose proof (IH _ _ _ _ Hinv' E) as Hc.
    destruct (lineSteps_head _ _ _ _ _ _ _ E) as [l'' ->].
    constructor; [|exact Hc].
    unfold lineStep. simpl fst. simpl snd.
    destruct (2 * err >? - dy); destruct (2 * err <? dx); cbv iota in *;
      repeat split; try lia; intros Heq; inversion Heq; lia.
Qed.

Lemma stepPoint_touching x0 y0 (bx by_ : bool) ab ab' :
  lineStep ab ab' ->
  touching (stepPoint x0 y0 (if bx then 1 else -1) (if by_ then 1 else -1) ab)
           (stepPoint x0 y0 (if bx then 1 else -1) (if by_ then 1 else -1) ab').
Proof.
  destruct ab as [a b], ab' as [a' b']. unfold lineStep, touching, stepPoint.
  simpl. intros (Ha & Hb & Hne).
  split; [destruct bx; lia|]. split; [destruct by_; lia|].
  intros [= E1 E2]. apply Hne. f_equal; [destruct bx; lia | destruct by_; lia].
Qed.

End LineChain.

(** ** The whole canvas at once *)

Section FillAll.

Lemma fillAll_wf c : wf_canvas c -> wf_canvas (fillAll c).
Proof. unfold wf_canvas, fillAll. simpl. rewrite length_imap. auto. Qed.

Lemma fillAll_pixel c u v :
  wf_canvas c -> inCanvas c u v = true ->
  canvasPixel (fillAll c) u v = opaque (fillStyle c).
Proof.
  intros Hwf Huv. unfold canvasPixel, pixelAt, opaque.
  assert (Hb : forall k, 0 <= k < 4 ->
    elem (canvas_data (fillAll c)) (offset (canvas_width (fillAll c)) u v + k)
    = Some (match k with
            | 0 => red (fillStyle c) | 1 => green (fillStyle c)
            | 2 => blue (fillStyle c) | _ => 255
            end)).
  { intros k Hk.
    pose proof (canvas_offset_range c u v k Hwf Huv Hk) as Hr.
    change (canvas_width (fillAll c)) with (canvas_width c).
    rewrite elem_lookup by lia. unfold fillAll. simpl canvas_data.
    rewrite list_lookup_imap.
    destruct (lookup_lt_is_Some_2 (canvas_data c)
                (Z.to_nat (offset (canvas_width c) u v + k)) ltac:(lia)) as [b Hb].
    rewrite Hb. simpl. rewrite Z2Nat.id by lia.
    rewrite (offset_mod4 _ u v k Hk). reflexivity. }
  pose proof (Hb 0 ltac:(lia)) as H0. rewrite Z.add_0_r in H0.
  rewrite H0, (Hb 1), (Hb 2), (Hb 3) by lia. reflexivity.
Qed.

Lemma whiteCanvas_pixel u v :
  inCanvas whiteCanvas u v = true ->
  canvasPixel whiteCanvas u v = opaque (mkRGB 255 255 255).
Proof.
  intros Huv. unfold whiteCanvas in *.
  rewrite fillAll_pixel; [reflexivity | | exact Huv].
  unfold wf_canvas. repeat split; reflexivity.
Qed.

End FillAll.

(** ** Shapes between two pixels of the canvas *)

Section ShapeRuns.

Lemma drawLine_paint fuel c x0 y0 x1 y1 color :
  drawLine fuel c x0 y0 x1 y1 color
  = option_map (fun path => paint color path c) (linePath fuel x0 y0 x1 y1).
Proof.
  rewrite drawLine_steps, linePath_steps.
  destruct (lineSteps fuel _ _ _ _ _); reflexivity.
Qed.

Lemma linePath_total fuel x0 y0 x1 y1 :
  Z.abs (x1 - x0) + Z.abs (y1 - y0) < Z.of_nat fuel ->
  exists path, linePath fuel x0 y0 x1 y1 = Some path.
Proof.
  intros Hfuel. rewrite linePath_steps.
  destruct (lineSteps_total (Z.abs (x1 - x0)) (Z.abs (y1 - y0)) fuel 0 0
              (Z.abs (x1 - x0) - Z.abs (y1 - y0))) as (l & -> & _);
    [unfold line_inv; lia | lia |].
  eexists. reflexivity.
Qed.

Lemma sqrt_distance_bound (x0 y0 x1 y1 : Z) :
  0 <= x0 <= 31 -> 0 <= y0 <= 31 -> 0 <= x1 <= 31 -> 0 <= y1 <= 31 ->
  0 <= Z.sqrt ((x1 - x0) ^ 2 + (y1 - y0) ^ 2) < 44.
Proof.
  intros Hx0 Hy0 Hx1 Hy1. split; [apply Z.sqrt_nonneg|].
  apply Z.sqrt_lt_square; [nia | lia |].
  assert ((x1 - x0) ^ 2 <= 961) by (rewrite Z.pow_2_r; nia).
  assert ((y1 - y0) ^ 2 <= 961) by (rewrite Z.pow_2_r; nia).
  lia.
Qed.

Lemma drawCircle_outline_total fuel c cx cy radius color :
  radius < Z.of_nat fuel ->
  exists c', drawCircle fuel c cx cy radius color false = Some c'.
Proof.
  intros Hfuel. rewrite drawCircle_outline.
  destruct (circleSteps_total fuel 0 radius (3 - 2 * radius) ltac:(lia)) as [l ->].
  eexists. reflexivity.
Qed.

End ShapeRuns.

(** ** Pointer handlers, once more *)

Section Pointer.

Lemma getPixelCoords_range s e :
  0 <= px (getPixelCoords s e) <= 31 /\ 0 <= py (getPixelCoords s e) <= 31.
Proof.
  unfold getPixelCoords. cbv zeta. simpl px. simpl py.
  change (size_width canvasSize - 1) with 31.
  change (size_height canvasSize - 1) with 31. lia.
Qed.

Lemma getPixelCoords_zoom s s' e :
  zoom s' = zoom s -> getPixelCoords s' e = getPixelCoords s e.
Proof. intros H. unfold getPixelCoords. rewrite H. reflexivity. Qed.

Lemma onCanvasSize_spec p :
  onCanvasSize p = true <-> 0 <= px p <= 31 /\ 0 <= py p <= 31.
Proof.
  unfold onCanvasSize. change (size_width canvasSize) with 32.
  change (size_height canvasSize) with 32.
  rewrite !andb_true_iff, !Z.ltb_lt, !Z.geb_le. lia.
Qed.

Lemma sameSetup_refl s : sameSetup s s.
Proof. unfold sameSetup. repeat split; reflexivity. Qed.

Lemma sameSetup_trans s1 s2 s3 :
  sameSetup s1 s2 -> sameSetup s2 s3 -> sameSetup s1 s3.
Proof.
  unfold sameSetup.
  intros (A1 & A2 & A3 & A4 & A5 & A6 & A7 & A8 & A9)
         (B1 & B2 & B3 & B4 & B5 & B6 & B7 & B8 & B9).
  repeat split; congruence.
Qed.

Lemma handleMouseMove_setup s e : sameSetup s (handleMouseMove s e).
Proof.
  destruct s as [c z t fg bg d sp cp mp h hi sel cl cd st].
  unfold handleMouseMove, sameSetup. cbv zeta.
  cbn [isDrawing setMousePos activeTool setCurrentPoint negb canvas zoom
       foregroundColor backgroundColor startPoint currentPoint mousePos history
       historyIndex selection clipboard canvasData saveTimeout].
  destruct d; cbv iota; [|repeat split; reflexivity].
  destruct t; repeat split; reflexivity.
Qed.

Lemma handleMouseMove_canvas s e :
  canvas (handleMouseMove s e) =
    if isDrawing s then
      match strokeColor s with
      | Some color =>
          drawPixel (canvas s) (px (getPixelCoords s e)) (py (getPixelCoords s e)) color
      | None => canvas s
      end
    else canvas s.
Proof.
  destruct s as [c z t fg bg d sp cp mp h hi sel cl cd st].
  unfold handleMouseMove, strokeColor. cbv zeta.
  cbn [isDrawing setMousePos activeTool setCurrentPoint negb canvas zoom
       foregroundColor backgroundColor startPoint currentPoint mousePos history
       historyIndex selection clipboard canvasData saveTimeout].
  destruct d; cbv iota; [|reflexivity].
  destruct t; reflexivity.
Qed.

Lemma strokeColor_setup s s' : sameSetup s s' -> strokeColor s' = strokeColor s.
Proof.
  intros (_ & Ht & Hf & Hb & _). unfold strokeColor. rewrite Ht, Hf, Hb. reflexivity.
Qed.

Lemma moves_setup moves : forall s, sameSetup s (fold_left handleMouseMove moves s).
Proof.
  induction moves as [|e moves IH]; intros s; [apply sameSetup_refl|].
  simpl. eapply sameSetup_trans; [apply handleMouseMove_setup | apply IH].
Qed.

(** The canvas after a run of moves with the button held. *)
Lemma moves_canvas moves : forall s,
  isDrawing s = true ->
  canvas (fold_left handleMouseMove moves s) =
    match strokeColor s with
    | Some color => paint color (map (getPixelCoords s) moves) (canvas s)
    | None => canvas s
    end.
Proof.
  induction moves as [|e moves IH]; intros s Hd.
  - simpl. destruct (strokeColor s); reflexivity.
  - simpl fold_left.
    pose proof (handleMouseMove_setup s e) as Hset.
    pose proof Hset as (Hz & _ & _ & _ & Hd' & _).
    rewrite IH by congruence.
    rewrite (strokeColor_setup _ _ Hset), handleMouseMove_canvas, Hd.
    destruct (strokeColor s) as [color|]; [|reflexivity].
    simpl map. unfold paint at 2. simpl fold_left. fold (paint color).
    f_equal. apply map_ext. intros e'. apply getPixelCoords_zoom, Hz.
Qed.

(** What a press leaves behind, tool by tool. *)
Lemma handleMouseDown_stroke fuel now s e color :
  strokeColor s = Some color ->
  exists s1,
    handleMouseDown fuel now s e = Some s1 /\
    canvas s1 = drawPixel (canvas s) (px (getPixelCoords s e))
                  (py (getPixelCoords s e)) color /\
    zoom s1 = zoom s /\ activeTool s1 = activeTool s /\
    foregroundColor s1 = foregroundColor s /\
    backgroundColor s1 = backgroundColor s /\
    isDrawing s1 = true /\ startPoint s1 = getPixelCoords s e /\
    history s1 = history s /\ historyIndex s1 = historyIndex s.
Proof.
  destruct s as [c z t fg bg d sp cp mp h hi sel cl cd st].
  unfold strokeColor, handleMouseDown. cbv zeta.
  cbn [isDrawing setMousePos activeTool setCurrentPoint setStartPoint setIsDrawing
       canvas zoom foregroundColor backgroundColor startPoint currentPoint mousePos
       history historyIndex selection clipboard canvasData saveTimeout].
  destruct t; try discriminate; intros [= <-];
    eexists; (split; [reflexivity|]); repeat split; reflexivity.
Qed.

Lemma handleMouseDown_shape fuel now s e :
  activeTool s = line \/ activeTool s = rectangle \/ activeTool s = circle ->
  exists s1,
    handleMouseDown fuel now s e = Some s1 /\
    canvas s1 = canvas s /\
    zoom s1 = zoom s /\ activeTool s1 = activeTool s /\
    foregroundColor s1 = foregroundColor s /\
    isDrawing s1 = true /\ startPoint s1 = getPixelCoords s e /\
    history s1 = history s /\ historyIndex s1 = historyIndex s.
Proof.
  destruct s as [c z t fg bg d sp cp mp h hi sel cl cd st].
  unfold handleMouseDown. cbv zeta.
  cbn [isDrawing setMousePos activeTool setCurrentPoint setStartPoint setIsDrawing
       canvas zoom foregroundColor backgroundColor startPoint currentPoint mousePos
       history historyIndex selection clipboard canvasData saveTimeout].
  intros [H|[H|H]]; rewrite H;
    eexists; (split; [reflexivity|]); repeat split; reflexivity.
Qed.

Lemma strokeColor_not_shape s color :
  strokeColor s = Some color ->
  activeTool s <> line /\ activeTool s <> rectangle /\ activeTool s <> circle.
Proof.
  unfold strokeColor. destruct (activeTool s); try discriminate;
    intros _; repeat split; discriminate.
Qed.

Lemma strokeColor_shape s :
  activeTool s = line \/ activeTool s = rectangle \/ activeTool s = circle ->
  strokeColor s = None.
Proof. unfold strokeColor. intros [H|[H|H]]; rewrite H; reflexivity. Qed.

Lemma setMousePos_twice s p q : setMousePos (setMousePos s p) q = setMousePos s q.
Proof. reflexivity. Qed.

Lemma handleMouseMove_idle s e :
  isDrawing s = false -> handleMouseMove s e = setMousePos s (getPixelCoords s e).
Proof.
  destruct s as [c z t fg bg d sp cp mp h hi sel cl cd st].
  cbn [isDrawing]. intros ->. reflexivity.
Qed.

End Pointer.

(** ** Keyboard and window *)

Section UiLemmas.

Lemma undo_settle_setup s :
  zoom (settle (undo s) s) = zoom s /\ history (settle (undo s) s) = history s.
Proof.
  unfold undo. destruct (historyIndex s <=? 0); [split; reflexivity|].
  destruct (elem (history s) (historyIndex s - 1)); split; reflexivity.
Qed.

Lemma redo_settle_setup s :
  zoom (settle (redo s) s) = zoom s /\ history (settle (redo s) s) = history s.
Proof.
  unfold redo. destruct (historyIndex s >=? _); [split; reflexivity|].
  destruct (elem (history s) (historyIndex s + 1)); split; reflexivity.
Qed.

(** The ways in which a key press can change the editor. *)
Lemma handleKeyDown_cases ui k :
  let s := editor ui in
  let s' := editor (handleKeyDown ui k) in
  (ctrlKey k || metaKey k = true /\
   (s' = s \/ s' = settle (undo s) s \/ s' = settle (redo s) s)) \/
  (ctrlKey k || metaKey k = false /\
   (s' = s \/ (exists t, s' = setActiveTool s t) \/
    s' = setZoom s (Z.min 16 (zoom s + 1)) \/
    s' = setZoom s (Z.max 1 (zoom s - 1)))).
Proof.
  cbv zeta. unfold handleKeyDown. cbv zeta.
  destruct (ctrlKey k || metaKey k).
  - left. split; [reflexivity|].
    destruct (String.eqb (key k) "z").
    + destruct (shiftKey k); simpl; auto.
    + destruct (String.eqb (key k) "y"); simpl; auto.
  - right. split; [reflexivity|].
    repeat match goal with
    | |- context [if ?b then _ else _] =>
        destruct b; [simpl; eauto 6|]
    end.
    left. reflexivity.
Qed.

Lemma windowMouseMove_held ui e :
  isDragging ui = true ->
  let ui' := windowMouseMove ui e in
  windowPos ui' = mkPoint (clientX e - px (dragStart ui)) (clientY e - py (dragStart ui)) /\
  isDragging ui' = true /\ dragStart ui' = dragStart ui /\ editor ui' = editor ui /\
  showGrid ui' = showGrid ui.
Proof.
  intros H. cbv zeta. unfold windowMouseMove. rewrite H. repeat split; reflexivity.
Qed.

Lemma windowMouseMoves_held moves : forall ui,
  isDragging ui = true ->
  let ui' := fold_left windowMouseMove moves ui in
  isDragging ui' = true /\ dragStart ui' = dragStart ui /\ editor ui' = editor ui /\
  showGrid ui' = showGrid ui.
Proof.
  induction moves as [|e moves IH]; intros ui H; cbv zeta; [repeat split; assumption|].
  simpl fold_left.
  destruct (windowMouseMove_held ui e H) as (_ & H1 & H2 & H3 & H4).
  destruct (IH _ H1) as (I1 & I2 & I3 & I4).
  repeat split; congruence.
Qed.

End UiLemmas.

(** ** Stored values are bytes *)

Section Bytes.

Lemma fillAll_bytes c : byteRGB (fillStyle c) -> byteCanvas (fillAll c).
Proof.
  intros (Hr & Hg & Hb) i b. unfold fillAll. simpl canvas_data. intros H.
  pose proof (elem_Some_range _ _ _ H) as Hi. rewrite length_imap in Hi.
  rewrite elem_lookup in H by lia.
  rewrite list_lookup_imap in H.
  destruct (canvas_data c !! Z.to_nat i); [|discriminate].
  simpl in H. injection H as <-.
  destruct (Z.of_nat (Z.to_nat i) mod 4) as [|p|p]; [lia| |lia].
  destruct p as [[p|p|]|[p|p|]|]; lia.
Qed.

Lemma whiteCanvas_bytes : byteCanvas whiteCanvas.
Proof.
  unfold whiteCanvas. apply fillAll_bytes. unfold byteRGB. simpl. lia.
Qed.

End Bytes.

(** ** The fill tool *)

Section FillMore.

Lemma floodFill_region_filled c startX startY targetColor fillColor t f fuel c' :
  wf_canvas c ->
  hexToRgb targetColor = Some t -> hexToRgb fillColor = Some f -> t <> f ->
  floodFill fuel c startX startY targetColor fillColor = Some c' ->
  forall x y,
    region (canvas_width c) (canvas_height c) (canvas_data c) t
      (mkPoint startX startY) (mkPoint x y) ->
    canvasPixel c' x y
    = [Some (red f); Some (green f); Some (blue f);
       elem (canvas_data c) (offset (canvas_width c) x y + 3)].
Proof.
  intros Hwf Ht Hf Hne Hrun x y Hreg.
  assert (He : String.eqb targetColor fillColor = false).
  { destruct (String.eqb targetColor fillColor) eqn:E; [|reflexivity].
    apply String.eqb_eq in E. subst. congruence. }
  rewrite (floodFill_unfold _ _ _ _ _ _ t f He Ht Hf) in Hrun.
  rewrite (snapshot_data c Hwf) in Hrun.
  destruct (floodFill_loop _ _ _ _ _ _ _) as [d|] eqn:Hloop; [|discriminate].
  injection Hrun as <-.
  pose proof Hwf as (Hw & Hh & Hlen).
  pose proof (floodFill_loop_fills (canvas_width c) (canvas_height c) t f
                (canvas_data c) (mkPoint startX startY) Hw Hlen
                (hexToRgb_range _ _ Hf) fuel (canvas_data c)
                [mkPoint startX startY] d
                (fill_inv_start _ _ _ _ _ _ Hne) Hloop) as Hinv.
  pose proof Hinv as (Hl & _).
  destruct (fill_inv_done _ _ _ _ _ _ d (mkPoint x y) Hinv Hreg) as [Hc Ha].
  unfold canvasPixel.
  rewrite putImageData_full; [| exact Hwf | reflexivity | reflexivity | exact Hl].
  simpl data. simpl canvas_width. unfold pixelAt.
  apply matchesRGB_elems in Hc as (E0 & E1 & E2).
  simpl px in *. simpl py in *.
  rewrite E0, E1, E2, Ha. reflexivity.
Qed.

Lemma hasRGB_of_pixel c x y r g b a :
  canvasPixel c x y = [Some r; Some g; Some b; a] ->
  hasRGB (canvas_width c) (canvas_data c) (mkRGB r g b) (mkPoint x y).
Proof.
  unfold canvasPixel, pixelAt, hasRGB, matchesRGB. simpl px. simpl py.
  intros [= -> -> -> _]. simpl. rewrite !Z.eqb_refl. reflexivity.
Qed.

Lemma pixel_of_hasRGB c x y t :
  hasRGB (canvas_width c) (canvas_data c) t (mkPoint x y) ->
  canvasPixel c x y
  = [Some (red t); Some (green t); Some (blue t);
     elem (canvas_data c) (offset (canvas_width c) x y + 3)].
Proof.
  unfold hasRGB. simpl px. simpl py. intros H.
  apply matchesRGB_elems in H as (E0 & E1 & E2).
  unfold canvasPixel, pixelAt. rewrite E0, E1, E2. reflexivity.
Qed.

End FillMore.

(** * Further properties of the code *)

(** X1.  Whatever has been captured before, the history holds between 1
    and 50 entries after a capture. *)
Theorem saveToHistory_bounded (now : Z) (s : State) :
  (1 <= length (history (saveToHistory now s)) <= 50)%nat.
Proof.
  rewrite history_saveToHistory.
  rewrite (length_slice_from_neg _ 50) by lia.
  rewrite length_app. simpl length. lia.
Qed.

(** X2.  A capture made while the index points into the list, with
    fewer than 50 entries up to the index, drops the entries after the
    index and appends the snapshot: the index is then on the last entry
    and there is nothing left to redo. *)
Theorem saveToHistory_prunes_redo (now : Z) (s : State) :
  -1 <= historyIndex s < Z.of_nat (length (history s)) ->
  historyIndex s + 1 < 50 ->
  history (saveToHistory now s)
  = take (Z.to_nat (historyIndex s + 1)) (history s)
    ++ [mkHistoryEntry (snapshot (canvas s)) now] /\
  historyIndex (saveToHistory now s)
  = Z.of_nat (length (history (saveToHistory now s))) - 1 /\
  redo (saveToHistory now s) = Returned (saveToHistory now s).
Proof.
  intros Hi Hcap.
  assert (Hh : history (saveToHistory now s)
               = take (Z.to_nat (historyIndex s + 1)) (history s)
                 ++ [mkHistoryEntry (snapshot (canvas s)) now]).
  { rewrite history_saveToHistory, slice_prefix_take by lia.
    rewrite (slice_from_neg _ 50) by lia.
    rewrite length_app, length_take. simpl length.
    replace (_ - Z.to_nat 50)%nat with 0%nat by lia. apply drop_0. }
  assert (Hidx : historyIndex (saveToHistory now s)
                 = Z.of_nat (length (history (saveToHistory now s))) - 1).
  { rewrite Hh, historyIndex_saveToHistory, length_app, length_take.
    simpl length. lia. }
  split; [exact Hh|]. split; [exact Hidx|].
  apply redo_guard. lia.
Qed.

Lemma saveToHistory_prunes_redo_witness :
  -1 <= historyIndex (mount 0 initialState)
     < Z.of_nat (length (history (mount 0 initialState))) /\
  historyIndex (mount 0 initialState) + 1 < 50 /\
  redo (saveToHistory 1 (mount 0 initialState))
  = Returned (saveToHistory 1 (mount 0 initialState)).
Proof.
  assert (H1 : -1 <= historyIndex (mount 0 initialState)
               < Z.of_nat (length (history (mount 0 initialState))))
    by (rewrite mount_index, mount_history; simpl; lia).
  assert (H2 : historyIndex (mount 0 initialState) + 1 < 50)
    by (rewrite mount_index; lia).
  split; [exact H1|]. split; [exact H2|].
  exact (proj2 (proj2 (saveToHistory_prunes_redo 1 (mount 0 initialState) H1 H2))).
Defined.

(** X3.  When [undo] and [redo] fail.  [undo] raises its [TypeError]
    exactly when the index is beyond the length of the list, [redo]
    exactly when the index is below -1; with the index in between, both
    return. *)
Theorem undo_redo_throw_exactly (s : State) :
  (undo s = Threw TypeError <-> Z.of_nat (length (history s)) < historyIndex s) /\
  (redo s = Threw TypeError <-> historyIndex s < -1).
Proof.
  split.
  - unfold undo. destruct (historyIndex s <=? 0) eqn:E; zbool.
    + split; [discriminate | lia].
    + destruct (elem (history s) (historyIndex s - 1)) as [e|] eqn:He.
      * split; [discriminate|]. apply elem_Some_range in He. lia.
      * split; [|reflexivity]. intros _.
        destruct (Z_lt_le_dec (Z.of_nat (length (history s))) (historyIndex s))
          as [Hlt|Hle]; [exact Hlt|].
        destruct (elem_is_Some (history s) (historyIndex s - 1) ltac:(lia)) as [e He'].
        congruence.
  - unfold redo. destruct (historyIndex s >=? _) eqn:E; zbool.
    + split; [discriminate | lia].
    + destruct (elem (history s) (historyIndex s + 1)) as [e|] eqn:He.
      * split; [discriminate|]. apply elem_Some_range in He. lia.
      * split; [|reflexivity]. intros _.
        destruct (Z_lt_le_dec (historyIndex s) (-1)) as [Hlt|Hle]; [exact Hlt|].
        destruct (elem_is_Some (history s) (historyIndex s + 1) ltac:(lia)) as [e He'].
        congruence.
Qed.

(** X4.  Undo then redo.  With the index on an entry that has a
    predecessor, both of the size of the canvas, [undo] puts the pixels of
    the predecessor on the canvas and moves the index down; [redo] then
    puts the pixels of the entry back and moves the index up again; the
    list of entries is the same throughout. *)
Theorem undo_then_redo (s : State) (e0 e1 : HistoryEntry) :
  wf_canvas (canvas s) ->
  0 < historyIndex s ->
  elem (history s) (historyIndex s - 1) = Some e0 ->
  elem (history s) (historyIndex s) = Some e1 ->
  fits (canvas s) e0 -> fits (canvas s) e1 ->
  exists s1 s2,
    undo s = Returned s1 /\
    canvas_data (canvas s1) = data (imageData e0) /\
    historyIndex s1 = historyIndex s - 1 /\
    history s1 = history s /\
    redo s1 = Returned s2 /\
    canvas_data (canvas s2) = data (imageData e1) /\
    historyIndex s2 = historyIndex s /\
    history s2 = history s.
Proof.
  intros Hwf Hpos He0 He1 (Hw0 & Hh0 & Hl0) (Hw1 & Hh1 & Hl1).
  set (c1 := putImageData (canvas s) (imageData e0) 0 0).
  set (s1 := saveCanvas (setHistoryIndex (set_canvas s c1) (historyIndex s - 1))).
  assert (Hc1 : canvas_data c1 = data (imageData e0))
    by (apply putImageData_full; assumption).
  assert (Hwf1 : wf_canvas c1) by (apply putImageData_wf; exact Hwf).
  assert (Hi1 : historyIndex s1 = historyIndex s - 1) by reflexivity.
  assert (Hh : history s1 = history s) by reflexivity.
  assert (Hcan : canvas s1 = c1) by reflexivity.
  pose proof (elem_Some_range _ _ _ He1) as Hr.
  exists s1.
  exists (saveCanvas (setHistoryIndex
            (set_canvas s1 (putImageData c1 (imageData e1) 0 0)) (historyIndex s))).
  split; [exact (undo_step s e0 Hpos He0)|].
  split; [exact Hc1|]. split; [exact Hi1|]. split; [exact Hh|].
  split.
  - rewrite (redo_step s1 e1).
    + rewrite Hcan, Hi1. replace (historyIndex s - 1 + 1) with (historyIndex s) by lia.
      reflexivity.
    + rewrite Hi1, Hh. lia.
    + rewrite Hi1, Hh. replace (historyIndex s - 1 + 1) with (historyIndex s) by lia.
      exact He1.
  - split; [|split; reflexivity].
    change (canvas_data (putImageData c1 (imageData e1) 0 0) = data (imageData e1)).
    apply putImageData_full; [exact Hwf1 | exact Hw1 | exact Hh1 |].
    rewrite Hl1. unfold c1, putImageData. simpl canvas_data.
    rewrite length_imap. reflexivity.
Qed.

Lemma undo_then_redo_witness :
  let s := capture (mount 0 initialState) (twoRedPixels, 1) in
  let e0 := mkHistoryEntry (snapshot whiteCanvas) 0 in
  let e1 := entryOf (twoRedPixels, 1) in
  wf_canvas (canvas s) /\ 0 < historyIndex s /\
  elem (history s) (historyIndex s - 1) = Some e0 /\
  elem (history s) (historyIndex s) = Some e1 /\
  fits (canvas s) e0 /\ fits (canvas s) e1 /\
  exists s1 s2,
    undo s = Returned s1 /\ canvas_data (canvas s1) = data (snapshot whiteCanvas) /\
    redo s1 = Returned s2 /\ canvas_data (canvas s2) = data (snapshot twoRedPixels).
Proof.
  intros s e0 e1.
  destruct two_captures as (Hc & Hi & Hh). fold s in Hc, Hi, Hh.
  assert (Hwf : wf_canvas (canvas s)) by (rewrite Hc; exact twoRedPixels_wf).
  assert (Hpos : 0 < historyIndex s) by (rewrite Hi; lia).
  assert (He0 : elem (history s) (historyIndex s - 1) = Some e0)
    by (rewrite Hi, Hh; reflexivity).
  assert (He1 : elem (history s) (historyIndex s) = Some e1)
    by (rewrite Hi, Hh; reflexivity).
  assert (Hf0 : fits (canvas s) e0).
  { rewrite Hc. unfold fits, e0. simpl imageData.
    split; [reflexivity|]. split; [reflexivity|].
    rewrite (snapshot_data _ whiteCanvas_wf).
    destruct twoRedPixels_wf as (_ & _ & H2). destruct whiteCanvas_wf as (_ & _ & H1).
    apply Nat2Z.inj. rewrite H1, H2. reflexivity. }
  assert (Hf1 : fits (canvas s) e1).
  { rewrite Hc. unfold fits, e1, entryOf. simpl imageData.
    split; [reflexivity|]. split; [reflexivity|].
    rewrite (snapshot_data _ twoRedPixels_wf). reflexivity. }
  split; [exact Hwf|]. split; [exact Hpos|]. split; [exact He0|].
  split; [exact He1|]. split; [exact Hf0|]. split; [exact Hf1|].
  destruct (undo_then_redo s e0 e1 Hwf Hpos He0 He1 Hf0 Hf1)
    as (s1 & s2 & Hu & Hc1 & _ & _ & Hr & Hc2 & _ & _).
  exists s1, s2.
  split; [exact Hu|]. split; [exact Hc1|]. split; [exact Hr|]. exact Hc2.
Defined.

(** X5.  Flood fill fills the whole region.  When the target and the
    fill colour are different colours, the fill returns (with enough
    fuel), and in the canvas it returns every pixel of the 4-connected
    region of target-coloured pixels around the seed has the red, green
    and blue of the fill colour and the alpha it had before. *)
Theorem floodFill_fills_region (c : Canvas) (startX startY : Z)
    (targetColor fillColor : string) (t f : RGB) :
  wf_canvas c ->
  hexToRgb targetColor = Some t -> hexToRgb fillColor = Some f -> t <> f ->
  (exists fuel c', floodFill fuel c startX startY targetColor fillColor = Some c') /\
  forall fuel c',
    floodFill fuel c startX startY targetColor fillColor = Some c' ->
    forall x y,
      fillRegion c targetColor (mkPoint startX startY) (mkPoint x y) ->
      canvasPixel c' x y
      = [Some (red f); Some (green f); Some (blue f);
         elem (canvas_data c) (offset (canvas_width c) x y + 3)].
Proof.
  intros Hwf Ht Hf Hne. split.
  { apply floodFill_total; [exact Hwf|]. right. congruence. }
  intros fuel c' Hrun x y (t' & Ht' & Hreg).
  assert (t' = t) by congruence. subst t'.
  assert (He : String.eqb targetColor fillColor = false).
  { destruct (String.eqb targetColor fillColor) eqn:E; [|reflexivity].
    apply String.eqb_eq in E. subst. congruence. }
  rewrite (floodFill_unfold _ _ _ _ _ _ t f He Ht Hf) in Hrun.
  rewrite (snapshot_data c Hwf) in Hrun.
  destruct (floodFill_loop _ _ _ _ _ _ _) as [d|] eqn:Hloop; [|discriminate].
  injection Hrun as <-.
  pose proof Hwf as (Hw & Hh & Hlen).
  pose proof (floodFill_loop_fills (canvas_width c) (canvas_height c) t f
                (canvas_data c) (mkPoint startX startY) Hw Hlen
                (hexToRgb_range _ _ Hf) fuel (canvas_data c)
                [mkPoint startX startY] d
                (fill_inv_start _ _ _ _ _ _ Hne) Hloop) as Hinv.
  pose proof Hinv as (Hl & _).
  destruct (fill_inv_done _ _ _ _ _ _ d (mkPoint x y) Hinv Hreg) as [Hc Ha].
  unfold canvasPixel.
  rewrite putImageData_full; [| exact Hwf | reflexivity | reflexivity | exact Hl].
  simpl data. simpl canvas_width. unfold pixelAt.
  apply matchesRGB_elems in Hc as (E0 & E1 & E2).
  simpl px in *. simpl py in *.
  rewrite E0, E1, E2, Ha. reflexivity.
Qed.

Lemma floodFill_fills_region_witness :
  wf_canvas twoRedPixels /\
  hexToRgb "#ff0000" = Some (mkRGB 255 0 0) /\
  hexToRgb "#000000" = Some (mkRGB 0 0 0) /\
  mkRGB 255 0 0 <> mkRGB 0 0 0 /\
  exists fuel c',
    floodFill fuel twoRedPixels 0 0 "#ff0000" "#000000" = Some c' /\
    canvasPixel c' 1 0 = [Some 0; Some 0; Some 0; Some 255].
Proof.
  assert (Hne : mkRGB 255 0 0 <> mkRGB 0 0 0) by discriminate.
  split; [exact twoRedPixels_wf|]. split; [reflexivity|]. split; [reflexivity|].
  split; [exact Hne|].
  destruct (floodFill_fills_region twoRedPixels 0 0 "#ff0000" "#000000"
              (mkRGB 255 0 0) (mkRGB 0 0 0) twoRedPixels_wf eq_refl eq_refl Hne)
    as [(fuel & c' & Hrun) Hfill].
  exists fuel, c'. split; [exact Hrun|].
  assert (Halpha : elem (canvas_data twoRedPixels)
                     (offset (canvas_width twoRedPixels) 1 0 + 3) = Some 255)
    by (vm_compute; reflexivity).
  rewrite <- Halpha.
  apply (Hfill fuel c' Hrun 1 0).
  exists (mkRGB 255 0 0). split; [reflexivity|].
  apply (region_step _ _ _ _ _ (mkPoint 0 0) (mkPoint 1 0)).
  - apply region_seed; [unfold inside; simpl; lia | vm_compute; reflexivity].
  - unfold adjacent. simpl. lia.
  - unfold inside. simpl. lia.
  - vm_compute. reflexivity.
Defined.

(** X6.  Set, then get.  After [drawPixel] at a pixel of the canvas with
    a colour the canvas accepts, [getPixelColor] at that pixel returns the
    colour, spelt in lower case, and [hexToRgb] reads the same three bytes
    back; at every other pixel [getPixelColor] returns what it returned
    before. *)
Theorem drawPixel_then_getPixelColor (c : Canvas) (x y : Z) (color : string)
    (rgb : RGB) :
  wf_canvas c -> inCanvas c x y = true -> cssColor color = Some rgb ->
  getPixelColor (drawPixel c x y color) x y = hexColor rgb /\
  hexToRgb (getPixelColor (drawPixel c x y color) x y) = Some rgb /\
  forall u v, inCanvas c u v = true -> u <> x \/ v <> y ->
    getPixelColor (drawPixel c x y color) u v = getPixelColor c u v.
Proof.
  intros Hwf Hxy Hcol.
  destruct (drawPixel_dims c x y color) as [Hw Hh].
  assert (Hin : forall u v, inCanvas (drawPixel c x y color) u v = inCanvas c u v)
    by (intros u v; apply inCanvas_dims; assumption).
  assert (Hhere : getPixelColor (drawPixel c x y color) x y = hexColor rgb).
  { destruct rgb as [r g b].
    apply (getPixelColor_inside _ x y r g b (Some 255)); [rewrite Hin; exact Hxy|].
    rewrite (drawPixel_pixel c x y color _ x y Hwf Hcol Hxy).
    rewrite Hxy, !Z.eqb_refl. reflexivity. }
  split; [exact Hhere|]. split.
  - rewrite Hhere. apply hexToRgb_hexColor. eapply cssColor_range. exact Hcol.
  - intros u v Huv Hne.
    destruct (canvas_elem_Some c u v 0 Hwf Huv ltac:(lia)) as [r Hr].
    destruct (canvas_elem_Some c u v 1 Hwf Huv ltac:(lia)) as [g Hg].
    destruct (canvas_elem_Some c u v 2 Hwf Huv ltac:(lia)) as [b Hb].
    rewrite Z.add_0_r in Hr.
    assert (Hold : canvasPixel c u v
                   = [Some r; Some g; Some b;
                      elem (canvas_data c) (offset (canvas_width c) u v + 3)]).
    { unfold canvasPixel, pixelAt. rewrite Hr, Hg, Hb. reflexivity. }
    rewrite (getPixelColor_inside c u v r g b _ Huv Hold).
    apply (getPixelColor_inside _ u v r g b
             (elem (canvas_data c) (offset (canvas_width c) u v + 3)));
      [rewrite Hin; exact Huv|].
    rewrite (drawPixel_pixel c x y color _ u v Hwf Hcol Huv).
    assert (Hf : inCanvas c x y && (u =? x) && (v =? y) = false).
    { rewrite <- andb_assoc. apply andb_false_iff. right.
      apply andb_false_iff. rewrite !Z.eqb_neq. exact Hne. }
    rewrite Hf. exact Hold.
Qed.

Lemma drawPixel_then_getPixelColor_witness :
  wf_canvas whiteCanvas /\ inCanvas whiteCanvas 3 3 = true /\
  cssColor "#FF0000" = Some (mkRGB 255 0 0) /\
  getPixelColor (drawPixel whiteCanvas 3 3 "#FF0000") 3 3 = "#ff0000"%string.
Proof.
  split; [exact whiteCanvas_wf|]. split; [reflexivity|]. split; [reflexivity|].
  exact (proj1 (drawPixel_then_getPixelColor whiteCanvas 3 3 "#FF0000" (mkRGB 255 0 0)
                  whiteCanvas_wf eq_refl eq_refl)).
Defined.

(** X7.  [drawRect] on a canvas, with a colour the canvas accepts: a
    pixel of the canvas becomes opaque and of that colour when it lies in
    the closed rectangle spanned by the two corners (given in any order)
    and, in outline mode, on one of its four edges; every other pixel
    keeps its value. *)
Theorem drawRect_pixels (c : Canvas) (x0 y0 x1 y1 : Z) (color : string)
    (rgb : RGB) (filled : bool) :
  wf_canvas c -> cssColor color = Some rgb ->
  forall u v, inCanvas c u v = true ->
    canvasPixel (drawRect c x0 y0 x1 y1 color filled) u v =
      if (Z.min x0 x1 <=? u) && (u <=? Z.max x0 x1)
         && (Z.min y0 y1 <=? v) && (v <=? Z.max y0 y1)
         && (filled || (u =? Z.min x0 x1) || (u =? Z.max x0 x1)
             || (v =? Z.min y0 y1) || (v =? Z.max y0 y1))
      then opaque rgb
      else canvasPixel c u v.
Proof.
  intros Hwf Hcol u v Huv.
  set (l := Z.min x0 x1). set (r := Z.max x0 x1).
  set (t := Z.min y0 y1). set (b := Z.max y0 y1).
  assert (Hlr : l <= r) by (unfold l, r; lia).
  assert (Htb : t <= b) by (unfold t, b; lia).
  destruct filled.
  - rewrite drawRect_filled. fold l r t b.
    destruct (paint_pixel_cases color rgb (filledPoints l r t b) c u v Hwf Hcol Huv)
      as [Hyes Hno].
    rewrite in_filledPoints in Hyes, Hno.
    destruct ((l <=? u) && (u <=? r) && (t <=? v) && (v <=? b)) eqn:E; simpl.
    + zbool. apply Hyes. lia.
    + apply Hno. intros [H1 H2].
      rewrite !andb_false_iff, !Z.leb_gt in E. lia.
  - rewrite drawRect_outline. fold l r t b.
    destruct (paint_pixel_cases color rgb (outlinePoints l r t b) c u v Hwf Hcol Huv)
      as [Hyes Hno].
    rewrite (in_outlinePoints l r t b u v Hlr Htb) in Hyes, Hno.
    destruct ((l <=? u) && (u <=? r) && (t <=? v) && (v <=? b)
              && (false || (u =? l) || (u =? r) || (v =? t) || (v =? b))) eqn:E.
    + apply Hyes.
      rewrite !andb_true_iff, !orb_true_iff, !Z.leb_le, !Z.eqb_eq in E.
      destruct E as [[[[? ?] ?] ?] [[[[?|?]|?]|?]|?]]; try discriminate; lia.
    + apply Hno. intros (H1 & H2 & H3).
      rewrite !andb_false_iff, !orb_false_iff, !Z.leb_gt, !Z.eqb_neq in E. lia.
Qed.

Lemma drawRect_pixels_witness :
  wf_canvas whiteCanvas /\ cssColor "#FF0000" = Some (mkRGB 255 0 0) /\
  inCanvas whiteCanvas 4 2 = true /\ inCanvas whiteCanvas 4 3 = true /\
  canvasPixel (drawRect whiteCanvas 6 5 2 2 "#FF0000" false) 4 2
  = opaque (mkRGB 255 0 0) /\
  canvasPixel (drawRect whiteCanvas 6 5 2 2 "#FF0000" false) 4 3
  = canvasPixel whiteCanvas 4 3.
Proof.
  split; [exact whiteCanvas_wf|]. split; [reflexivity|].
  split; [reflexivity|]. split; [reflexivity|]. split.
  - exact (drawRect_pixels whiteCanvas 6 5 2 2 "#FF0000" (mkRGB 255 0 0) false
             whiteCanvas_wf eq_refl 4 2 eq_refl).
  - exact (drawRect_pixels whiteCanvas 6 5 2 2 "#FF0000" (mkRGB 255 0 0) false
             whiteCanvas_wf eq_refl 4 3 eq_refl).
Defined.

(** X8.  The outline branch of [drawCircle].  With more iterations
    allowed than the radius, the loop ends; the canvas keeps its
    dimensions; every pixel is afterwards either opaque and of the chosen
    colour or as it was; a pixel farther than [radius + 1] from the centre,
    along x or along y, keeps its value; and the four points at distance
    [radius] from the centre on its row and on its column are painted when
    they are on the canvas. *)
Theorem drawCircle_outline_extent (fuel : nat) (c : Canvas) (cx cy radius : Z)
    (color : string) (rgb : RGB) :
  wf_canvas c -> cssColor color = Some rgb ->
  0 <= radius -> radius < Z.of_nat fuel ->
  exists c',
    drawCircle fuel c cx cy radius color false = Some c' /\
    canvas_width c' = canvas_width c /\ canvas_height c' = canvas_height c /\
    forall u v, inCanvas c u v = true ->
      (canvasPixel c' u v = opaque rgb \/ canvasPixel c' u v = canvasPixel c u v) /\
      (radius + 1 < Z.abs (u - cx) \/ radius + 1 < Z.abs (v - cy) ->
       canvasPixel c' u v = canvasPixel c u v) /\
      (onCanvasSize (mkPoint u v) = true ->
       (u = cx /\ Z.abs (v - cy) = radius) \/ (v = cy /\ Z.abs (u - cx) = radius) ->
       canvasPixel c' u v = opaque rgb).
Proof.
  intros Hwf Hcol Hr Hfuel. rewrite drawCircle_outline.
  destruct (circleSteps_total fuel 0 radius (3 - 2 * radius) ltac:(lia)) as [l Hl].
  rewrite Hl. cbn [option_map].
  set (ps := flat_map _ _).
  exists (paint color ps c). split; [reflexivity|].
  destruct (paint_dims color ps c) as [Hw Hh].
  split; [exact Hw|]. split; [exact Hh|].
  intros u v Huv.
  destruct (paint_pixel_cases color rgb ps c u v Hwf Hcol Huv) as [Hyes Hno].
  assert (Hnear : In (mkPoint u v) ps ->
                  Z.abs (u - cx) <= radius + 1 /\ Z.abs (v - cy) <= radius + 1).
  { unfold ps. rewrite in_flat_map. intros (xy & Hxy & Hp).
    apply filter_In in Hp. destruct Hp as [Hp _].
    assert (Hb : 0 <= fst xy <= radius + 1 /\ -1 <= snd xy <= radius).
    { destruct Hxy as [<-|Hxy]; [simpl; lia|].
      exact (circleSteps_range radius fuel 0 radius _ l ltac:(lia) ltac:(lia) Hl xy Hxy). }
    exact (octants_near cx cy (fst xy) (snd xy) (radius + 1) (mkPoint u v)
             ltac:(lia) ltac:(lia) Hp). }
  split; [|split].
  - destruct (in_dec point_eq_dec (mkPoint u v) ps) as [Hin|Hout];
      [left; exact (Hyes Hin) | right; exact (Hno Hout)].
  - intros Hfar. apply Hno. intros Hin. apply Hnear in Hin. lia.
  - intros Hon Hext. apply Hyes. unfold ps. apply in_flat_map.
    exists (0, radius). split; [left; reflexivity|].
    apply filter_In. split; [|exact Hon].
    unfold octants. cbn [fst snd In].
    destruct Hext as [[-> Hv]|[-> Hu]].
    + destruct (Z_le_dec cy v);
        [left | right; right; left]; f_equal; lia.
    + destruct (Z_le_dec cx u);
        [do 4 right; left | do 5 right; left]; f_equal; lia.
Qed.

Lemma drawCircle_outline_extent_witness :
  wf_canvas whiteCanvas /\ cssColor "#FF0000" = Some (mkRGB 255 0 0) /\
  0 <= 3 /\ 3 < Z.of_nat 4 /\
  exists c', drawCircle 4 whiteCanvas 10 10 3 "#FF0000" false = Some c' /\
             canvasPixel c' 13 10 = opaque (mkRGB 255 0 0) /\
             canvasPixel c' 20 10 = canvasPixel whiteCanvas 20 10.
Proof.
  split; [exact whiteCanvas_wf|]. split; [reflexivity|].
  split; [lia|]. split; [simpl; lia|].
  destruct (drawCircle_outline_extent 4 whiteCanvas 10 10 3 "#FF0000" (mkRGB 255 0 0)
              whiteCanvas_wf eq_refl ltac:(lia) ltac:(simpl; lia))
    as (c' & Hc' & _ & _ & Hpix).
  exists c'. split; [exact Hc'|]. split.
  - apply (Hpix 13 10 eq_refl); [reflexivity | right; split; [reflexivity | reflexivity]].
  - apply (Hpix 20 10 eq_refl). left. simpl. lia.
Defined.

(** X9.  [clearCanvas] with a background colour the canvas accepts: every
    pixel of the canvas becomes opaque and of the background colour, one
    entry is added after the current one, and the stored copy is the new
    canvas. *)
Theorem clearCanvas_pixels (now : Z) (s : State) (rgb : RGB) :
  wf_canvas (canvas s) -> cssColor (backgroundColor s) = Some rgb ->
  (forall u v, inCanvas (canvas s) u v = true ->
     canvasPixel (canvas (clearCanvas now s)) u v = opaque rgb) /\
  historyIndex (clearCanvas now s) = historyIndex s + 1 /\
  canvasData (clearCanvas now s) = Some (snapshot (canvas (clearCanvas now s))) /\
  Js.elem (history (clearCanvas now s))
          (Z.of_nat (length (history (clearCanvas now s))) - 1)
  = Some (mkHistoryEntry (snapshot (canvas (clearCanvas now s))) now).
Proof.
  intros Hwf Hcol.
  pose proof (set_fillStyle_accepts (canvas s) (backgroundColor s) rgb Hcol) as Hfs.
  split; [|split; [|split]].
  - intros u v Huv. unfold clearCanvas. cbv zeta.
    change (canvas (saveCanvas (saveToHistory now (set_canvas s ?c)))) with c.
    rewrite Hfs. apply (fillAll_pixel (mkCanvas _ _ _ rgb)); assumption.
  - reflexivity.
  - reflexivity.
  - unfold clearCanvas. cbv zeta.
    set (c := fillAll _).
    change (history (saveCanvas ?t)) with (history t).
    change (canvas (saveCanvas (saveToHistory now (set_canvas s c)))) with c.
    exact (saveToHistory_last now (set_canvas s c)).
Qed.

Lemma clearCanvas_pixels_witness :
  wf_canvas (canvas initialState) /\
  cssColor (backgroundColor initialState) = Some (mkRGB 255 255 255) /\
  historyIndex (clearCanvas 0 initialState) = 0.
Proof.
  assert (Hwf : wf_canvas (canvas initialState))
    by (unfold wf_canvas; repeat split; reflexivity).
  split; [exact Hwf|]. split; [reflexivity|].
  exact (proj1 (proj2 (clearCanvas_pixels 0 initialState (mkRGB 255 255 255)
                         Hwf eq_refl))).
Defined.

(** X10.  The pixels of a line, in the order in which [drawLine] paints
    them: each one touches the next, by a side or by a corner, and differs
    from it; and all of them lie in the rectangle spanned by the two end
    points. *)
Theorem linePath_connected (fuel : nat) (x0 y0 x1 y1 : Z) (path : list Point) :
  linePath fuel x0 y0 x1 y1 = Some path ->
  chain touching path /\
  forall p, In p path ->
    Z.min x0 x1 <= px p <= Z.max x0 x1 /\ Z.min y0 y1 <= py p <= Z.max y0 y1.
Proof.
  rewrite linePath_steps.
  destruct (lineSteps fuel _ _ _ _ _) as [l|] eqn:E; [|discriminate].
  simpl option_map. intros [= <-].
  assert (Hinv : line_inv (Z.abs (x1 - x0)) (Z.abs (y1 - y0)) 0 0
                   (Z.abs (x1 - x0) - Z.abs (y1 - y0)))
    by (unfold line_inv; lia).
  split.
  - apply (chain_map lineStep).
    + intros ab ab'.
      exact (stepPoint_touching x0 y0 (x0 <? x1) (y0 <? y1) ab ab').
    + exact (lineSteps_chain _ _ fuel 0 0 _ l Hinv E).
  - intros p Hp. apply in_map_iff in Hp. destruct Hp as (ab & <- & Hab).
    pose proof (lineSteps_range _ _ fuel 0 0 _ l Hinv E ab Hab) as [Ha Hb].
    unfold stepPoint. simpl px. simpl py.
    destruct (x0 <? x1) eqn:Ex; destruct (y0 <? y1) eqn:Ey; zbool; lia.
Qed.

Lemma linePath_connected_witness :
  linePath 4 0 0 3 1 = Some [mkPoint 0 0; mkPoint 1 0; mkPoint 2 1; mkPoint 3 1] /\
  chain touching [mkPoint 0 0; mkPoint 1 0; mkPoint 2 1; mkPoint 3 1].
Proof.
  split; [reflexivity|].
  exact (proj1 (linePath_connected 4 0 0 3 1 _ eq_refl)).
Defined.

(** X11.  [getPixelCoords], for a positive zoom: the point it returns is
    always a pixel of the 32x32 canvas, and when the pointer is over the
    canvas it is the pixel under the pointer, the one whose square of
    [zoom] by [zoom] screen units holds the pointer. *)
Theorem getPixelCoords_on_canvas (s : State) (e : MouseEvent) :
  0 < zoom s ->
  onCanvasSize (getPixelCoords s e) = true /\
  (0 <= clientX e - rect_left e < size_width canvasSize * zoom s ->
   zoom s * px (getPixelCoords s e) <= clientX e - rect_left e
   < zoom s * (px (getPixelCoords s e) + 1)) /\
  (0 <= clientY e - rect_top e < size_height canvasSize * zoom s ->
   zoom s * py (getPixelCoords s e) <= clientY e - rect_top e
   < zoom s * (py (getPixelCoords s e) + 1)).
Proof.
  intros Hz.
  assert (Hdiv : forall a, 0 <= a < 32 * zoom s ->
            Z.max 0 (Z.min 31 (a / zoom s)) = a / zoom s /\
            zoom s * (a / zoom s) <= a < zoom s * (a / zoom s + 1)).
  { intros a Ha.
    assert (0 <= a / zoom s) by (apply Z.div_pos; lia).
    assert (a / zoom s < 32) by (apply Z.div_lt_upper_bound; lia).
    pose proof (Z.mul_div_le a (zoom s) Hz).
    pose proof (Z.mul_succ_div_gt a (zoom s) Hz).
    lia. }
  split; [apply onCanvasSize_spec, getPixelCoords_range|].
  unfold getPixelCoords. cbv zeta. simpl px. simpl py.
  change (size_width canvasSize) with 32. change (size_height canvasSize) with 32.
  change (32 - 1) with 31.
  split; intros Ha; destruct (Hdiv _ Ha) as [-> Hb]; exact Hb.
Qed.

Lemma getPixelCoords_on_canvas_witness :
  0 < zoom initialState /\
  getPixelCoords initialState (mkMouseEvent 127 40 100 20) = mkPoint 3 2 /\
  onCanvasSize (getPixelCoords initialState (mkMouseEvent 127 40 100 20)) = true.
Proof.
  split; [reflexivity|]. split; [reflexivity|].
  exact (proj1 (getPixelCoords_on_canvas initialState (mkMouseEvent 127 40 100 20)
                  eq_refl)).
Defined.

(** X12.  Moving the pointer while no button is held, for however long,
    changes nothing but the displayed position, which is that of the last
    move: it neither draws nor captures nor arms the save timer. *)
Theorem hover_only_tracks (moves : list MouseEvent) (e : MouseEvent) :
  forall s : State,
    isDrawing s = false ->
    fold_left handleMouseMove (moves ++ [e]) s = setMousePos s (getPixelCoords s e).
Proof.
  induction moves as [|e0 moves IH]; intros s Hd.
  - simpl. apply handleMouseMove_idle, Hd.
  - simpl fold_left. rewrite (handleMouseMove_idle s e0 Hd).
    rewrite IH by exact Hd. reflexivity.
Qed.

Lemma hover_only_tracks_witness :
  isDrawing initialState = false /\
  mousePos (fold_left handleMouseMove
              [mkMouseEvent 10 10 0 0; mkMouseEvent 90 33 0 0] initialState)
  = mkPoint 11 4.
Proof.
  split; [reflexivity|].
  exact (f_equal mousePos
           (hover_only_tracks [mkMouseEvent 10 10 0 0] (mkMouseEvent 90 33 0 0)
              initialState eq_refl)).
Defined.

(** X13.  A stroke of the pencil or of the eraser: press, any moves,
    release.  The gesture returns; the canvas is the old one with the
    pixels under the press and under the moves painted, in that order,
    with the foreground colour (pencil) or the background colour (eraser),
    and the pixel under the release is not painted for itself; the gesture
    ends the drawing, makes one capture, whose entry is the last of the
    list and holds the new canvas, and stores the new canvas; the save
    timer, when it fires afterwards, stores the same picture again. *)
Theorem stroke_gesture (fuel : nat) (t1 t2 : Z) (s : State)
    (press : MouseEvent) (moves : list MouseEvent) (release : MouseEvent)
    (color : string) :
  0 < zoom s -> strokeColor s = Some color ->
  exists s',
    gesture fuel t1 t2 s press moves release = Some s' /\
    canvas s' = paint color (map (getPixelCoords s) (press :: moves)) (canvas s) /\
    isDrawing s' = false /\
    historyIndex s' = historyIndex s + 1 /\
    Js.elem (history s') (Z.of_nat (length (history s')) - 1)
    = Some (mkHistoryEntry (snapshot (canvas s')) t2) /\
    canvasData s' = Some (snapshot (canvas s')) /\
    canvasData (saveTimeoutFired s') = canvasData s'.
Proof.
  intros _ Hcol. unfold gesture.
  destruct (handleMouseDown_stroke fuel t1 s press color Hcol)
    as (s1 & -> & Hc1 & Hz1 & Ht1 & Hf1 & Hb1 & Hd1 & Hs1 & Hh1 & Hi1).
  set (s2 := fold_left handleMouseMove moves s1).
  pose proof (moves_setup moves s1) as Hset. fold s2 in Hset.
  pose proof Hset as (Hz2 & Ht2 & Hf2 & Hb2 & Hd2 & Hs2 & Hh2 & Hi2 & _).
  assert (Hcol1 : strokeColor s1 = Some color)
    by (unfold strokeColor in *; rewrite Ht1, Hf1, Hb1; exact Hcol).
  pose proof (moves_canvas moves s1 Hd1) as Hc2. fold s2 in Hc2.
  rewrite Hcol1 in Hc2.
  destruct (strokeColor_not_shape s2 color) as (Hn1 & Hn2 & Hn3);
    [rewrite (strokeColor_setup _ _ Hset); exact Hcol1|].
  rewrite (handleMouseUp_captures fuel t2 s2 release ltac:(congruence) Hn1 Hn2 Hn3).
  set (s3 := setIsDrawing (set_canvas s2 (canvas s2)) false).
  exists (saveCanvas (saveToHistory t2 s3)).
  assert (Hcanvas : canvas (saveCanvas (saveToHistory t2 s3)) = canvas s2)
    by reflexivity.
  split; [reflexivity|]. split; [|split; [|split; [|split; [|split]]]].
  - rewrite Hcanvas, Hc2, Hc1.
    rewrite (map_ext (getPixelCoords s1) (getPixelCoords s))
      by (intros e; apply getPixelCoords_zoom, Hz1).
    reflexivity.
  - reflexivity.
  - change (historyIndex (saveCanvas (saveToHistory t2 s3))) with (historyIndex s2 + 1).
    congruence.
  - rewrite Hcanvas. exact (saveToHistory_last t2 s3).
  - reflexivity.
  - unfold saveTimeoutFired.
    destruct (saveTimeout (saveCanvas (saveToHistory t2 s3))); reflexivity.
Qed.

Lemma stroke_gesture_witness :
  0 < zoom initialState /\
  strokeColor initialState = Some "#000000"%string /\
  exists s',
    gesture 0 1 2 initialState (eventAt 1 1) [eventAt 2 1; eventAt 3 2] (eventAt 9 9)
    = Some s' /\
    canvas s' = paint "#000000" [mkPoint 1 1; mkPoint 2 1; mkPoint 3 2]
                  (canvas initialState) /\
    historyIndex s' = 0.
Proof.
  split; [reflexivity|]. split; [reflexivity|].
  destruct (stroke_gesture 0 1 2 initialState (eventAt 1 1)
              [eventAt 2 1; eventAt 3 2] (eventAt 9 9) "#000000" eq_refl eq_refl)
    as (s' & Hg & Hc & _ & Hi & _).
  exists s'. split; [exact Hg|]. split; [exact Hc | exact Hi].
Defined.

(** X14.  A gesture with the line, the rectangle or the circle tool, at
    a positive zoom: press, any moves, release.  With fuel for 63
    iterations the gesture returns, whatever the two points; the moves
    paint nothing; the shape is drawn once, between the pixel under the
    press and the pixel under the release, in the foreground colour (the
    pixels of [linePath]; the outline of [drawRect]; the outline circle
    around the first pixel whose radius is the integer part of the
    distance); and the gesture ends the drawing, makes one capture and
    stores the new canvas. *)
Theorem shape_gesture (fuel : nat) (t1 t2 : Z) (s : State)
    (press : MouseEvent) (moves : list MouseEvent) (release : MouseEvent) :
  0 < zoom s -> (62 < fuel)%nat ->
  activeTool s = line \/ activeTool s = rectangle \/ activeTool s = circle ->
  exists s',
    gesture fuel t1 t2 s press moves release = Some s' /\
    isDrawing s' = false /\
    historyIndex s' = historyIndex s + 1 /\
    canvasData s' = Some (snapshot (canvas s')) /\
    Js.elem (history s') (Z.of_nat (length (history s')) - 1)
    = Some (mkHistoryEntry (snapshot (canvas s')) t2) /\
    let p0 := getPixelCoords s press in
    let p1 := getPixelCoords s release in
    match activeTool s with
    | line =>
        exists path,
          linePath fuel (px p0) (py p0) (px p1) (py p1) = Some path /\
          canvas s' = paint (foregroundColor s) path (canvas s)
    | rectangle =>
        canvas s' = drawRect (canvas s) (px p0) (py p0) (px p1) (py p1)
                      (foregroundColor s) false
    | _ =>
        drawCircle fuel (canvas s) (px p0) (py p0)
          (Z.sqrt ((px p1 - px p0) ^ 2 + (py p1 - py p0) ^ 2))
          (foregroundColor s) false
        = Some (canvas s')
    end.
Proof.
  intros _ Hfuel Htool. unfold gesture.
  destruct (handleMouseDown_shape fuel t1 s press Htool)
    as (s1 & -> & Hc1 & Hz1 & Ht1 & Hf1 & Hd1 & Hs1 & Hh1 & Hi1).
  set (s2 := fold_left handleMouseMove moves s1).
  pose proof (moves_setup moves s1) as Hset. fold s2 in Hset.
  pose proof Hset as (Hz2 & Ht2 & Hf2 & _ & Hd2 & Hs2 & Hh2 & Hi2 & _).
  pose proof (moves_canvas moves s1 Hd1) as Hc2. fold s2 in Hc2.
  rewrite (strokeColor_shape s1) in Hc2 by (rewrite Ht1; exact Htool).
  set (p0 := getPixelCoords s press). set (p1 := getPixelCoords s release).
  destruct (getPixelCoords_range s press) as [Hx0 Hy0].
  destruct (getPixelCoords_range s release) as [Hx1 Hy1].
  fold p0 in Hx0, Hy0, Hs1. fold p1 in Hx1, Hy1.
  assert (Hup : forall drawn c',
            drawn = Some c' ->
            (if negb (isDrawing s2) then Some s2
             else match drawn with
                  | Some c => Some (saveCanvas (saveToHistory t2
                                      (setIsDrawing (set_canvas s2 c) false)))
                  | None => None
                  end)
            = Some (saveCanvas (saveToHistory t2
                      (setIsDrawing (set_canvas s2 c') false)))).
  { intros drawn c' ->. rewrite Hd2, Hd1. reflexivity. }
  assert (Hrest : forall c',
            let s' := saveCanvas (saveToHistory t2
                        (setIsDrawing (set_canvas s2 c') false)) in
            canvas s' = c' /\ isDrawing s' = false /\
            historyIndex s' = historyIndex s + 1 /\
            canvasData s' = Some (snapshot (canvas s')) /\
            Js.elem (history s') (Z.of_nat (length (history s')) - 1)
            = Some (mkHistoryEntry (snapshot (canvas s')) t2)).
  { intros c'. cbv zeta. split; [reflexivity|]. split; [reflexivity|].
    split; [|split; [reflexivity|]].
    - change (historyIndex (saveCanvas (saveToHistory t2
                (setIsDrawing (set_canvas s2 c') false))))
        with (historyIndex s2 + 1). congruence.
    - exact (saveToHistory_last t2 (setIsDrawing (set_canvas s2 c') false)). }
  assert (Hp1 : getPixelCoords s2 release = p1)
    by (apply getPixelCoords_zoom; congruence).
  assert (Hst : startPoint s2 = p0) by congruence.
  assert (Hcv : canvas s2 = canvas s) by congruence.
  assert (Hfg : foregroundColor s2 = foregroundColor s) by congruence.
  assert (Hto : activeTool s2 = activeTool s) by congruence.
  unfold handleMouseUp. cbv zeta. rewrite Hp1, Hst, Hcv, Hfg, Hto.
  destruct Htool as [H|[H|H]]; rewrite H.
  - destruct (linePath_total fuel (px p0) (py p0) (px p1) (py p1) ltac:(lia))
      as [path Hpath].
    pose proof (drawLine_paint fuel (canvas s) (px p0) (py p0) (px p1) (py p1)
                  (foregroundColor s)) as Hdraw.
    rewrite Hpath in Hdraw. simpl option_map in Hdraw.
    rewrite (Hup _ _ Hdraw).
    destruct (Hrest (paint (foregroundColor s) path (canvas s)))
      as (R1 & R2 & R3 & R4 & R5).
    eexists. split; [reflexivity|]. split; [exact R2|]. split; [exact R3|].
    split; [exact R4|]. split; [exact R5|].
    exists path. split; [exact Hpath | exact R1].
  - rewrite (Hup _ _ eq_refl).
    destruct (Hrest (drawRect (canvas s) (px p0) (py p0) (px p1) (py p1)
                       (foregroundColor s) false))
      as (R1 & R2 & R3 & R4 & R5).
    eexists. split; [reflexivity|]. split; [exact R2|]. split; [exact R3|].
    split; [exact R4|]. split; [exact R5|]. exact R1.
  - pose proof (sqrt_distance_bound (px p0) (py p0) (px p1) (py p1)
                  Hx0 Hy0 Hx1 Hy1) as Hr.
    destruct (drawCircle_outline_total fuel (canvas s) (px p0) (py p0)
                (Z.sqrt ((px p1 - px p0) ^ 2 + (py p1 - py p0) ^ 2))
                (foregroundColor s) ltac:(lia)) as [c' Hc'].
    rewrite (Hup _ _ Hc').
    destruct (Hrest c') as (R1 & R2 & R3 & R4 & R5).
    eexists. split; [reflexivity|]. split; [exact R2|]. split; [exact R3|].
    split; [exact R4|]. split; [exact R5|]. rewrite R1. exact Hc'.
Qed.

Lemma shape_gesture_witness :
  0 < zoom initialState /\ (62 < 63)%nat /\
  exists s',
    gesture 63 1 2 (setActiveTool initialState rectangle)
      (eventAt 2 2) [eventAt 3 3] (eventAt 6 5) = Some s' /\
    historyIndex s' = 0 /\
    canvas s' = drawRect (canvas initialState) 2 2 6 5 "#000000" false.
Proof.
  split; [reflexivity|]. split; [lia|].
  destruct (shape_gesture 63 1 2 (setActiveTool initialState rectangle)
              (eventAt 2 2) [eventAt 3 3] (eventAt 6 5) eq_refl ltac:(lia)
              (or_intror (or_introl eq_refl)))
    as (s' & Hg & _ & Hi & _ & _ & Hc).
  exists s'. split; [exact Hg|]. split; [exact Hi | exact Hc].
Defined.

(** X15.  A release after a release does nothing: whatever the first
    [handleMouseUp] returned, a second one (the pointer leaving the canvas
    after the button was let go, say) returns the same state, with no
    further capture. *)
Theorem handleMouseUp_twice (fuel fuel' : nat) (t t' : Z) (s s' : State)
    (e e' : MouseEvent) :
  handleMouseUp fuel t s e = Some s' ->
  handleMouseLeave fuel' t' s' e' = Some s'.
Proof.
  unfold handleMouseLeave, handleMouseUp. cbv zeta.
  destruct (isDrawing s) eqn:Hd; simpl negb; cbv iota.
  - destruct (match activeTool s with
              | line => _ | rectangle => _ | circle => _ | _ => _
              end) as [c|]; [|discriminate].
    intros [= <-]. reflexivity.
  - intros [= <-]. rewrite Hd. reflexivity.
Qed.

Lemma handleMouseUp_twice_witness :
  let s := setIsDrawing initialState true in
  let s' := saveCanvas (saveToHistory 1 (setIsDrawing (set_canvas s (canvas s)) false)) in
  handleMouseUp 0 1 s (eventAt 0 0) = Some s' /\
  handleMouseLeave 0 2 s' (eventAt 40 40) = Some s'.
Proof.
  intros s s'.
  assert (H : handleMouseUp 0 1 s (eventAt 0 0) = Some s') by reflexivity.
  split; [exact H|].
  exact (handleMouseUp_twice 0 0 1 2 s s' (eventAt 0 0) (eventAt 40 40) H).
Defined.

(** X16.  The eyedropper.  On a 32x32 canvas of bytes, at a positive
    zoom, a press with the eyedropper makes the foreground colour the
    six-digit lower-case spelling of the red, green and blue of the pixel
    under the pointer, a colour the canvas accepts and reads back as those
    three bytes; the alpha of the pixel is dropped.  The press changes
    neither the canvas nor the history, and it starts a drawing. *)
Theorem eyedropper_picks_pixel (fuel : nat) (now : Z) (s : State) (e : MouseEvent) :
  0 < zoom s -> activeTool s = eyedropper ->
  wf_canvas (canvas s) -> byteCanvas (canvas s) ->
  canvas_width (canvas s) = size_width canvasSize ->
  canvas_height (canvas s) = size_height canvasSize ->
  exists s' r g b a,
    handleMouseDown fuel now s e = Some s' /\
    canvasPixel (canvas s) (px (getPixelCoords s e)) (py (getPixelCoords s e))
    = [Some r; Some g; Some b; Some a] /\
    foregroundColor s' = hexColor (mkRGB r g b) /\
    cssColor (foregroundColor s') = Some (mkRGB r g b) /\
    canvas s' = canvas s /\ history s' = history s /\
    historyIndex s' = historyIndex s /\ isDrawing s' = true.
Proof.
  intros _ Htool Hwf Hbytes Hw Hh.
  set (p := getPixelCoords s e).
  destruct (getPixelCoords_range s e) as [Hx Hy]. fold p in Hx, Hy.
  assert (Hin : inCanvas (canvas s) (px p) (py p) = true).
  { apply inCanvas_spec. rewrite Hw, Hh.
    change (size_width canvasSize) with 32. change (size_height canvasSize) with 32.
    lia. }
  destruct (canvas_elem_Some (canvas s) (px p) (py p) 0 Hwf Hin ltac:(lia)) as [r Hr].
  destruct (canvas_elem_Some (canvas s) (px p) (py p) 1 Hwf Hin ltac:(lia)) as [g Hg].
  destruct (canvas_elem_Some (canvas s) (px p) (py p) 2 Hwf Hin ltac:(lia)) as [b Hb].
  destruct (canvas_elem_Some (canvas s) (px p) (py p) 3 Hwf Hin ltac:(lia)) as [a Ha].
  pose proof (Hbytes _ _ Hr) as Br. pose proof (Hbytes _ _ Hg) as Bg.
  pose proof (Hbytes _ _ Hb) as Bb.
  rewrite Z.add_0_r in Hr.
  assert (Hpix : canvasPixel (canvas s) (px p) (py p)
                 = [Some r; Some g; Some b; Some a])
    by (unfold canvasPixel, pixelAt; rewrite Hr, Hg, Hb, Ha; reflexivity).
  pose proof (getPixelColor_inside (canvas s) (px p) (py p) r g b (Some a) Hin Hpix)
    as Hcolor.
  assert (Hdown : handleMouseDown fuel now s e
                  = Some (setForegroundColor
                            (setIsDrawing (setCurrentPoint (setStartPoint s p) p) true)
                            (getPixelColor (canvas s) (px p) (py p)))).
  { destruct s as [c z t fg bg d sp cp mp h hi sel cl cd st].
    simpl in Htool. subst t. reflexivity. }
  exists (setForegroundColor
            (setIsDrawing (setCurrentPoint (setStartPoint s p) p) true)
            (getPixelColor (canvas s) (px p) (py p))), r, g, b, a.
  split; [exact Hdown|]. split; [exact Hpix|].
  change (foregroundColor (setForegroundColor _ ?c)) with c.
  rewrite Hcolor.
  split; [reflexivity|].
  split; [apply cssColor_hexColor; unfold byteRGB; simpl; lia|].
  repeat split; reflexivity.
Qed.

Lemma eyedropper_picks_pixel_witness :
  let s := setActiveTool (mount 0 initialState) eyedropper in
  0 < zoom s /\ activeTool s = eyedropper /\
  wf_canvas (canvas s) /\ byteCanvas (canvas s) /\
  canvas_width (canvas s) = size_width canvasSize /\
  canvas_height (canvas s) = size_height canvasSize /\
  exists s', handleMouseDown 0 1 s (eventAt 4 4) = Some s' /\
             cssColor (foregroundColor s') <> None.
Proof.
  intros s.
  split; [reflexivity|]. split; [reflexivity|].
  split; [exact whiteCanvas_wf|]. split; [exact whiteCanvas_bytes|].
  split; [reflexivity|]. split; [reflexivity|].
  destruct (eyedropper_picks_pixel 0 1 s (eventAt 4 4) eq_refl eq_refl
              whiteCanvas_wf whiteCanvas_bytes eq_refl eq_refl)
    as (s' & r & g & b & a & Hd & _ & _ & Hc & _).
  exists s'. split; [exact Hd|]. rewrite Hc. discriminate.
Defined.

(** X17.  The zoom stays between 1 and 16: if it is in that range, it
    still is after any sequence of key presses, and after a click on
    either zoom button. *)
Theorem zoom_stays_in_range (keys : list KeyboardEvent) :
  forall ui : Ui,
    1 <= zoom (editor ui) <= 16 ->
    1 <= zoom (editor (fold_left handleKeyDown keys ui)) <= 16 /\
    1 <= zoom (zoomInButton (editor (fold_left handleKeyDown keys ui))) <= 16 /\
    1 <= zoom (zoomOutButton (editor (fold_left handleKeyDown keys ui))) <= 16.
Proof.
  assert (Hbuttons : forall s, 1 <= zoom s <= 16 ->
            1 <= zoom s <= 16 /\ 1 <= zoom (zoomInButton s) <= 16 /\
            1 <= zoom (zoomOutButton s) <= 16).
  { intros s Hs. split; [exact Hs|].
    unfold zoomInButton, zoomOutButton. simpl zoom. lia. }
  induction keys as [|k keys IH]; intros ui Hz; [exact (Hbuttons _ Hz)|].
  simpl fold_left. apply IH.
  destruct (handleKeyDown_cases ui k) as [[_ H]|[_ H]].
  - destruct H as [-> | [-> | ->]]; [exact Hz | |].
    + rewrite (proj1 (undo_settle_setup _)). exact Hz.
    + rewrite (proj1 (redo_settle_setup _)). exact Hz.
  - destruct H as [-> | [[t ->] | [-> | ->]]]; simpl zoom; lia.
Qed.

Lemma zoom_stays_in_range_witness :
  1 <= zoom (editor (mkUi initialState false (mkPoint 0 0) false (mkPoint 0 0))) <= 16 /\
  1 <= zoom (editor (fold_left handleKeyDown
                       (repeat (mkKeyboardEvent "+" false false false) 20)
                       (mkUi initialState false (mkPoint 0 0) false (mkPoint 0 0)))) <= 16.
Proof.
  assert (H : 1 <= zoom (editor (mkUi initialState false (mkPoint 0 0) false
                                   (mkPoint 0 0))) <= 16) by (simpl; lia).
  split; [exact H|].
  exact (proj1 (zoom_stays_in_range (repeat (mkKeyboardEvent "+" false false false) 20)
                  _ H)).
Defined.

(** X18.  What a key press leaves alone.  No key press changes the list
    of history entries; and a key pressed without Ctrl and without Meta
    changes neither the canvas, nor the index, nor the stored copy, nor
    the state of the pointer. *)
Theorem handleKeyDown_keeps_picture (ui : Ui) (k : KeyboardEvent) :
  history (editor (handleKeyDown ui k)) = history (editor ui) /\
  (ctrlKey k = false -> metaKey k = false ->
   canvas (editor (handleKeyDown ui k)) = canvas (editor ui) /\
   historyIndex (editor (handleKeyDown ui k)) = historyIndex (editor ui) /\
   canvasData (editor (handleKeyDown ui k)) = canvasData (editor ui) /\
   isDrawing (editor (handleKeyDown ui k)) = isDrawing (editor ui) /\
   startPoint (editor (handleKeyDown ui k)) = startPoint (editor ui)).
Proof.
  destruct (handleKeyDown_cases ui k) as [[Hc H]|[Hc H]].
  - split.
    + destruct H as [-> | [-> | ->]]; [reflexivity | |].
      * exact (proj2 (undo_settle_setup _)).
      * exact (proj2 (redo_settle_setup _)).
    + intros H1 H2. rewrite H1, H2 in Hc. discriminate.
  - split.
    + destruct H as [-> | [[t ->] | [-> | ->]]]; reflexivity.
    + intros _ _. destruct H as [-> | [[t ->] | [-> | ->]]]; repeat split; reflexivity.
Qed.

Lemma handleKeyDown_keeps_picture_witness :
  let ui := mkUi initialState false (mkPoint 50 50) false (mkPoint 0 0) in
  let k := mkKeyboardEvent "3" false false false in
  ctrlKey k = false /\ metaKey k = false /\
  activeTool (editor (handleKeyDown ui k)) = fill /\
  canvas (editor (handleKeyDown ui k)) = canvas (editor ui).
Proof.
  intros ui k. split; [reflexivity|]. split; [reflexivity|].
  split; [reflexivity|].
  exact (proj1 (proj2 (handleKeyDown_keeps_picture ui k) eq_refl eq_refl)).
Defined.


(** X20.  Dragging the window by its title bar: after a press on the
    title bar and any number of moves, the window has moved by exactly as
    much as the pointer has between the press and the last move, and the
    editor is untouched; once the button is released, moves no longer
    move the window. *)
Theorem window_drag (ui : Ui) (press : MouseEvent) (moves : list MouseEvent)
    (e : MouseEvent) :
  let ui' := fold_left windowMouseMove (moves ++ [e])
               (handleTitleBarMouseDown ui press) in
  windowPos ui' = mkPoint (px (windowPos ui) + (clientX e - clientX press))
                          (py (windowPos ui) + (clientY e - clientY press)) /\
  editor ui' = editor ui /\
  forall e', windowMouseMove (windowMouseUp ui') e' = windowMouseUp ui'.
Proof.
  cbv zeta. rewrite fold_left_app. simpl fold_left.
  set (ui0 := handleTitleBarMouseDown ui press).
  destruct (windowMouseMoves_held moves ui0 eq_refl) as (Hd & Hs & He & _).
  set (ui1 := fold_left windowMouseMove moves ui0) in *.
  destruct (windowMouseMove_held ui1 e Hd) as (Hp & _ & _ & He' & _).
  split; [|split].
  - rewrite Hp, Hs. unfold ui0, handleTitleBarMouseDown. simpl. f_equal; lia.
  - rewrite He', He. reflexivity.
  - intros e'. reflexivity.
Qed.

(** X21.  Capture, draw, capture, undo, redo.  Below the capacity of the
    history, and with the index on an entry (or at -1 with no entry):
    after a capture of the canvas, any drawing that keeps the dimensions,
    and a second capture, [undo] brings back the pixels of the first
    capture and puts the index on it, and [redo] then brings back the
    pixels of the second. *)
Theorem undo_after_capture (t t' : Z) (s : State) (c' : Canvas) :
  wf_canvas (canvas s) -> wf_canvas c' ->
  canvas_width c' = canvas_width (canvas s) ->
  canvas_height c' = canvas_height (canvas s) ->
  -1 <= historyIndex s < Z.of_nat (length (history s)) ->
  historyIndex s + 2 < 50 ->
  exists s3 s4,
    undo (saveToHistory t' (set_canvas (saveToHistory t s) c')) = Returned s3 /\
    canvas_data (canvas s3) = canvas_data (canvas s) /\
    historyIndex s3 = historyIndex s + 1 /\
    redo s3 = Returned s4 /\
    canvas_data (canvas s4) = canvas_data c' /\
    historyIndex s4 = historyIndex s + 2.
Proof.
  intros Hwf Hwf' Hw Hh Hi Hcap.
  set (A := mkHistoryEntry (snapshot (canvas s)) t).
  set (B := mkHistoryEntry (snapshot c') t').
  set (s1 := set_canvas (saveToHistory t s) c').
  set (s2 := saveToHistory t' s1).
  destruct (history_saveToHistory_take t s Hi ltac:(lia)) as [Hh1 Hl1].
  assert (Hi1 : historyIndex s1 = historyIndex s + 1) by reflexivity.
  assert (Hhs1 : history s1 = history (saveToHistory t s)) by reflexivity.
  destruct (history_saveToHistory_take t' s1) as [Hh2 Hl2];
    [rewrite Hi1, Hhs1, Hl1; lia | rewrite Hi1; lia |].
  fold s2 in Hh2, Hl2.
  change (canvas s1) with c' in Hh2. fold B in Hh2.
  rewrite Hi1, Hhs1 in Hh2.
  rewrite take_ge in Hh2 by (rewrite Hl1; lia).
  rewrite Hh1 in Hh2. fold A in Hh2.
  set (pre := take (Z.to_nat (historyIndex s + 1)) (history s)) in *.
  assert (Hpre : length pre = Z.to_nat (historyIndex s + 1))
    by (unfold pre; rewrite length_take; lia).
  assert (Hi2 : historyIndex s2 = historyIndex s + 2)
    by (change (historyIndex s2) with (historyIndex s1 + 1); lia).
  assert (Hc2 : canvas s2 = c') by reflexivity.
  assert (HA : elem (history s2) (historyIndex s2 - 1) = Some A).
  { rewrite Hi2, Hh2, elem_lookup by lia.
    rewrite <- app_assoc.
    replace (Z.to_nat (historyIndex s + 2 - 1)) with (length pre + 0)%nat by lia.
    rewrite lookup_app_r by lia.
    replace (length pre + 0 - length pre)%nat with 0%nat by lia. reflexivity. }
  destruct (fits_snapshot (canvas s) c' t Hwf Hwf' Hw Hh) as [(FA1 & FA2 & FA3) HdA].
  fold A in FA1, FA2, FA3, HdA.
  set (c3 := putImageData c' (imageData A) 0 0).
  set (s3 := saveCanvas (setHistoryIndex (set_canvas s2 c3) (historyIndex s2 - 1))).
  assert (Hu : undo s2 = Returned s3).
  { rewrite (undo_step s2 A); [rewrite Hc2; reflexivity | rewrite Hi2; lia | exact HA]. }
  assert (Hd3 : canvas_data c3 = canvas_data (canvas s)).
  { unfold c3. rewrite putImageData_full by assumption. exact HdA. }
  assert (Hwf3 : wf_canvas c3) by (apply putImageData_wf; exact Hwf').
  assert (Hi3 : historyIndex s3 = historyIndex s + 1)
    by (change (historyIndex s3) with (historyIndex s2 - 1); lia).
  assert (Hh3 : history s3 = history s2) by reflexivity.
  assert (HB : elem (history s3) (historyIndex s3 + 1) = Some B).
  { rewrite Hi3, Hh3, Hh2, elem_lookup by lia.
    replace (Z.to_nat (historyIndex s + 1 + 1)) with (length (pre ++ [A]) + 0)%nat
      by (rewrite length_app; simpl length; lia).
    rewrite lookup_app_r by lia.
    replace (length (pre ++ [A]) + 0 - length (pre ++ [A]))%nat with 0%nat by lia.
    reflexivity. }
  destruct (fits_snapshot c' c3 t' Hwf' Hwf3 eq_refl eq_refl) as [(FB1 & FB2 & FB3) HdB].
  fold B in FB1, FB2, FB3, HdB.
  set (c4 := putImageData c3 (imageData B) 0 0).
  exists s3.
  exists (saveCanvas (setHistoryIndex (set_canvas s3 c4) (historyIndex s3 + 1))).
  split; [exact Hu|]. split; [exact Hd3|]. split; [exact Hi3|].
  split.
  - rewrite (redo_step s3 B); [reflexivity | | exact HB].
    rewrite Hi3, Hh3, Hh2, !length_app. simpl length. lia.
  - split.
    + change (canvas_data c4 = canvas_data c'). unfold c4.
      rewrite putImageData_full by assumption. exact HdB.
    + change (historyIndex s3 + 1 = historyIndex s + 2). lia.
Qed.

Lemma undo_after_capture_witness :
  wf_canvas (canvas (mount 0 initialState)) /\ wf_canvas twoRedPixels /\
  -1 <= historyIndex (mount 0 initialState)
     < Z.of_nat (length (history (mount 0 initialState))) /\
  exists s3,
    undo (saveToHistory 2 (set_canvas (saveToHistory 1 (mount 0 initialState))
                             twoRedPixels)) = Returned s3 /\
    canvas_data (canvas s3) = canvas_data whiteCanvas.
Proof.
  assert (Hi : -1 <= historyIndex (mount 0 initialState)
               < Z.of_nat (length (history (mount 0 initialState)))).
  { rewrite mount_index, mount_history. simpl. lia. }
  split; [exact whiteCanvas_wf|]. split; [exact twoRedPixels_wf|].
  split; [exact Hi|].
  destruct (undo_after_capture 1 2 (mount 0 initialState) twoRedPixels
              whiteCanvas_wf twoRedPixels_wf eq_refl eq_refl Hi
              ltac:(rewrite mount_index; lia))
    as (s3 & s4 & Hu & Hd & _).
  exists s3. split; [exact Hu | exact Hd].
Defined.

(** X22.  The fill tool fills what is under the pointer.  On a 32x32
    canvas of bytes, with a foreground colour that [hexToRgb] reads and
    that is not the colour [t] of the pixel under the pointer, a press
    with the fill tool returns (with enough fuel); every pixel of the
    4-connected region of colour [t] around the pixel under the pointer,
    that pixel included, then has the red, green and blue of the
    foreground colour and the alpha it had; and the press makes one
    capture and leaves the drawing flag set. *)
Theorem fill_press_fills_region (now : Z) (s : State) (e : MouseEvent) (t f : RGB) :
  0 < zoom s -> activeTool s = fill ->
  wf_canvas (canvas s) -> byteCanvas (canvas s) ->
  canvas_width (canvas s) = size_width canvasSize ->
  canvas_height (canvas s) = size_height canvasSize ->
  hasRGB (canvas_width (canvas s)) (canvas_data (canvas s)) t (getPixelCoords s e) ->
  hexToRgb (foregroundColor s) = Some f -> t <> f ->
  (exists fuel s', handleMouseDown fuel now s e = Some s') /\
  forall fuel s',
    handleMouseDown fuel now s e = Some s' ->
    historyIndex s' = historyIndex s + 1 /\ isDrawing s' = true /\
    canvasPixel (canvas s') (px (getPixelCoords s e)) (py (getPixelCoords s e))
    = [Some (red f); Some (green f); Some (blue f);
       elem (canvas_data (canvas s))
         (offset (canvas_width (canvas s)) (px (getPixelCoords s e))
            (py (getPixelCoords s e)) + 3)] /\
    forall x y,
      region (canvas_width (canvas s)) (canvas_height (canvas s))
        (canvas_data (canvas s)) t (getPixelCoords s e) (mkPoint x y) ->
      canvasPixel (canvas s') x y
      = [Some (red f); Some (green f); Some (blue f);
         elem (canvas_data (canvas s)) (offset (canvas_width (canvas s)) x y + 3)].
Proof.
  intros _ Htool Hwf Hbytes Hw Hh Hhas Hf Hne.
  set (p := getPixelCoords s e) in *.
  destruct (getPixelCoords_range s e) as [Hx Hy]. fold p in Hx, Hy.
  assert (Hp : p = mkPoint (px p) (py p)) by (destruct p; reflexivity).
  assert (Hin : inCanvas (canvas s) (px p) (py p) = true).
  { apply inCanvas_spec. rewrite Hw, Hh.
    change (size_width canvasSize) with 32. change (size_height canvasSize) with 32.
    lia. }
  assert (Hinside : inside (canvas_width (canvas s)) (canvas_height (canvas s)) p).
  { unfold inside. rewrite Hw, Hh.
    change (size_width canvasSize) with 32. change (size_height canvasSize) with 32.
    lia. }
  pose proof Hhas as Hhas'. rewrite Hp in Hhas'.
  pose proof (pixel_of_hasRGB _ _ _ _ Hhas') as Hpix.
  pose proof Hhas as Hel. unfold hasRGB in Hel.
  apply matchesRGB_elems in Hel as (E0 & E1 & E2).
  assert (Hbt : byteRGB t).
  { unfold byteRGB. rewrite <- (Z.add_0_r (offset _ _ _)) in E0.
    pose proof (Hbytes _ _ E0). pose proof (Hbytes _ _ E1). pose proof (Hbytes _ _ E2).
    auto. }
  assert (Htarget : getPixelColor (canvas s) (px p) (py p) = hexColor t).
  { destruct t as [r g b].
    exact (getPixelColor_inside (canvas s) (px p) (py p) r g b _ Hin Hpix). }
  pose proof (hexToRgb_hexColor t Hbt) as Hread.
  assert (Hdown : forall fuel,
            handleMouseDown fuel now s e =
              match floodFill fuel (canvas s) (px p) (py p) (hexColor t)
                      (foregroundColor s) with
              | Some c =>
                  Some (saveCanvas (saveToHistory now
                          (set_canvas (setIsDrawing
                             (setCurrentPoint (setStartPoint s p) p) true) c)))
              | None => None
              end).
  { intros fuel. rewrite (handleMouseDown_fill fuel now s e Htool). cbv zeta.
    fold p. rewrite Htarget. reflexivity. }
  split.
  - destruct (floodFill_total (canvas s) (px p) (py p) (hexColor t) (foregroundColor s)
                Hwf) as (fuel & c' & Hrun);
      [right; rewrite Hread, Hf; congruence|].
    exists fuel. rewrite Hdown, Hrun. eexists. reflexivity.
  - intros fuel s'. rewrite Hdown.
    destruct (floodFill fuel (canvas s) (px p) (py p) (hexColor t) (foregroundColor s))
      as [c'|] eqn:Hrun; [|discriminate].
    intros [= <-].
    split; [reflexivity|]. split; [reflexivity|].
    change (canvas (saveCanvas (saveToHistory now (set_canvas _ c')))) with c'.
    assert (Hfill : forall x y,
              region (canvas_width (canvas s)) (canvas_height (canvas s))
                (canvas_data (canvas s)) t p (mkPoint x y) ->
              canvasPixel c' x y
              = [Some (red f); Some (green f); Some (blue f);
                 elem (canvas_data (canvas s))
                   (offset (canvas_width (canvas s)) x y + 3)]).
    { intros x y Hreg. rewrite Hp in Hreg.
      exact (floodFill_region_filled (canvas s) (px p) (py p) (hexColor t)
               (foregroundColor s) t f fuel c' Hwf Hread Hf Hne Hrun x y Hreg). }
    split; [|exact Hfill].
    apply Hfill. rewrite <- Hp. apply region_seed; assumption.
Qed.

Lemma fill_press_fills_region_witness :
  let s := setActiveTool (setForegroundColor (mount 0 initialState) "#FF0000") fill in
  0 < zoom s /\ activeTool s = fill /\
  wf_canvas (canvas s) /\ byteCanvas (canvas s) /\
  hasRGB (canvas_width (canvas s)) (canvas_data (canvas s)) (mkRGB 255 255 255)
    (getPixelCoords s (eventAt 4 4)) /\
  hexToRgb (foregroundColor s) = Some (mkRGB 255 0 0) /\
  mkRGB 255 255 255 <> mkRGB 255 0 0 /\
  exists fuel s', handleMouseDown fuel 1 s (eventAt 4 4) = Some s'.
Proof.
  intros s.
  assert (Hne : mkRGB 255 255 255 <> mkRGB 255 0 0) by discriminate.
  assert (Hhas : hasRGB (canvas_width (canvas s)) (canvas_data (canvas s))
                   (mkRGB 255 255 255) (getPixelCoords s (eventAt 4 4))).
  { change (getPixelCoords s (eventAt 4 4)) with (mkPoint 4 4).
    change (canvas s) with whiteCanvas.
    apply (hasRGB_of_pixel whiteCanvas 4 4 255 255 255 (Some 255)).
    exact (whiteCanvas_pixel 4 4 eq_refl). }
  split; [reflexivity|]. split; [reflexivity|].
  split; [exact whiteCanvas_wf|]. split; [exact whiteCanvas_bytes|].
  split; [exact Hhas|]. split; [reflexivity|]. split; [exact Hne|].
  exact (proj1 (fill_press_fills_region 1 s (eventAt 4 4) (mkRGB 255 255 255)
                  (mkRGB 255 0 0) eq_refl eq_refl whiteCanvas_wf whiteCanvas_bytes
                  eq_refl eq_refl Hhas eq_refl Hne)).
Defined.

(** X23.  What [hexToRgb] reads.  When it returns a colour, the three
    components are bytes, and the string has six characters, or seven of
    which the first is [#]; and for a string of six characters the
    leading [#] makes no difference. *)
Theorem hexToRgb_shape (hex : string) :
  (forall c, hexToRgb hex = Some c ->
     byteRGB c /\
     (String.length hex = 6%nat \/
      String.length hex = 7%nat /\ String.get 0 hex = Some "#"%char)) /\
  (String.length hex = 6%nat -> hexToRgb (String "#"%char hex) = hexToRgb hex).
Proof.
  split.
  - intros c H. split; [exact (hexToRgb_range _ _ H)|].
    unfold hexToRgb in H. destruct hex as [|a rest]; [discriminate|].
    destruct (Ascii.eqb a "#") eqn:E.
    + right. apply Ascii.eqb_eq in E. subst a.
      apply hexGroups_length in H. simpl. rewrite H. split; reflexivity.
    + left. exact (hexGroups_length _ _ H).
  - intros Hlen. unfold hexToRgb at 1.
    change (Ascii.eqb "#" "#") with true. cbv iota.
    destruct hex as [|r1 [|r2 [|g1 [|g2 [|b1 [|b2 [|x rest]]]]]]]; try discriminate.
    unfold hexToRgb. destruct (Ascii.eqb r1 "#") eqn:E; [|reflexivity].
    apply Ascii.eqb_eq in E. subst r1.
    unfold hexGroups, parseHex2. rewrite hexDigit_hash. reflexivity.
Qed.

Lemma hexToRgb_shape_witness :
  String.length "FF8000" = 6%nat /\
  hexToRgb "#FF8000" = Some (mkRGB 255 128 0) /\
  hexToRgb "FF8000" = Some (mkRGB 255 128 0).
Proof.
  split; [reflexivity|]. split; [reflexivity|].
  rewrite <- (proj2 (hexToRgb_shape "FF8000") eq_refl). reflexivity.
Defined.

(** X24.  When the fill does nothing.  If the two colour strings are
    the same string, or if [hexToRgb] cannot read one of them (a colour
    name, say), [floodFill] returns at once, with any fuel, and leaves the
    canvas as it is. *)
Theorem floodFill_does_nothing (fuel : nat) (c : Canvas) (startX startY : Z)
    (targetColor fillColor : string) :
  targetColor = fillColor \/ hexToRgb targetColor = None \/
  hexToRgb fillColor = None ->
  floodFill fuel c startX startY targetColor fillColor = Some c.
Proof.
  intros [->|H]; [apply floodFill_same_string|].
  unfold floodFill. destruct (String.eqb targetColor fillColor); [reflexivity|].
  cbv zeta. destruct H as [-> | ->]; [reflexivity|].
  destruct (hexToRgb targetColor); reflexivity.
Qed.

Lemma floodFill_does_nothing_witness :
  hexToRgb "white" = None /\
  floodFill 0 twoRedPixels 0 0 "white" "#000000" = Some twoRedPixels.
Proof.
  split; [reflexivity|].
  exact (floodFill_does_nothing 0 twoRedPixels 0 0 "white" "#000000"
           (or_intror (or_introl eq_refl))).
Defined.
